(** * github-stats: the contribution dashboard (src/dashboard.ts)

    A shallow embedding of the data processing and layout code of the
    dashboard, and the properties of its streak, quartile, bar chart,
    heatmap and fetch logic.

    JavaScript numbers that hold integers are modelled by [Z], array
    indices and loop counters by [nat], arrays by [list], strings by
    [string] (code units as [ascii]), and a value that may be [undefined]
    by [option]. *)

From Stdlib Require Import Ascii String.
From Stdlib Require Import ZArith List Bool Lia.
From Stdlib Require Import Permutation Sorting.Sorted.
From Stdlib Require Import OrderedTypeEx.
From Stdlib Require Import Floats.SpecFloat.
Import ListNotations.

Local Open Scope Z_scope.

(** ** The runtime: arrays, strings and dates *)

Module JS.

Section Arrays.
Context {A : Type}.

(** [Array.prototype.sort(cmp)] is stable: an element moves behind
  another one only when the comparator says it is greater.  Insertion
  from the right is the reference stable sort. *)
Fixpoint insert_by (cmp : A -> A -> Z) (x : A) (l : list A) : list A :=
match l with
| [] => [x]
| y :: l' => if 0 <? cmp x y then y :: insert_by cmp x l' else x :: l
end.

Definition sort (cmp : A -> A -> Z) (l : list A) : list A :=
fold_right (insert_by cmp) [] l.

(** [arr.slice(start)]: a negative [start] counts from the end, and the
  start is clamped to [0 .. length]. *)
Definition slice_from (start : Z) (l : list A) : list A :=
let len := Z.of_nat (length l) in
let k := if start <? 0 then Z.max (len + start) 0 else Z.min start len in
skipn (Z.to_nat k) l.

(** [arr[i]] for an array whose elements may be [undefined]. *)
Definition get (l : list (option A)) (i : nat) : option A :=
match nth_error l i with
| Some v => v
| None => None
end.
End Arrays.

(** [a.localeCompare(b)].  The strings compared by the dashboard are ISO
    dates (ASCII digits and hyphens at fixed positions), on which the
    collation order is the code unit order. *)
Definition localeCompare (a b : string) : Z :=
  match String.compare a b with
  | Lt => -1
  | Eq => 0
  | Gt => 1
  end.

(** [c <= q] where [q] may be [undefined]: [undefined] converts to NaN and
    every comparison with NaN is false. *)
Definition leb_undef (c : Z) (q : option Z) : bool :=
  match q with
  | Some q => c <=? q
  | None => false
  end.

(** *** Dates *)

Definition msPerDay : Z := 86400000.

(** Day number since 1970-01-01 to proleptic Gregorian (year, month, day),
    as [Date.prototype.toISOString] and the date getters compute it. *)
Definition civil_from_days (days : Z) : Z * Z * Z :=
  let z := days + 719468 in
  let era := z / 146097 in
  let doe := z - era * 146097 in
  let yoe := (doe - doe / 1460 + doe / 36524 - doe / 146096) / 365 in
  let y := yoe + era * 400 in
  let doy := doe - (365 * yoe + yoe / 4 - yoe / 100) in
  let mp := (5 * doy + 2) / 153 in
  let d := doy - (153 * mp + 2) / 5 + 1 in
  let m := if mp <? 10 then mp + 3 else mp - 9 in
  (if m <=? 2 then y + 1 else y, m, d).

Definition digit (n : Z) : ascii := ascii_of_nat (48 + Z.to_nat (n mod 10)).

(** The [w] low decimal digits of [n], most significant first. *)
Fixpoint digits (w : nat) (n : Z) : string :=
  match w with
  | O => EmptyString
  | S w' => (digits w' (n / 10)%Z ++ String (digit n) EmptyString)%string
  end.

Definition isoYear (y : Z) : string :=
  if (0 <=? y) && (y <=? 9999) then digits 4 y
  else ((if (y <? 0)%Z then "-" else "+") ++ digits 6 (Z.abs y))%string.

(** [new Date(t).toISOString()] for a time value [t] in milliseconds
    since the epoch: always UTC. *)
Definition toISOString (t : Z) : string :=
  let '(y, m, d) := civil_from_days (t / msPerDay) in
  let r := t mod msPerDay in
  (isoYear y ++ "-" ++ digits 2 m ++ "-" ++ digits 2 d ++ "T"
     ++ digits 2 (r / 3600000)%Z ++ ":" ++ digits 2 (r / 60000 mod 60)%Z ++ ":"
     ++ digits 2 (r / 1000 mod 60)%Z ++ "." ++ digits 3 (r mod 1000)%Z ++ "Z")%string.

Definition isDigit (c : ascii) : bool :=
  let n := nat_of_ascii c in (48 <=? n)%nat && (n <=? 57)%nat.

Definition digitVal (c : ascii) : Z := Z.of_nat (nat_of_ascii c) - 48.

Definition isLeap (y : Z) : bool :=
  ((y mod 4 =? 0) && negb (y mod 100 =? 0)) || (y mod 400 =? 0).

Definition daysInMonth (y m : Z) : Z :=
  if m =? 2 then (if isLeap y then 29 else 28)
  else if (m =? 4) || (m =? 6) || (m =? 9) || (m =? 11) then 30 else 31.

(** The calendar date written by an ISO date string [YYYY-MM-DD].  The
    contribution calendar only carries such dates; any other string is
    outside the model and yields [None]. *)
Definition parseIsoDate (s : string) : option (Z * Z * Z) :=
  match list_ascii_of_string s with
  | [y1; y2; y3; y4; h1; m1; m2; h2; d1; d2] =>
      if forallb isDigit [y1; y2; y3; y4; m1; m2; d1; d2]
         && Ascii.eqb h1 "-" && Ascii.eqb h2 "-"
      then
        let y := ((digitVal y1 * 10 + digitVal y2) * 10 + digitVal y3) * 10 + digitVal y4 in
        let m := digitVal m1 * 10 + digitVal m2 in
        let d := digitVal d1 * 10 + digitVal d2 in
        if (1 <=? m) && (m <=? 12) && (1 <=? d) && (d <=? daysInMonth y m)
        then Some (y, m, d) else None
      else None
  | _ => None
  end.

(** [new Date(s + 'T00:00:00').getMonth()]: a date-time without offset is
    read as local time, and the local getter gives back the month that
    was written, counted from 0. *)
Definition getMonthOfLocalMidnight (s : string) : option nat :=
  match parseIsoDate s with
  | Some (_, m, _) => Some (Z.to_nat (m - 1))
  | None => None
  end.

End JS.

(** The clock and time zone of the machine the dashboard runs on. *)
Record Clock := {
  now_ms : Z;          (* milliseconds since the epoch, what [new Date()] reads *)
  tz_offset_min : Z    (* local time minus UTC, in minutes *)
}.

(** ** Types *)

Record ContributionDay := {
  date : string;
  contributionCount : Z
}.

Record ContributionWeek := {
  contributionDays : list ContributionDay
}.

Record CalendarData := {
  totalContributions : Z;
  weeks : list ContributionWeek
}.

(** ** Data processing *)

Definition getAllDays (calendar : CalendarData) : list ContributionDay :=
  flat_map contributionDays (weeks calendar).

(** [new Date().toISOString().slice(0, 10)] *)
Definition todayString (clock : Clock) : string :=
  String.substring 0 10 (JS.toISOString (now_ms clock)).

(** The [for (let i = startIdx; i < sorted.length; i++)] loop of
    [calculateStreak]; [fuel] bounds the number of iterations. *)
Fixpoint streakLoop (sorted : list ContributionDay) (fuel i streak : nat) : nat :=
  match fuel with
  | O => streak
  | S fuel' =>
      match nth_error sorted i with
      | None => streak
      | Some d =>
          if 0 <? contributionCount d
          then streakLoop sorted fuel' (S i) (S streak)
          else streak
      end
  end.

(** [[...days].sort((a, b) => b.date.localeCompare(a.date))] *)
Definition sortedRecentFirst (days : list ContributionDay) : list ContributionDay :=
  JS.sort (fun a b => JS.localeCompare (date b) (date a)) days.

(** [sorted[0]?.date === today && sorted[0].contributionCount === 0] *)
Definition skipsToday (today : string) (sorted : list ContributionDay) : bool :=
  match nth_error sorted 0 with
  | Some d => String.eqb (date d) today && (contributionCount d =? 0)
  | None => false
  end.

Definition calculateStreak (clock : Clock) (days : list ContributionDay) : nat :=
  let sorted := sortedRecentFirst days in
  let today := todayString clock in
  let startIdx := if skipsToday today sorted then 1%nat else 0%nat in
  streakLoop sorted (length sorted) startIdx 0.

(** One iteration of the [for (const day of days)] loop of
    [calculateLongestStreak] on the pair (longest, current). *)
Definition longestStep (st : nat * nat) (day : ContributionDay) : nat * nat :=
  let '(longest, current) := st in
  if 0 <? contributionCount day then
    let current := S current in
    (if (longest <? current)%nat then current else longest, current)
  else (longest, 0%nat).

Definition calculateLongestStreak (days : list ContributionDay) : nat :=
  fst (fold_left longestStep days (0%nat, 0%nat)).

(** [days.map(d => d.contributionCount).filter(c => c > 0).sort((a, b) => a - b)] *)
Definition nonZeroCounts (days : list ContributionDay) : list Z :=
  JS.sort (fun a b => a - b)
    (filter (fun c => 0 <? c) (map contributionCount days)).

(** [Math.floor(n * 0.25)], [Math.floor(n * 0.50)], [Math.floor(n * 0.75)]
    for an array length [n], with [k] = 1, 2, 3: the factors are dyadic
    and [3 * n] stays far below 2^53, so the products are exact in binary64
    and the floors are the integer quotients ([quartileIndex_binary64]
    computes both for the lengths a calendar can have). *)
Definition quartileIndex (n : nat) (k : nat) : nat := (n * k / 4)%nat.

Definition computeQuartiles (days : list ContributionDay) : list (option Z) :=
  let nonZero := nonZeroCounts days in
  match nonZero with
  | [] => [Some 1; Some 2; Some 3; Some 4]
  | _ =>
      let n := length nonZero in
      [nth_error nonZero (quartileIndex n 1);
       nth_error nonZero (quartileIndex n 2);
       nth_error nonZero (quartileIndex n 3)]
  end.

Definition getHeatmapLevel (count : Z) (quartiles : list (option Z)) : nat :=
  if count =? 0 then 0%nat
  else if JS.leb_undef count (JS.get quartiles 0) then 1%nat
  else if JS.leb_undef count (JS.get quartiles 1) then 2%nat
  else if JS.leb_undef count (JS.get quartiles 2) then 3%nat
  else 4%nat.

(** ** Numbers of the bar chart: binary64 *)

Module Num.

Definition prec : Z := 53.
Definition emax : Z := 1024.

(** The Number that holds the integer [z]. *)
Definition ofZ (z : Z) : spec_float := binary_normalize prec emax z 0 false.

Definition div : spec_float -> spec_float -> spec_float := SFdiv prec emax.
Definition mul : spec_float -> spec_float -> spec_float := SFmul prec emax.

(** [Math.round(x)]: the integer closest to [x], a tie going towards
    +Infinity; NaN, the infinities and the zeros are returned as they
    are.  A finite [x] with a non-negative exponent is an integer
    already; otherwise [x = v / 2^k] and the result is
    [floor ((2 v + 2^k) / 2^(k+1))], which has fewer than 53 bits. *)
Definition Math_round (x : spec_float) : spec_float :=
  match x with
  | S754_finite s m e =>
      if 0 <=? e then x
      else
        let k := 2 ^ (- e) in
        binary_normalize prec emax ((2 * cond_Zopp s (Zpos m) + k) / (2 * k)) 0 s
  | _ => x
  end.

(** The integer [Math.floor(x)] holds, for a finite [x]. *)
Definition floorZ (x : spec_float) : option Z :=
  match x with
  | S754_zero _ => Some 0
  | S754_finite s m e =>
      Some (if 0 <=? e then cond_Zopp s (Zpos m) * 2 ^ e
            else cond_Zopp s (Zpos m) / 2 ^ (- e))
  | _ => None
  end.

End Num.

(** ** Render bar chart (last 14 days) *)

(** [[...days].sort((a, b) => a.date.localeCompare(b.date))] *)
Definition sortedOldestFirst (days : list ContributionDay) : list ContributionDay :=
  JS.sort (fun a b => JS.localeCompare (date a) (date b)) days.

(** [sorted.slice(-14)] *)
Definition last14 (days : list ContributionDay) : list ContributionDay :=
  JS.slice_from (-14) (sortedOldestFirst days).

(** [Math.max(...counts, 1)] *)
Definition maxCountOf (l14 : list ContributionDay) : Z :=
  fold_right Z.max 1 (map contributionCount l14).

Definition labelWidth : Z := 8.
Definition countWidth : Z := 6.

Definition barMaxWidthOf (width : Z) : Z :=
  Z.max 20 (width - labelWidth - countWidth - 4).

(** [Math.round((day.contributionCount / maxCount) * barMaxWidth)] *)
Definition barLenOf (maxCount barMaxWidth : Z) (day : ContributionDay) : spec_float :=
  Num.Math_round
    (Num.mul (Num.div (Num.ofZ (contributionCount day)) (Num.ofZ maxCount))
             (Num.ofZ barMaxWidth)).

(** One printed line of the chart: the day it is for and the number of
    block characters of its bar. *)
Record BarRow := {
  barDay : ContributionDay;
  barLen : spec_float
}.

Definition renderBarChart (days : list ContributionDay) (width : Z) : list BarRow :=
  let l14 := last14 days in
  let maxCount := maxCountOf l14 in
  let barMaxWidth := barMaxWidthOf width in
  map (fun day => {| barDay := day; barLen := barLenOf maxCount barMaxWidth day |}) l14.

(** ** Render heatmap *)

Definition dayLabelWidth : Z := 6.
Definition indent : Z := 2.

Definition availableOf (width : Z) : Z := width - indent - dayLabelWidth.

Definition cellWidthOf (calendar : CalendarData) (width : Z) : nat :=
  if Z.of_nat (length (weeks calendar)) * 2 <=? availableOf width then 2%nat else 1%nat.

Definition maxWeeksOf (calendar : CalendarData) (width : Z) : Z :=
  Z.min (Z.of_nat (length (weeks calendar)))
        (availableOf width / Z.of_nat (cellWidthOf calendar width)).

Definition displayWeeksOf (calendar : CalendarData) (width : Z) : list ContributionWeek :=
  JS.slice_from (Z.of_nat (length (weeks calendar)) - maxWeeksOf calendar width)
                (weeks calendar).

Definition rowIndicesOf (calendar : CalendarData) (width : Z) : list nat :=
  if Z.of_nat (length (weeks calendar)) * 2 <=? availableOf width
  then [0; 1; 2; 3; 4; 5; 6]%nat
  else [1; 3; 5]%nat.

Definition months : list string :=
  ["Jan"; "Feb"; "Mar"; "Apr"; "May"; "Jun";
   "Jul"; "Aug"; "Sep"; "Oct"; "Nov"; "Dec"]%string.

(** [months[month]]; a month that is NaN indexes nothing. *)
Definition monthLabel (month : option Z) : option string :=
  match month with
  | Some m => if 0 <=? m then nth_error months (Z.to_nat m) else None
  | None => None
  end.

(** [month !== lastMonth] on Numbers; [None] is NaN, which differs from
    every Number. *)
Definition numNeq (a b : option Z) : bool :=
  match a, b with
  | Some x, Some y => negb (x =? y)
  | _, _ => true
  end.

(** [new Date(firstDay.date + 'T00:00:00').getMonth()] *)
Definition getMonth (d : ContributionDay) : option Z :=
  option_map Z.of_nat (JS.getMonthOfLocalMidnight (date d)).

(** The loop that collects [monthPositions], from week column [w] on. *)
Fixpoint monthPositionsLoop (cellWidth : nat) (displayWeeks : list ContributionWeek)
    (w : nat) (lastMonth : option Z) : list (nat * option string) :=
  match displayWeeks with
  | [] => []
  | week :: rest =>
      match nth_error (contributionDays week) 0 with
      | Some firstDay =>
          let month := getMonth firstDay in
          if numNeq month lastMonth
          then (w * cellWidth, monthLabel month)%nat
                 :: monthPositionsLoop cellWidth rest (S w) month
          else monthPositionsLoop cellWidth rest (S w) lastMonth
      | None => monthPositionsLoop cellWidth rest (S w) lastMonth
      end
  end.

Definition monthPositionsOf (cellWidth : nat) (displayWeeks : list ContributionWeek)
    : list (nat * option string) :=
  monthPositionsLoop cellWidth displayWeeks 0 (Some (-1)).

(** [chars[i] = c]: writing past the end extends the array with holes. *)
Fixpoint arraySet (chars : list (option ascii)) (i : nat) (c : ascii)
    : list (option ascii) :=
  match chars, i with
  | [], O => [Some c]
  | [], S i' => None :: arraySet [] i' c
  | _ :: chars', O => Some c :: chars'
  | x :: chars', S i' => x :: arraySet chars' i' c
  end.

(** [for (let i = 0; i < label.length; i++) chars[col + i] = label[i]],
    from index [i] on, [label] being the characters still to write. *)
Fixpoint writeLabel (chars : list (option ascii)) (col i : nat) (label : string)
    : list (option ascii) :=
  match label with
  | EmptyString => chars
  | String c label' => writeLabel (arraySet chars (col + i) c) col (S i) label'
  end.

(** The loop that renders the month row.  [None] is the TypeError raised
    by [label.length] when the label is [undefined]. *)
Fixpoint monthRowLoop (positions : list (nat * option string))
    (chars : list (option ascii)) (lastEnd : Z) : option (list (option ascii)) :=
  match positions with
  | [] => Some chars
  | (col, label) :: rest =>
      if lastEnd <? Z.of_nat col then
        match label with
        | None => None
        | Some label =>
            if (col + String.length label <=? length chars)%nat
            then monthRowLoop rest (writeLabel chars col 0 label)
                   (Z.of_nat (col + String.length label))
            else monthRowLoop rest chars lastEnd
        end
      else monthRowLoop rest chars lastEnd
  end.

Definition blankChars (n : nat) : list (option ascii) := repeat (Some " "%char) n.

Definition monthChars (calendar : CalendarData) (width : Z)
    : option (list (option ascii)) :=
  let cellWidth := cellWidthOf calendar width in
  let displayWeeks := displayWeeksOf calendar width in
  monthRowLoop (monthPositionsOf cellWidth displayWeeks)
               (blankChars (length displayWeeks * cellWidth)) (-1).

(** [chars.join('')]: a hole joins as the empty string. *)
Fixpoint joinChars (chars : list (option ascii)) : string :=
  match chars with
  | [] => EmptyString
  | Some c :: rest => String c (joinChars rest)
  | None :: rest => joinChars rest
  end.

(** The cells of one day row: for each week shown the level of its day
    [dayIdx], or nothing where the week has no such day. *)
Definition dayRow (quartiles : list (option Z)) (displayWeeks : list ContributionWeek)
    (dayIdx : nat) : list (option nat) :=
  map (fun week =>
         option_map (fun day => getHeatmapLevel (contributionCount day) quartiles)
                    (nth_error (contributionDays week) dayIdx))
      displayWeeks.

(** What [renderHeatmap] lays out: the values of its local variables of
    the same names, and the levels of the cells it colours. *)
Record Heatmap := {
  cellWidth : nat;
  displayWeeks : list ContributionWeek;
  chars : option (list (option ascii));
  monthRow : option string;
  rowIndices : list nat;
  dayRows : list (list (option nat))
}.

Definition renderHeatmap (calendar : CalendarData) (width : Z) : Heatmap :=
  let quartiles := computeQuartiles (getAllDays calendar) in
  let shown := displayWeeksOf calendar width in
  let row := monthChars calendar width in
  {| cellWidth := cellWidthOf calendar width;
     displayWeeks := shown;
     chars := row;
     monthRow :=
       option_map (fun cs => (String.concat "" (repeat " " (Z.to_nat (indent + dayLabelWidth)))
                              ++ joinChars cs)%string) row;
     rowIndices := rowIndicesOf calendar width;
     dayRows := map (dayRow quartiles shown) (rowIndicesOf calendar width) |}.

(** ** Data fetching *)

(** A parsed JSON document. *)
#[local] Unset Elimination Schemes.
Inductive Json :=
| JNull
| JBool (b : bool)
| JNumber (x : spec_float)
| JString (s : string)
| JArray (items : list Json)
| JObject (fields : list (string * Json)).
#[local] Set Elimination Schemes.

(** A JavaScript value read out of a document; [None] is [undefined]. *)
Definition Value := option Json.

(** The object [fetchContributions] returns: the two values as they were
    read from the document (the declared types are not checked at run
    time). *)
Record GitHubData := {
  login : Value;
  calendar : Value
}.

(** Why [execSync] throws. *)
Inductive ExecFailure :=
| BinaryMissing
| ExitStatus (status : Z)
| TimedOut.

Inductive ExecResult :=
| ExecThrows (why : ExecFailure)
| ExecReturns (stdout : string).

Inductive Thrown :=
| ExecError (why : ExecFailure)
| SyntaxError
| TypeError.

(** The environment of one run: what the shell command does within the
    timeout, and the runtime's [JSON.parse] ([None] for a SyntaxError). *)
Record Runtime := {
  execSync : string -> Z -> ExecResult;
  JSON_parse : string -> option Json
}.

Inductive Style := red | dim.

(** The observable history of the process. *)
Record Process := {
  stderrLines : list (Style * string);
  executed : list (string * Z)
}.

Inductive Completion (A : Type) :=
| Normal (a : A)
| Throw (e : Thrown)
| Exit (code : Z).
Arguments Normal {A} a.
Arguments Throw {A} e.
Arguments Exit {A} code.

Definition M (A : Type) : Type := Process -> Completion A * Process.

Definition ret {A} (a : A) : M A := fun p => (Normal a, p).

Definition bind {A B} (m : M A) (k : A -> M B) : M B :=
  fun p =>
    match m p with
    | (Normal a, p') => k a p'
    | (Throw e, p') => (Throw e, p')
    | (Exit code, p') => (Exit code, p')
    end.

Definition throw {A} (e : Thrown) : M A := fun p => (Throw e, p).

(** [try { body } catch { handler }] *)
Definition tryCatch {A} (body handler : M A) : M A :=
  fun p =>
    match body p with
    | (Throw _, p') => handler p'
    | done => done
    end.

Declare Scope fetch_scope.
Delimit Scope fetch_scope with fetch.
Notation "x <- m ;; k" := (bind m (fun x => k))
  (at level 61, m at next level, right associativity) : fetch_scope.
Notation "m ;;; k" := (bind m (fun _ => k))
  (at level 61, right associativity) : fetch_scope.

Definition console_error (style : Style) (line : string) : M unit :=
  fun p => (Normal tt, {| stderrLines := stderrLines p ++ [(style, line)];
                          executed := executed p |}).

Definition process_exit {A} (code : Z) : M A := fun p => (Exit code, p).

Definition runExecSync (rt : Runtime) (command : string) (timeout : Z) : M string :=
  fun p =>
    let p' := {| stderrLines := stderrLines p;
                 executed := executed p ++ [(command, timeout)] |} in
    match execSync rt command timeout with
    | ExecThrows why => (Throw (ExecError why), p')
    | ExecReturns out => (Normal out, p')
    end.

Definition runJsonParse (rt : Runtime) (text : string) : M Json :=
  match JSON_parse rt text with
  | Some j => ret j
  | None => throw SyntaxError
  end.

Fixpoint lookupField (name : string) (fields : list (string * Json)) : Value :=
  match fields with
  | [] => None
  | (k, v) :: rest => if String.eqb k name then Some v else lookupField name rest
  end.

(** [v.name] for the property names the fetch reads, none of which is
    defined on a prototype: reading from [undefined] or [null] throws a
    TypeError, an object yields its field, any other value [undefined]. *)
Definition getProp (v : Value) (name : string) : M Value :=
  match v with
  | None | Some JNull => throw TypeError
  | Some (JObject fields) => ret (lookupField name fields)
  | Some _ => ret None
  end.

(** [s.replace(/c/g, by)] for a single character [c]. *)
Fixpoint replaceAll (c : ascii) (by_ : string) (s : string) : string :=
  match s with
  | EmptyString => EmptyString
  | String x s' =>
      if Ascii.eqb x c then (by_ ++ replaceAll c by_ s')%string
      else String x (replaceAll c by_ s')
  end.

Definition newline : ascii := ascii_of_nat 10.

Definition query : string := "
    query {
      viewer {
        login
        contributionsCollection {
          contributionCalendar {
            totalContributions
            weeks {
              contributionDays {
                date
                contributionCount
              }
            }
          }
        }
      }
    }
  ".

Definition ghCommand : string :=
  ("gh api graphql -f query='"
     ++ replaceAll "'" "'\''" (replaceAll newline " " query) ++ "'")%string.

Definition fetchTimeout : Z := 10000.

Definition failureLines : list (Style * string) :=
  [(red, "Failed to fetch GitHub data. Make sure `gh` is installed and authenticated."%string);
   (dim, "Run `gh auth login` to set up the GitHub CLI."%string)].

Local Open Scope fetch_scope.

(** The [try] block. *)
Definition fetchTry (rt : Runtime) : M GitHubData :=
  result <- runExecSync rt ghCommand fetchTimeout ;;
  json <- runJsonParse rt result ;;
  data <- getProp (Some json) "data" ;;
  viewer <- getProp data "viewer" ;;
  viewerLogin <- getProp viewer "login" ;;
  collection <- getProp viewer "contributionsCollection" ;;
  contributionCalendar <- getProp collection "contributionCalendar" ;;
  ret {| login := viewerLogin; calendar := contributionCalendar |}.

(** The [catch] block. *)
Definition fetchCatch : M GitHubData :=
  console_error red
    "Failed to fetch GitHub data. Make sure `gh` is installed and authenticated." ;;;
  console_error dim "Run `gh auth login` to set up the GitHub CLI." ;;;
  process_exit 1.

Definition fetchContributions (rt : Runtime) : M GitHubData :=
  tryCatch (fetchTry rt) fetchCatch.

Local Close Scope fetch_scope.

(** ** What the specification says, as definitions *)

(** The calendar date of the clock's instant in the local time zone,
    written like the dates of the calendar. *)
Definition localDateString (clock : Clock) : string :=
  String.substring 0 10
    (JS.toISOString (now_ms clock + tz_offset_min clock * 60000)).

(** The number of days with a positive count at the front of a list. *)
Fixpoint leadingRun (l : list ContributionDay) : nat :=
  match l with
  | d :: rest => if 0 <? contributionCount d then S (leadingRun rest) else 0%nat
  | [] => 0%nat
  end.

(** The days that count towards the current streak: most recent first,
    without the first one when it is [today] and has no contribution. *)
Definition countedDays (today : string) (days : list ContributionDay)
    : list ContributionDay :=
  let sorted := sortedRecentFirst days in
  if skipsToday today sorted then tl sorted else sorted.

(** The current streak as the specification words it, for a given notion
    of today. *)
Definition streakSpec (today : string) (days : list ContributionDay) : nat :=
  leadingRun (countedDays today days).

(** [n] consecutive days of [days], from index [i] on, all with a positive
    count. *)
Definition Run (days : list ContributionDay) (i n : nat) : Prop :=
  forall j, (i <= j < i + n)%nat ->
    exists d, nth_error days j = Some d /\ 0 < contributionCount d.

(** Dates in code unit order. *)
Definition dateLe (a b : string) : Prop := String.compare a b <> Gt.
Definition dateLt (a b : string) : Prop := String.compare a b = Lt.

(** The state of [calculateLongestStreak] after the days [p]: [current]
    is the run at the end of [p], [longest] the longest run in [p]. *)
Definition LongestInv (p : list ContributionDay) (st : nat * nat) : Prop :=
  let '(longest, current) := st in
  (current <= length p)%nat /\
  Run p (length p - current) current /\
  (forall i n, Run p i n -> (i + n = length p)%nat -> (n <= current)%nat) /\
  (exists i, Run p i longest) /\
  (forall i n, Run p i n -> (n <= longest)%nat).


(** Reading the property [name] of a value that is neither [undefined] nor
    [null]: an object gives its field, any other value [undefined]. *)
Inductive HasField : Value -> string -> Value -> Prop :=
| HasField_object fields name :
    HasField (Some (JObject fields)) name (lookupField name fields)
| HasField_bool b name : HasField (Some (JBool b)) name None
| HasField_number x name : HasField (Some (JNumber x)) name None
| HasField_string s name : HasField (Some (JString s)) name None
| HasField_array items name : HasField (Some (JArray items)) name None.

(** The command returned a document from which [data.viewer.login] and
    [data.viewer.contributionsCollection.contributionCalendar] can be read. *)
Definition FetchedFrom (rt : Runtime) (d : GitHubData) : Prop :=
  exists out json data viewer collection,
    execSync rt ghCommand fetchTimeout = ExecReturns out
    /\ JSON_parse rt out = Some json
    /\ HasField (Some json) "data" data
    /\ HasField data "viewer" viewer
    /\ HasField viewer "login" (login d)
    /\ HasField viewer "contributionsCollection" collection
    /\ HasField collection "contributionCalendar" (calendar d).

(** The object with the fields [fields] has the value [v] under the key
    [name]; a parsed object holds each of its keys once. *)
Definition OwnProperty (fields : list (string * Json)) (name : string) (v : Json)
    : Prop :=
  NoDup (map fst fields) /\ In (name, v) fields.

(** The process after the command has been run once. *)
Definition afterRun (p : Process) : Process :=
  {| stderrLines := stderrLines p;
     executed := executed p ++ [(ghCommand, fetchTimeout)] |}.

(** The process after the command has been run once and the diagnostic
    printed. *)
Definition afterFailure (p : Process) : Process :=
  {| stderrLines := stderrLines p ++ failureLines;
     executed := executed p ++ [(ghCommand, fetchTimeout)] |}.

(** The month of a week's first day, as the heatmap reads it. *)
Definition monthOfWeek (week : ContributionWeek) : option Z :=
  match nth_error (contributionDays week) 0 with
  | Some firstDay => getMonth firstDay
  | None => None
  end.

(** A label at a column: the first column after it. *)
Definition labelEnd (p : nat * string) : nat := (fst p + String.length (snd p))%nat.

(** The month row shows the label [p] at its column. *)
Definition ShowsLabel (chars : list (option ascii)) (p : nat * string) : Prop :=
  forall i c, String.get i (snd p) = Some c ->
    nth_error chars (fst p + i) = Some (Some c).

(** Column [pos] lies under one of the labels. *)
Definition Covered (placed : list (nat * string)) (pos : nat) : Prop :=
  exists p, In p placed /\ (fst p <= pos < labelEnd p)%nat.

(** The candidate labels that are defined. *)
Definition definedLabels (positions : list (nat * option string)) : list (nat * string) :=
  flat_map (fun p => match snd p with
                     | Some label => [(fst p, label)]
                     | None => []
                     end) positions.

(** The labels that get written on a row of [n] columns: going through the
    candidates in order, one is kept when it starts after the end of the
    one kept before it and ends within the row. *)
Fixpoint placedLabels (candidates : list (nat * string)) (n : nat) (lastEnd : Z)
    : list (nat * string) :=
  match candidates with
  | [] => []
  | p :: rest =>
      if (lastEnd <? Z.of_nat (fst p)) && (labelEnd p <=? n)%nat
      then p :: placedLabels rest n (Z.of_nat (labelEnd p))
      else placedLabels rest n lastEnd
  end.

(** The row after the labels [placed] have been written on it in order. *)
Definition writeAll (placed : list (nat * string)) (chars : list (option ascii))
    : list (option ascii) :=
  fold_left (fun cs p => writeLabel cs (fst p) 0 (snd p)) placed chars.

(** The months of the year: the number [getMonth] gives a month, the two
    characters a calendar date writes it with, and its label. *)
Definition monthsOfYear : list (Z * string * string) :=
  [(0, "01", "Jan"); (1, "02", "Feb"); (2, "03", "Mar"); (3, "04", "Apr");
   (4, "05", "May"); (5, "06", "Jun"); (6, "07", "Jul"); (7, "08", "Aug");
   (8, "09", "Sep"); (9, "10", "Oct"); (10, "11", "Nov"); (11, "12", "Dec")]%string.

(** The date [s], written [YYYY-MM-DD], lies in the month numbered [month]
    and labelled [label]: its sixth and seventh characters write it. *)
Definition MonthOfDate (s : string) (month : Z) (label : string) : Prop :=
  In (month, String.substring 5 2 s, label) monthsOfYear.

(** A week of the calendar starts with a day whose date is an ISO calendar
    date. *)
Definition ValidWeek (week : ContributionWeek) : Prop :=
  exists firstDay y m d,
    nth_error (contributionDays week) 0 = Some firstDay
    /\ JS.parseIsoDate (date firstDay) = Some (y, m, d).

(** ** Printed text *)

(** A string as its sequence of UTF-16 code units; the strings of the
    program's own literals and of the data are ASCII except for the two
    box-drawing characters below. *)
Definition ustring := list N.

Definition units (s : string) : ustring := map N_of_ascii (list_ascii_of_string s).

Definition space : N := 32.
Definition ruleChar : N := 9472.    (* U+2500, the horizontal rule *)
Definition blockChar : N := 9608.   (* U+2588, the full block of the bars *)

(** [str.padEnd(len)] *)
Definition pad (str : ustring) (len : Z) : ustring :=
  str ++ repeat space (Z.to_nat (len - Z.of_nat (length str))).

(** [str.padStart(len)] *)
Definition padStart (str : ustring) (len : Z) : ustring :=
  repeat space (Z.to_nat (len - Z.of_nat (length str))) ++ str.

(** The decimal digits of a natural number [n], most significant first;
    [fuel] bounds their number. *)
Fixpoint decimalDigits (fuel : nat) (n : Z) : ustring :=
  match fuel with
  | O => []
  | S fuel' =>
      (if n <? 10 then [] else decimalDigits fuel' (n / 10))
      ++ [(48 + Z.to_N (n mod 10))%N]
  end.

(** [String(n)] for an integer [n] (of magnitude below 10^21, from where
    on the runtime switches to exponent notation).  A number has no more
    decimal than binary digits. *)
Definition numberToString (n : Z) : ustring :=
  if n <? 0 then 45%N :: decimalDigits (S (Z.to_nat (Z.log2 (- n)))) (- n)
  else decimalDigits (S (Z.to_nat (Z.log2 n))) n.

(** [formatDate]: day of the month and month name of the local midnight
    of an ISO calendar date; other strings are outside the model. *)
Definition formatDate (dateStr : string) : option ustring :=
  match JS.parseIsoDate dateStr with
  | Some (_, m, d) =>
      match nth_error months (Z.to_nat (m - 1)) with
      | Some name => Some (numberToString d ++ space :: units name)
      | None => None
      end
  | None => None
  end.

(** What the engine and the locale fix: the longest string the engine
    builds, and [n.toLocaleString()]. *)
Record Host := {
  kMaxLength : Z;
  toLocaleString : Z -> ustring
}.

(** [formatNumber] *)
Definition formatNumber (host : Host) (n : Z) : ustring := toLocaleString host n.

(** An exception that nothing catches. *)
Inductive Raised := RangeError | UncaughtTypeError.

(** [c.repeat(count)] for an integer [count]: a RangeError when the count
    is negative or the result too long for the engine. *)
Definition repeatChar (host : Host) (c : N) (count : Z) : Raised + ustring :=
  if count <? 0 then inl RangeError
  else if kMaxLength host <? count then inl RangeError
  else inr (repeat c (Z.to_nat count)).

(** The integer a Number converts to where a count is expected
    (ToIntegerOrInfinity): NaN counts as 0, an infinity has none. *)
Definition toInteger (x : spec_float) : option Z :=
  match x with
  | S754_nan | S754_zero _ => Some 0
  | S754_infinity _ => None
  | S754_finite s m e =>
      Some (cond_Zopp s (if 0 <=? e then Zpos m * 2 ^ e else Zpos m / 2 ^ (- e)))
  end.

(** [c.repeat(x)] for a Number [x]. *)
Definition repeatCharNum (host : Host) (c : N) (x : spec_float) : Raised + ustring :=
  match toInteger x with
  | Some count => repeatChar host c count
  | None => inl RangeError
  end.

(** Chalk styles the program uses. *)
Inductive Chalk :=
| unstyled
| boldWhite
| dimmed
| white
| rgb (r g b : Z)
| bgRgb (r g b : Z).

(** A printed line: styled pieces of text next to each other. *)
Definition Line := list (Chalk * ustring).

(** The characters of a line without their styling. *)
Definition lineText (line : Line) : ustring := flat_map snd line.

(** ** Printing *)

(** The run of a piece of the program that prints: the lines written to
    standard output so far and how it ended. [Outside] is a run that left
    the model (a date that is not an ISO calendar date). *)
Inductive Result (A : Type) :=
| Ok (a : A) (out : list Line)
| Failed (e : Raised) (out : list Line)
| Outside.
Arguments Ok {A} a out.
Arguments Failed {A} e out.
Arguments Outside {A}.

Definition Printing (A : Type) : Type := list Line -> Result A.

Definition pret {A} (a : A) : Printing A := fun out => Ok a out.

Definition pbind {A B} (m : Printing A) (k : A -> Printing B) : Printing B :=
  fun out =>
    match m out with
    | Ok a out' => k a out'
    | Failed e out' => Failed e out'
    | Outside => Outside
    end.

Definition console_log (line : Line) : Printing unit := fun out => Ok tt (out ++ [line]).

Definition raise {A} (e : Raised) : Printing A := fun out => Failed e out.

Definition outside {A} : Printing A := fun _ => Outside.

Definition orRaise {A} (r : Raised + A) : Printing A :=
  match r with
  | inl e => raise e
  | inr a => pret a
  end.

Definition inModel {A} (o : option A) : Printing A :=
  match o with
  | Some a => pret a
  | None => outside
  end.

(** [for (const x of xs) body(x)] *)
Fixpoint forEach {A} (xs : list A) (body : A -> Printing unit) : Printing unit :=
  match xs with
  | [] => pret tt
  | x :: rest => pbind (body x) (fun _ => forEach rest body)
  end.

Declare Scope print_scope.
Delimit Scope print_scope with print.
Notation "x <- m ;; k" := (pbind m (fun x => k))
  (at level 61, m at next level, right associativity) : print_scope.
Notation "m ;;; k" := (pbind m (fun _ => k))
  (at level 61, right associativity) : print_scope.

Local Open Scope print_scope.

(** *** Render header *)

Definition title : ustring := units "  GitHub Contributions".

Definition renderHeader (host : Host) (login : ustring) (totalContributions : Z)
    (width : Z) : Printing unit :=
  let user := login in
  let gap := Z.max 1 (width - Z.of_nat (length title) - Z.of_nat (length user)) in
  spaces <- orRaise (repeatChar host space gap) ;;
  console_log [(boldWhite, title); (unstyled, spaces); (dimmed, user)] ;;;
  rule <- orRaise (repeatChar host ruleChar (width - 2)) ;;
  console_log [(dimmed, units "  " ++ rule)] ;;;
  console_log [(white, units "  " ++ formatNumber host totalContributions
                        ++ units " contributions in the last year")] ;;;
  console_log [].

(** *** Render stats grid *)

(** [allDays.find(d => d.date === today)?.contributionCount ?? 0] *)
Definition todayCountOf (today : string) (allDays : list ContributionDay) : Z :=
  match find (fun d => String.eqb (date d) today) allDays with
  | Some todayData => contributionCount todayData
  | None => 0
  end.

(** [allDays.slice(-7).reduce((sum, d) => sum + d.contributionCount, 0)] *)
Definition weekCountOf (allDays : list ContributionDay) : Z :=
  fold_left (fun sum d => sum + contributionCount d) (JS.slice_from (-7) allDays) 0.

(** [allDays.reduce((max, d) => d.contributionCount > max.contributionCount
    ? d : max, allDays[0])]: [undefined] on an empty array. *)
Definition bestOf (allDays : list ContributionDay) : option ContributionDay :=
  match allDays with
  | [] => None
  | first :: _ =>
      Some (fold_left (fun max d =>
                         if contributionCount max <? contributionCount d then d else max)
                      allDays first)
  end.

Definition col1Width : Z := 24.
Definition col2Width : Z := 24.

(** One row of the grid: label and value on the left, and on the right
    when there is a label there. *)
Definition statsRow (host : Host) (width : Z)
    (left right : ustring * ustring) : Printing unit :=
  let gap := Z.max 2 (width - col1Width - 6 - col2Width - 10 - 2) in
  spaces <- orRaise (repeatChar host space gap) ;;
  console_log
    ([(dimmed, fst left); (white, snd left); (unstyled, spaces)]
     ++ match fst right with
        | [] => []
        | _ => [(dimmed, fst right); (white, snd right)]
        end).

Definition renderStats (host : Host) (clock : Clock) (days : list ContributionDay)
    (width : Z) : Printing unit :=
  let allDays := sortedOldestFirst days in
  let today := todayString clock in
  let todayCount := todayCountOf today allDays in
  let weekCount := weekCountOf allDays in
  let currentStreak := calculateStreak clock allDays in
  let longestStreak := calculateLongestStreak allDays in
  best <- match bestOf allDays with
          | Some best => pret best
          | None => raise UncaughtTypeError
          end ;;
  bestDate <- inModel (formatDate (date best)) ;;
  let leftCol :=
    [ (pad (units "  Today") col1Width, padStart (numberToString todayCount) 6);
      (pad (units "  This week") col1Width, padStart (numberToString weekCount) 6);
      (pad (units "  Best day") col1Width,
       padStart (numberToString (contributionCount best)
                 ++ units " (" ++ bestDate ++ units ")") 16) ] in
  let rightCol :=
    [ (pad (units "Current streak") col2Width,
       padStart (numberToString (Z.of_nat currentStreak) ++ units " days") 10);
      (pad (units "Longest streak") col2Width,
       padStart (numberToString (Z.of_nat longestStreak) ++ units " days") 10);
      ([], []) ] in
  forEach (combine leftCol rightCol)
          (fun row => statsRow host width (fst row) (snd row)) ;;;
  rule <- orRaise (repeatChar host ruleChar (width - 2)) ;;
  console_log [(dimmed, units "  " ++ rule)].

(** *** Render bar chart *)

Definition BAR_COLOUR : Chalk := rgb 38 166 65.

(** One line of the chart. *)
Definition barLine (host : Host) (row : BarRow) : Printing unit :=
  formatted <- inModel (formatDate (date (barDay row))) ;;
  let label := pad formatted labelWidth in
  bar <- orRaise (repeatCharNum host blockChar (barLen row)) ;;
  let count := padStart (numberToString (contributionCount (barDay row))) 4 in
  console_log [(dimmed, units "  " ++ label); (BAR_COLOUR, bar);
               (white, space :: count)].

(** [renderBarChart], with what it prints. *)
Definition printBarChart (host : Host) (days : list ContributionDay) (width : Z)
    : Printing unit :=
  console_log [(boldWhite, units "  Last 14 Days")] ;;;
  console_log [] ;;;
  forEach (renderBarChart days width) (barLine host) ;;;
  rule <- orRaise (repeatChar host ruleChar (width - 2)) ;;
  console_log [(dimmed, units "  " ++ rule)].

(** *** Render heatmap *)

Definition HEATMAP_COLOURS : list Chalk :=
  [bgRgb 22 27 34; bgRgb 14 68 41; bgRgb 0 109 50; bgRgb 38 166 65; bgRgb 57 211 83].

Definition dayLabels : list string :=
  ["Sun"; "Mon"; "Tue"; "Wed"; "Thu"; "Fri"; "Sat"]%string.

(** One cell: [cellWidth] spaces, on the colour of its level when the week
    has the day. *)
Definition heatmapCell (cellWidth : nat) (cell : option nat) : Printing (Chalk * ustring) :=
  match cell with
  | Some level =>
      match nth_error HEATMAP_COLOURS level with
      | Some colour => pret (colour, repeat space cellWidth)
      | None => raise UncaughtTypeError
      end
  | None => pret (unstyled, repeat space cellWidth)
  end.

(** The cells of a row, left to right. *)
Fixpoint heatmapCells (cellWidth : nat) (cells : list (option nat)) : Printing Line :=
  match cells with
  | [] => pret []
  | cell :: rest =>
      first <- heatmapCell cellWidth cell ;;
      others <- heatmapCells cellWidth rest ;;
      pret (first :: others)
  end.

(** One day row: indent, day label, cells. *)
Definition dayRowLine (heatmap : Heatmap) (quartiles : list (option Z)) (dayIdx : nat)
    : Printing unit :=
  label <- match nth_error dayLabels dayIdx with
           | Some label => pret (units label)
           | None => raise UncaughtTypeError
           end ;;
  cells <- heatmapCells (cellWidth heatmap)
             (dayRow quartiles (displayWeeks heatmap) dayIdx) ;;
  console_log ((unstyled, repeat space (Z.to_nat indent) ++ pad label dayLabelWidth)
               :: cells).

Definition legendLine : Line :=
  (unstyled, repeat space (Z.to_nat (indent + dayLabelWidth)))
  :: (dimmed, units "Less ")
  :: flat_map (fun ic : nat * Chalk =>
                 (snd ic, units "  ")
                 :: (if (fst ic <? length HEATMAP_COLOURS - 1)%nat
                     then [(unstyled, [space])] else []))
              (combine (seq 0 (length HEATMAP_COLOURS)) HEATMAP_COLOURS)
  ++ [(dimmed, units " More")].

(** [renderHeatmap], with what it prints. *)
Definition printHeatmap (calendar : CalendarData) (width : Z) : Printing unit :=
  let heatmap := renderHeatmap calendar width in
  let quartiles := computeQuartiles (getAllDays calendar) in
  console_log [(boldWhite, units "  Contribution Graph")] ;;;
  console_log [] ;;;
  row <- inModel (monthRow heatmap) ;;
  console_log [(dimmed, units row)] ;;;
  forEach (rowIndices heatmap) (dayRowLine heatmap quartiles) ;;;
  console_log [] ;;;
  console_log legendLine.

(** *** Main *)

(** [Math.min(process.stdout.columns ?? 80, 100)] *)
Definition widthOf (columns : option Z) : Z :=
  Z.min (match columns with Some c => c | None => 80 end) 100.

(** The integer a JSON number holds, if it holds one. *)
Definition integerOf (x : spec_float) : option Z :=
  match x with
  | S754_zero _ => Some 0
  | S754_finite s m e =>
      if 0 <=? e then Some (cond_Zopp s (Zpos m * 2 ^ e))
      else if Zpos m mod 2 ^ (- e) =? 0 then Some (cond_Zopp s (Zpos m / 2 ^ (- e)))
      else None
  | _ => None
  end.

Fixpoint traverse {A B} (f : A -> option B) (l : list A) : option (list B) :=
  match l with
  | [] => Some []
  | x :: rest =>
      match f x, traverse f rest with
      | Some y, Some ys => Some (y :: ys)
      | _, _ => None
      end
  end.

(** The typed view of a document of the shape the query asks for. *)
Definition dayOf (j : Json) : option ContributionDay :=
  match j with
  | JObject fields =>
      match lookupField "date" fields, lookupField "contributionCount" fields with
      | Some (JString d), Some (JNumber x) =>
          option_map (fun c => {| date := d; contributionCount := c |}) (integerOf x)
      | _, _ => None
      end
  | _ => None
  end.

Definition weekOf (j : Json) : option ContributionWeek :=
  match j with
  | JObject fields =>
      match lookupField "contributionDays" fields with
      | Some (JArray items) =>
          option_map (fun ds => {| contributionDays := ds |}) (traverse dayOf items)
      | _ => None
      end
  | _ => None
  end.

Definition calendarOf (v : Value) : option CalendarData :=
  match v with
  | Some (JObject fields) =>
      match lookupField "totalContributions" fields, lookupField "weeks" fields with
      | Some (JNumber x), Some (JArray items) =>
          match integerOf x, traverse weekOf items with
          | Some total, Some ws => Some {| totalContributions := total; weeks := ws |}
          | _, _ => None
          end
      | _, _ => None
      end
  | _ => None
  end.

Definition loginOf (v : Value) : option ustring :=
  match v with
  | Some (JString s) => Some (units s)
  | _ => None
  end.

(** How a run of the program ends. *)
Inductive Ending :=
| Returned
| ExitedWith (code : Z)
| Uncaught (e : Raised)
| LeftModel.

Record MainRun := {
  ending : Ending;
  stdout : list Line;
  process : Process
}.

(** What [main] prints once the data is there. *)
Definition dashboard (host : Host) (clock : Clock) (login : ustring)
    (data : CalendarData) (width : Z) : Printing unit :=
  let allDays := getAllDays data in
  console_log [] ;;;
  renderHeader host login (totalContributions data) width ;;;
  renderStats host clock allDays width ;;;
  console_log [] ;;;
  printBarChart host allDays width ;;;
  console_log [] ;;;
  printHeatmap data width ;;;
  console_log [].

Definition main (host : Host) (rt : Runtime) (clock : Clock) (columns : option Z)
    (p : Process) : MainRun :=
  let width := widthOf columns in
  match fetchContributions rt p with
  | (Normal data, p') =>
      match loginOf (login data), calendarOf (calendar data) with
      | Some user, Some cal =>
          match dashboard host clock user cal width [] with
          | Ok _ out => {| ending := Returned; stdout := out; process := p' |}
          | Failed e out => {| ending := Uncaught e; stdout := out; process := p' |}
          | Outside => {| ending := LeftModel; stdout := []; process := p' |}
          end
      | _, _ => {| ending := LeftModel; stdout := []; process := p' |}
      end
  | (Exit code, p') => {| ending := ExitedWith code; stdout := []; process := p' |}
  | (Throw _, p') => {| ending := LeftModel; stdout := []; process := p' |}
  end.

Local Close Scope print_scope.

(** The line a row of the stats grid prints. *)
Definition statsLine (width : Z) (left right : ustring * ustring) : Line :=
  [(dimmed, fst left); (white, snd left);
   (unstyled, repeat space (Z.to_nat (Z.max 2 (width - 66))))]
  ++ match fst right with
     | [] => []
     | _ => [(dimmed, fst right); (white, snd right)]
     end.
(** ** The runtime's sort *)

Section SortFacts.
Context {A : Type} (cmp : A -> A -> Z).

Lemma insert_by_perm (x : A) (l : list A) :
  Permutation (JS.insert_by cmp x l) (x :: l).
Proof.
  induction l as [|y l IH]; simpl; [reflexivity|].
  destruct (0 <? cmp x y); [|reflexivity].
  rewrite IH. apply perm_swap.
Qed.

Lemma sort_perm (l : list A) : Permutation (JS.sort cmp l) l.
Proof.
  induction l as [|x l IH]; simpl; [constructor|].
  unfold JS.sort in *. rewrite insert_by_perm. now constructor.
Qed.

Lemma sort_length (l : list A) : length (JS.sort cmp l) = length l.
Proof. apply Permutation_length, sort_perm. Qed.

Lemma sort_nil_inv (l : list A) : JS.sort cmp l = [] -> l = [].
Proof.
  intros H. apply Permutation_nil. rewrite <- H. apply sort_perm.
Qed.

(** An element greater than everything in the array ends up last. *)
Lemma insert_by_behind (x : A) (l : list A) :
  Forall (fun y => 0 < cmp x y) l -> JS.insert_by cmp x l = l ++ [x].
Proof.
  induction 1 as [|y l Hy _ IH]; simpl; [reflexivity|].
  apply Z.ltb_lt in Hy. now rewrite Hy, IH.
Qed.

Section Ordered.
Variable le : A -> A -> Prop.
Hypothesis le_of_not_gt : forall x y, cmp x y <= 0 -> le x y.
Hypothesis le_of_gt : forall x y, 0 < cmp x y -> le y x.
Hypothesis le_trans : forall x y z, le x y -> le y z -> le x z.

Lemma insert_by_sorted (x : A) (l : list A) :
  StronglySorted le l -> StronglySorted le (JS.insert_by cmp x l).
Proof.
  induction 1 as [|y l Hs IH Hy]; simpl.
  - repeat constructor.
  - destruct (0 <? cmp x y) eqn:E.
    + apply Z.ltb_lt in E. constructor; [exact IH|].
      rewrite (insert_by_perm x l). constructor; auto.
    + apply Z.ltb_ge in E. constructor; [now constructor|].
      constructor; [auto|].
      eapply Forall_impl; [|exact Hy]. intros z Hz. eauto.
Qed.

Lemma sort_sorted (l : list A) : StronglySorted le (JS.sort cmp l).
Proof.
  induction l as [|x l IH]; simpl; [constructor|].
  now apply insert_by_sorted.
Qed.

End Ordered.
End SortFacts.

(** ** Dates *)

Lemma localeCompare_pos (a b : string) :
  0 < JS.localeCompare a b <-> String.compare a b = Gt.
Proof. unfold JS.localeCompare. destruct (String.compare a b); split; (lia || discriminate || reflexivity). Qed.

Lemma localeCompare_not_pos (a b : string) :
  JS.localeCompare a b <= 0 <-> dateLe a b.
Proof.
  unfold JS.localeCompare, dateLe.
  destruct (String.compare a b); split; intros; (lia || congruence).
Qed.

Lemma compare_Gt_Lt (a b : string) :
  String.compare a b = Gt <-> String.compare b a = Lt.
Proof.
  rewrite (String.compare_antisym a b).
  destruct (String.compare b a); simpl; split; (discriminate || reflexivity).
Qed.

Lemma dateLt_trans (a b c : string) : dateLt a b -> dateLt b c -> dateLt a c.
Proof.
  unfold dateLt. intros H1 H2.
  apply String_as_OT.cmp_lt in H1. apply String_as_OT.cmp_lt in H2.
  apply String_as_OT.cmp_lt. eapply String_as_OT.lt_trans; eauto.
Qed.

Lemma dateLe_cases (a b : string) : dateLe a b <-> dateLt a b \/ a = b.
Proof.
  unfold dateLe, dateLt. split.
  - destruct (String.compare a b) eqn:E; intros H.
    + right. now apply String.compare_eq_iff.
    + now left.
    + congruence.
  - intros [H | ->]; [congruence|].
    assert (String.compare b b = Eq) as -> by now apply String_as_OT.cmp_eq.
    discriminate.
Qed.

Lemma dateLe_trans (a b c : string) : dateLe a b -> dateLe b c -> dateLe a c.
Proof.
  rewrite !dateLe_cases. intros [H1 | ->] [H2 | ->]; auto.
  left. eapply dateLt_trans; eauto.
Qed.

Lemma dateLe_total (a b : string) : ~ dateLe a b -> dateLe b a.
Proof.
  unfold dateLe. intros H. destruct (String.compare a b) eqn:E.
  - exfalso. apply H. discriminate.
  - exfalso. apply H. discriminate.
  - apply compare_Gt_Lt in E. congruence.
Qed.

Lemma sortedRecentFirst_perm (days : list ContributionDay) :
  Permutation (sortedRecentFirst days) days.
Proof. apply sort_perm. Qed.

Lemma sortedRecentFirst_sorted (days : list ContributionDay) :
  StronglySorted (fun a b => dateLe (date b) (date a)) (sortedRecentFirst days).
Proof.
  apply sort_sorted.
  - intros x y H. now apply localeCompare_not_pos.
  - intros x y H. apply dateLe_total. intros C.
    apply localeCompare_not_pos in C. lia.
  - intros x y z H1 H2. eapply dateLe_trans; eauto.
Qed.

Lemma sortedOldestFirst_perm (days : list ContributionDay) :
  Permutation (sortedOldestFirst days) days.
Proof. apply sort_perm. Qed.

Lemma sortedOldestFirst_sorted (days : list ContributionDay) :
  StronglySorted (fun a b => dateLe (date a) (date b)) (sortedOldestFirst days).
Proof.
  apply sort_sorted.
  - intros x y H. now apply localeCompare_not_pos.
  - intros x y H. apply dateLe_total. intros C.
    apply localeCompare_not_pos in C. lia.
  - intros x y z H1 H2. eapply dateLe_trans; eauto.
Qed.

(** ** Streaks *)

Lemma skipn_nth_error_cons {A} (l : list A) (i : nat) (d : A) :
  nth_error l i = Some d -> skipn i l = d :: skipn (S i) l.
Proof.
  revert i. induction l as [|x l IH]; intros [|i] H; simpl in *; try discriminate.
  - now inversion H.
  - now apply IH.
Qed.

(** With enough fuel the loop counts the leading run of what is left of
    the array from index [i] on. *)
Lemma streakLoop_leadingRun (sorted : list ContributionDay) (fuel i streak : nat) :
  (length sorted - i <= fuel)%nat ->
  streakLoop sorted fuel i streak = (streak + leadingRun (skipn i sorted))%nat.
Proof.
  revert i streak. induction fuel as [|fuel IH]; intros i streak Hf; simpl.
  - rewrite skipn_all2 by lia. simpl. lia.
  - destruct (nth_error sorted i) as [d|] eqn:E.
    + rewrite (skipn_nth_error_cons _ _ _ E). cbn [leadingRun].
      assert (i < length sorted)%nat by (apply nth_error_Some; congruence).
      destruct (0 <? contributionCount d); [|lia].
      rewrite IH by lia. lia.
    + apply nth_error_None in E. rewrite skipn_all2 by lia. simpl. lia.
Qed.

Lemma calculateStreak_spec (clock : Clock) (days : list ContributionDay) :
  calculateStreak clock days = streakSpec (todayString clock) days.
Proof.
  unfold calculateStreak, streakSpec, countedDays.
  rewrite streakLoop_leadingRun by lia. cbv zeta.
  destruct (skipsToday (todayString clock) (sortedRecentFirst days)); [|reflexivity].
  now destruct (sortedRecentFirst days).
Qed.

Lemma leadingRun_le_length (l : list ContributionDay) :
  (leadingRun l <= length l)%nat.
Proof.
  induction l as [|d l IH]; simpl; [lia|].
  destruct (0 <? contributionCount d); lia.
Qed.

Lemma leadingRun_positive (l : list ContributionDay) (i : nat) (d : ContributionDay) :
  (i < leadingRun l)%nat -> nth_error l i = Some d -> 0 < contributionCount d.
Proof.
  revert i. induction l as [|x l IH]; intros i Hi Hd; simpl in *; [lia|].
  destruct (0 <? contributionCount x) eqn:E; [|lia].
  destruct i as [|i]; simpl in Hd.
  - inversion Hd; subst. now apply Z.ltb_lt.
  - apply (IH i); [lia|exact Hd].
Qed.

Lemma leadingRun_stops (l : list ContributionDay) (d : ContributionDay) :
  nth_error l (leadingRun l) = Some d -> contributionCount d <= 0.
Proof.
  induction l as [|x l IH]; simpl; [discriminate|].
  destruct (0 <? contributionCount x) eqn:E; simpl.
  - exact IH.
  - intros H. inversion H; subst. now apply Z.ltb_ge.
Qed.

Lemma leadingRun_Run (l : list ContributionDay) : Run l 0 (leadingRun l).
Proof.
  intros j Hj.
  pose proof (leadingRun_le_length l).
  destruct (nth_error l j) as [d|] eqn:E.
  - exists d. split; [reflexivity|]. eapply leadingRun_positive; eauto. lia.
  - apply nth_error_None in E. lia.
Qed.

Lemma skipsToday_iff (today : string) (sorted : list ContributionDay) :
  skipsToday today sorted = true <->
  exists d rest, sorted = d :: rest /\ date d = today /\ contributionCount d = 0.
Proof.
  unfold skipsToday. destruct sorted as [|d rest]; simpl.
  - split; [discriminate|]. intros (d & rest & H & _). discriminate.
  - rewrite andb_true_iff, String.eqb_eq, Z.eqb_eq. split.
    + intros [H1 H2]. now exists d, rest.
    + intros (d' & rest' & H & H1 & H2). now inversion H; subst.
Qed.

(** *** Runs of positive days *)

Lemma Run_bound (l : list ContributionDay) (i n : nat) :
  Run l i n -> (0 < n)%nat -> (i + n <= length l)%nat.
Proof.
  intros H Hn. destruct (H (i + n - 1)%nat) as (d & Hd & _); [lia|].
  assert (i + n - 1 < length l)%nat by (apply nth_error_Some; congruence). lia.
Qed.

Lemma Run_app_l (p q : list ContributionDay) (i n : nat) :
  Run p i n -> Run (p ++ q) i n.
Proof.
  intros H j Hj. destruct (H j Hj) as (d & Hd & Hp). exists d. split; [|exact Hp].
  rewrite nth_error_app1; [exact Hd|]. apply nth_error_Some. congruence.
Qed.

Lemma Run_app_inv (p q : list ContributionDay) (i n : nat) :
  Run (p ++ q) i n -> (i + n <= length p)%nat -> Run p i n.
Proof.
  intros H Hb j Hj. destruct (H j Hj) as (d & Hd & Hp). exists d. split; [|exact Hp].
  rewrite nth_error_app1 in Hd by lia. exact Hd.
Qed.

Lemma Run_shrink (l : list ContributionDay) (i n i' n' : nat) :
  Run l i n -> (i <= i')%nat -> (i' + n' <= i + n)%nat -> Run l i' n'.
Proof. intros H H1 H2 j Hj. apply H. lia. Qed.

Lemma Run_tl (l : list ContributionDay) (i n : nat) :
  Run (tl l) i n -> Run l (S i) n.
Proof.
  intros H j Hj. destruct j as [|j]; [lia|].
  destruct (H j) as (d & Hd & Hp); [lia|]. exists d. split; [|exact Hp].
  destruct l; [now rewrite nth_error_nil in Hd|exact Hd].
Qed.

Lemma Run_rev (l : list ContributionDay) (i n : nat) :
  Run (rev l) i n -> Run l (length l - i - n) n.
Proof.
  intros H. destruct n as [|n]; [intros j Hj; lia|].
  pose proof (Run_bound _ _ _ H ltac:(lia)) as Hb. rewrite length_rev in Hb.
  intros j Hj. destruct (H (length l - S j)%nat) as (d & Hd & Hp); [lia|].
  exists d. split; [|exact Hp].
  rewrite nth_error_rev in Hd.
  destruct (Nat.ltb_spec (length l - S j) (length l)); [|discriminate].
  rewrite <- Hd. f_equal. lia.
Qed.

Lemma LongestInv_nil : LongestInv [] (0%nat, 0%nat).
Proof.
  unfold LongestInv. refine (conj _ (conj _ (conj _ (conj _ _)))).
  - simpl. lia.
  - intros j Hj. lia.
  - intros i n H Hn. simpl in Hn. lia.
  - exists 0%nat. intros j Hj. lia.
  - intros i n H. destruct n; [lia|].
    apply Run_bound in H; simpl in *; lia.
Qed.

Lemma LongestInv_step (p : list ContributionDay) (st : nat * nat) (d : ContributionDay) :
  LongestInv p st -> LongestInv (p ++ [d]) (longestStep st d).
Proof.
  destruct st as [L C]. unfold LongestInv at 1. intros (H1 & H2 & H3 & (i0 & H4) & H5).
  pose proof (H5 _ _ H2) as HCL.
  unfold longestStep. destruct (0 <? contributionCount d) eqn:E.
  - apply Z.ltb_lt in E.
    assert (Hrun : Run (p ++ [d]) (length p - C) (S C)).
    { intros j Hj. destruct (Nat.eq_dec j (length p)) as [->|Hne].
      - exists d. split; [|exact E].
        rewrite nth_error_app2 by lia. now rewrite Nat.sub_diag.
      - apply (Run_app_l p [d] _ _ H2). lia. }
    assert (Hend : forall i n, Run (p ++ [d]) i n ->
                     (i + n = length (p ++ [d]))%nat -> (n <= S C)%nat).
    { intros i n Hr Hn. rewrite length_app in Hn. simpl in Hn.
      destruct n as [|n]; [lia|].
      assert (n <= C)%nat; [|lia].
      apply (H3 i); [|lia].
      apply Run_app_inv with (q := [d]); [|lia].
      eapply Run_shrink; eauto; lia. }
    assert (Hall : forall i n, Run (p ++ [d]) i n ->
                     (n <= (if (L <? S C)%nat then S C else L))%nat).
    { intros i n Hr.
      assert (n <= L \/ n <= S C)%nat as Hor.
      { destruct n as [|n]; [lia|].
        pose proof (Run_bound _ _ _ Hr ltac:(lia)) as Hb.
        rewrite length_app in Hb. simpl in Hb.
        destruct (Nat.eq_dec (i + S n) (length p + 1)) as [Heq|Hne].
        - right. apply (Hend i); [exact Hr|]. rewrite length_app. simpl. lia.
        - left. apply (H5 i). apply Run_app_inv with (q := [d]); [exact Hr|lia]. }
      destruct (Nat.ltb_spec L (S C)); lia. }
    unfold LongestInv. rewrite length_app. simpl length.
    refine (conj _ (conj _ (conj _ (conj _ _)))).
    + lia.
    + replace (length p + 1 - S C)%nat with (length p - C)%nat by lia. exact Hrun.
    + intros i n Hr Hn. apply (Hend i); [exact Hr|]. rewrite length_app. simpl. lia.
    + destruct (Nat.ltb_spec L (S C)).
      * exists (length p - C)%nat. exact Hrun.
      * exists i0. now apply Run_app_l.
    + exact Hall.
  - apply Z.ltb_ge in E.
    assert (Hin : forall i n, Run (p ++ [d]) i n -> (0 < n)%nat ->
                    (i + n <= length p)%nat).
    { intros i n Hr Hn.
      pose proof (Run_bound _ _ _ Hr Hn) as Hb.
      rewrite length_app in Hb. simpl in Hb.
      destruct (Nat.eq_dec (i + n) (length p + 1)) as [Heq|Hne]; [|lia].
      destruct (Hr (length p)) as (d' & Hd' & Hp'); [lia|].
      rewrite nth_error_app2 in Hd' by lia. rewrite Nat.sub_diag in Hd'.
      simpl in Hd'. inversion Hd'; subst. lia. }
    unfold LongestInv. rewrite length_app. simpl length.
    refine (conj _ (conj _ (conj _ (conj _ _)))).
    + lia.
    + intros j Hj. lia.
    + intros i n Hr Hn. destruct n as [|n]; [lia|].
      pose proof (Hin _ _ Hr ltac:(lia)). lia.
    + exists i0. now apply Run_app_l.
    + intros i n Hr. destruct n as [|n]; [lia|].
      apply (H5 i). apply Run_app_inv with (q := [d]); [exact Hr|].
      apply Hin; [exact Hr|lia].
Qed.

Lemma LongestInv_fold (days : list ContributionDay) :
  LongestInv days (fold_left longestStep days (0%nat, 0%nat)).
Proof.
  induction days as [|d days IH] using rev_ind.
  - exact LongestInv_nil.
  - rewrite fold_left_app. simpl. now apply LongestInv_step.
Qed.

Lemma longest_attained (days : list ContributionDay) :
  exists i, Run days i (calculateLongestStreak days).
Proof.
  unfold calculateLongestStreak. pose proof (LongestInv_fold days) as H.
  destruct (fold_left longestStep days (0%nat, 0%nat)) as [L C].
  simpl. destruct H as (_ & _ & _ & H & _). exact H.
Qed.

Lemma longest_bounds_runs (days : list ContributionDay) (i n : nat) :
  Run days i n -> (n <= calculateLongestStreak days)%nat.
Proof.
  unfold calculateLongestStreak. pose proof (LongestInv_fold days) as H.
  destruct (fold_left longestStep days (0%nat, 0%nat)) as [L C].
  simpl. destruct H as (_ & _ & _ & _ & H). apply H.
Qed.

Lemma countedDays_cases (today : string) (days : list ContributionDay) :
  (exists d, sortedRecentFirst days = d :: countedDays today days
             /\ date d = today /\ contributionCount d = 0)
  \/ (countedDays today days = sortedRecentFirst days
      /\ forall d, hd_error (sortedRecentFirst days) = Some d ->
           date d <> today \/ contributionCount d <> 0).
Proof.
  unfold countedDays.
  destruct (skipsToday today (sortedRecentFirst days)) eqn:E.
  - left. apply skipsToday_iff in E. destruct E as (d & rest & -> & H1 & H2).
    now exists d.
  - right. split; [reflexivity|]. intros d Hd.
    destruct (sortedRecentFirst days) as [|x rest]; [discriminate|].
    simpl in Hd. inversion Hd; subst x.
    unfold skipsToday in E. simpl in E. apply andb_false_iff in E.
    destruct E as [E | E].
    + left. now apply String.eqb_neq.
    + right. now apply Z.eqb_neq.
Qed.

(** C1 (as amended): [calculateStreak] walks the days from the most recent
    one backwards (a permutation of the days in descending date order),
    leaves out the first of them when it carries the date of today in UTC,
    the first ten characters of [new Date().toISOString()], and has no
    contribution, and returns the number of days with a positive count
    before the first day without one. *)
Theorem calculateStreak_counts_back_from_most_recent :
  forall (clock : Clock) (days : list ContributionDay),
    let today := String.substring 0 10 (JS.toISOString (now_ms clock)) in
    let sorted := sortedRecentFirst days in
    let counted := countedDays today days in
    let streak := calculateStreak clock days in
    (Permutation sorted days
     /\ StronglySorted (fun a b => dateLe (date b) (date a)) sorted)
    /\ ((exists d, sorted = d :: counted /\ date d = today /\ contributionCount d = 0)
        \/ (counted = sorted
            /\ forall d, hd_error sorted = Some d ->
                 date d <> today \/ contributionCount d <> 0))
    /\ (streak <= length counted)%nat
    /\ (forall i d, (i < streak)%nat -> nth_error counted i = Some d ->
          0 < contributionCount d)
    /\ (forall d, nth_error counted streak = Some d -> contributionCount d <= 0).
Proof.
  intros clock days today sorted counted streak.
  assert (Hs : streak = leadingRun counted) by apply calculateStreak_spec.
  split; [split|split; [|split; [|split]]].
  - apply sortedRecentFirst_perm.
  - apply sortedRecentFirst_sorted.
  - apply countedDays_cases.
  - rewrite Hs. apply leadingRun_le_length.
  - rewrite Hs. apply leadingRun_positive.
  - rewrite Hs. apply leadingRun_stops.
Qed.

(** C1 as stated fails: at 08:00 on 2 March 2024 in a zone ten hours ahead
    of UTC the local date is 2024-03-02 while the code's today is
    2024-03-01, so the most recent day, today with no contribution yet, is
    not skipped and the streak of the day before is lost. *)
Lemma calculateStreak_local_today_counterexample :
  let clock := {| now_ms := 1709330400000; tz_offset_min := 600 |} in
  let days := [{| date := "2024-03-01"; contributionCount := 5 |};
               {| date := "2024-03-02"; contributionCount := 0 |}] in
  localDateString clock = "2024-03-02"%string
  /\ streakSpec (localDateString clock) days = 1%nat
  /\ calculateStreak clock days = 0%nat
  /\ calculateStreak clock days <> streakSpec (localDateString clock) days.
Proof.
  cbv zeta. repeat split; try (vm_compute; reflexivity).
  vm_compute. discriminate.
Qed.

(** C2: [calculateLongestStreak] returns the length of a run of
    consecutive days with a positive count that occurs in the list, and no
    run in the list is longer. *)
Theorem calculateLongestStreak_is_max_run :
  forall days : list ContributionDay,
    (exists i, Run days i (calculateLongestStreak days))
    /\ (forall i n, Run days i n -> (n <= calculateLongestStreak days)%nat).
Proof.
  intros days. split.
  - apply longest_attained.
  - apply longest_bounds_runs.
Qed.

Lemma leadingRun_all_zero (l : list ContributionDay) :
  Forall (fun d => contributionCount d = 0) l -> leadingRun l = 0%nat.
Proof.
  destruct 1 as [|d l Hd _]; simpl; [reflexivity|]. now rewrite Hd.
Qed.

Lemma Forall_tl {A} (P : A -> Prop) (l : list A) : Forall P l -> Forall P (tl l).
Proof. destruct 1; simpl; auto. Qed.

Lemma countedDays_Forall (P : ContributionDay -> Prop) (today : string)
    (days : list ContributionDay) :
  Forall P days -> Forall P (countedDays today days).
Proof.
  intros H. assert (Hs : Forall P (sortedRecentFirst days)).
  { eapply Permutation_Forall; [|exact H]. symmetry. apply sortedRecentFirst_perm. }
  unfold countedDays. destruct (skipsToday _ _); [now apply Forall_tl|exact Hs].
Qed.

(** C5: on a calendar whose days all have no contribution both streaks
    are 0, whatever the clock says. *)
Theorem all_zero_calendar_has_no_streak :
  forall (clock : Clock) (days : list ContributionDay),
    Forall (fun d => contributionCount d = 0) days ->
    calculateStreak clock days = 0%nat /\ calculateLongestStreak days = 0%nat.
Proof.
  intros clock days H. split.
  - rewrite calculateStreak_spec. unfold streakSpec.
    apply leadingRun_all_zero. now apply countedDays_Forall.
  - destruct (longest_attained days) as (i & Hr).
    destruct (calculateLongestStreak days) as [|n]; [reflexivity|].
    destruct (Hr i) as (d & Hd & Hp); [lia|].
    apply nth_error_In in Hd. rewrite Forall_forall in H.
    specialize (H d Hd). lia.
Qed.

Lemma all_zero_calendar_witness :
  let clock := {| now_ms := 1709330400000; tz_offset_min := 0 |} in
  let days := [{| date := "2024-02-29"; contributionCount := 0 |};
               {| date := "2024-03-01"; contributionCount := 0 |}] in
  Forall (fun d => contributionCount d = 0) days
  /\ calculateStreak clock days = 0%nat /\ calculateLongestStreak days = 0%nat.
Proof.
  cbv zeta.
  assert (H : Forall (fun d => contributionCount d = 0)
                [{| date := "2024-02-29"; contributionCount := 0 |};
                 {| date := "2024-03-01"; contributionCount := 0 |}])
    by (repeat constructor).
  split; [exact H|].
  exact (all_zero_calendar_has_no_streak _ _ H).
Defined.

(** *** Ascending calendars *)

Lemma ascending_distinct_strict (days : list ContributionDay) :
  StronglySorted (fun a b => dateLe (date a) (date b)) days ->
  NoDup (map date days) ->
  StronglySorted (fun a b => dateLt (date a) (date b)) days.
Proof.
  induction 1 as [|a l Hs IH Ha]; intros Hn; [constructor|].
  simpl in Hn. inversion Hn as [|? ? Hnotin Hn']; subst.
  constructor; [now apply IH|].
  rewrite Forall_forall in *. intros b Hb.
  destruct (proj1 (dateLe_cases _ _) (Ha b Hb)) as [Hlt | Heq]; [exact Hlt|].
  exfalso. apply Hnotin. rewrite Heq. now apply in_map.
Qed.

Lemma sortedRecentFirst_of_ascending (days : list ContributionDay) :
  StronglySorted (fun a b => dateLt (date a) (date b)) days ->
  sortedRecentFirst days = rev days.
Proof.
  induction 1 as [|a l Hs IH Ha]; [reflexivity|].
  unfold sortedRecentFirst, JS.sort in *. simpl. rewrite IH.
  apply insert_by_behind. apply Forall_rev.
  eapply Forall_impl; [|exact Ha]. intros b Hb. cbv beta.
  apply localeCompare_pos. now apply compare_Gt_Lt.
Qed.

(** C10: on days in ascending date order with pairwise distinct dates the
    longest streak is at least the current streak. *)
Theorem longest_streak_at_least_current :
  forall (clock : Clock) (days : list ContributionDay),
    StronglySorted (fun a b => dateLe (date a) (date b)) days ->
    NoDup (map date days) ->
    (calculateStreak clock days <= calculateLongestStreak days)%nat.
Proof.
  intros clock days Hsorted Hnodup.
  pose proof (sortedRecentFirst_of_ascending days
                (ascending_distinct_strict days Hsorted Hnodup)) as Hrev.
  rewrite calculateStreak_spec. unfold streakSpec.
  pose proof (leadingRun_Run (countedDays (todayString clock) days)) as Hr.
  set (r := leadingRun _) in *.
  assert (exists i, Run (rev days) i r) as (i & Hrun).
  { rewrite <- Hrev. unfold countedDays in Hr.
    destruct (skipsToday _ _).
    - exists 1%nat. now apply Run_tl.
    - now exists 0%nat. }
  apply Run_rev in Hrun. eapply longest_bounds_runs; eauto.
Qed.

Lemma longest_streak_at_least_current_witness :
  let clock := {| now_ms := 1709330400000; tz_offset_min := 0 |} in
  let days := [{| date := "2024-02-27"; contributionCount := 2 |};
               {| date := "2024-02-28"; contributionCount := 0 |};
               {| date := "2024-02-29"; contributionCount := 4 |};
               {| date := "2024-03-01"; contributionCount := 0 |}] in
  StronglySorted (fun a b => dateLe (date a) (date b)) days
  /\ NoDup (map date days)
  /\ (calculateStreak clock days <= calculateLongestStreak days)%nat.
Proof.
  cbv zeta.
  match goal with |- ?S /\ ?N /\ _ =>
    assert (Hs : S) by (repeat constructor; discriminate);
    assert (Hn : N) by
      (repeat constructor; simpl; intuition discriminate)
  end.
  split; [exact Hs|]. split; [exact Hn|].
  exact (longest_streak_at_least_current _ _ Hs Hn).
Defined.

(** ** Quartiles and heatmap levels *)

Lemma sorted_perm_unique (l1 l2 : list Z) :
  StronglySorted Z.le l1 -> StronglySorted Z.le l2 -> Permutation l1 l2 -> l1 = l2.
Proof.
  intros H1. revert l2. induction H1 as [|a l1 Hs1 IH Ha]; intros l2 H2 Hp.
  - apply Permutation_nil in Hp. now subst.
  - destruct H2 as [|b l2 Hs2 Hb].
    + symmetry in Hp. apply Permutation_nil in Hp. discriminate.
    + assert (a = b) as ->.
      { assert (In a (b :: l2)) as Hin1
          by (eapply Permutation_in; [exact Hp|now left]).
        assert (In b (a :: l1)) as Hin2
          by (eapply Permutation_in; [symmetry; exact Hp|now left]).
        rewrite Forall_forall in Ha, Hb.
        destruct Hin1 as [->|Hin1]; [reflexivity|].
        destruct Hin2 as [->|Hin2]; [reflexivity|].
        specialize (Ha _ Hin2). specialize (Hb _ Hin1). lia. }
      f_equal. apply IH; [exact Hs2|]. eapply Permutation_cons_inv; eauto.
Qed.

Lemma nonZeroCounts_perm (days : list ContributionDay) :
  Permutation (nonZeroCounts days)
    (filter (fun c => 0 <? c) (map contributionCount days)).
Proof. apply sort_perm. Qed.

Lemma nonZeroCounts_sorted (days : list ContributionDay) :
  StronglySorted Z.le (nonZeroCounts days).
Proof. apply sort_sorted; intros; lia. Qed.

(** On counts that are not negative, the counts the code keeps ([c > 0])
    are the nonzero ones. *)
Lemma positive_counts_are_nonzero (days : list ContributionDay) :
  Forall (fun d => 0 <= contributionCount d) days ->
  filter (fun c => 0 <? c) (map contributionCount days)
  = filter (fun c => negb (c =? 0)) (map contributionCount days).
Proof.
  intros H. apply filter_ext_in. intros c Hc.
  apply in_map_iff in Hc. destruct Hc as (d & <- & Hd).
  rewrite Forall_forall in H. specialize (H d Hd).
  destruct (Z.ltb_spec 0 (contributionCount d));
    destruct (Z.eqb_spec (contributionCount d) 0); simpl; (reflexivity || lia).
Qed.

Lemma quartileIndex_lt (n k : nat) :
  (0 < n)%nat -> (k <= 3)%nat -> (quartileIndex n k < n)%nat.
Proof.
  intros Hn Hk. unfold quartileIndex.
  apply Nat.Div0.div_lt_upper_bound. nia.
Qed.

(** C3: on counts that are not negative, [computeQuartiles] returns the
    values at positions floor(n/4), floor(n/2) and floor(3n/4) of the
    ascending sorted sequence [s] of the [n] nonzero counts, and
    [1, 2, 3, 4] when there is no nonzero count. *)
Theorem computeQuartiles_floor_indexed :
  forall (days : list ContributionDay) (s : list Z),
    Forall (fun d => 0 <= contributionCount d) days ->
    Permutation s (filter (fun c => negb (c =? 0)) (map contributionCount days)) ->
    Sorted Z.le s ->
    (s = [] -> computeQuartiles days = [Some 1; Some 2; Some 3; Some 4])
    /\ (s <> [] ->
        exists q1 q2 q3,
          nth_error s (length s / 4) = Some q1
          /\ nth_error s (length s / 2) = Some q2
          /\ nth_error s (3 * length s / 4) = Some q3
          /\ computeQuartiles days = [Some q1; Some q2; Some q3]).
Proof.
  intros days s Hwf Hperm Hsorted.
  assert (s = nonZeroCounts days) as ->.
  { apply sorted_perm_unique.
    - apply Sorted_StronglySorted; [|exact Hsorted]. intros x y z; lia.
    - apply nonZeroCounts_sorted.
    - rewrite Hperm, <- positive_counts_are_nonzero by exact Hwf.
      symmetry. apply nonZeroCounts_perm. }
  unfold computeQuartiles. split.
  - intros ->. reflexivity.
  - intros Hne. destruct (nonZeroCounts days) as [|c l] eqn:E; [congruence|].
    set (nz := c :: l) in *.
    assert (Hn : (0 < length nz)%nat) by (simpl; lia).
    assert (H1 : quartileIndex (length nz) 1 = (length nz / 4)%nat)
      by (unfold quartileIndex; now rewrite Nat.mul_1_r).
    assert (H2 : quartileIndex (length nz) 2 = (length nz / 2)%nat)
      by (unfold quartileIndex; change 4%nat with (2 * 2)%nat;
          now rewrite Nat.Div0.div_mul_cancel_r).
    assert (H3 : quartileIndex (length nz) 3 = (3 * length nz / 4)%nat)
      by (unfold quartileIndex; now rewrite Nat.mul_comm).
    pose proof (quartileIndex_lt (length nz) 1 Hn ltac:(lia)) as L1.
    pose proof (quartileIndex_lt (length nz) 2 Hn ltac:(lia)) as L2.
    pose proof (quartileIndex_lt (length nz) 3 Hn ltac:(lia)) as L3.
    rewrite H1 in *. rewrite H2 in *. rewrite H3 in *.
    apply nth_error_Some in L1, L2, L3.
    destruct (nth_error nz (length nz / 4)) as [q1|]; [|congruence].
    destruct (nth_error nz (length nz / 2)) as [q2|]; [|congruence].
    destruct (nth_error nz (3 * length nz / 4)) as [q3|]; [|congruence].
    now exists q1, q2, q3.
Qed.

Lemma computeQuartiles_floor_indexed_witness :
  let days := [{| date := "2024-02-26"; contributionCount := 7 |};
               {| date := "2024-02-27"; contributionCount := 0 |};
               {| date := "2024-02-28"; contributionCount := 1 |};
               {| date := "2024-02-29"; contributionCount := 3 |};
               {| date := "2024-03-01"; contributionCount := 2 |};
               {| date := "2024-03-02"; contributionCount := 1 |}] in
  let s := [1; 1; 2; 3; 7] in
  Forall (fun d => 0 <= contributionCount d) days
  /\ Permutation s (filter (fun c => negb (c =? 0)) (map contributionCount days))
  /\ Sorted Z.le s
  /\ computeQuartiles days = [Some 1; Some 2; Some 3].
Proof.
  cbv zeta.
  match goal with |- ?W /\ ?P /\ ?S /\ _ =>
    assert (Hw : W) by (repeat constructor; simpl; lia);
    assert (Hp : P);
    [ simpl;
      apply (Permutation_cons_app [7] [3; 2; 1]);
      apply (Permutation_cons_app [7; 3; 2] []);
      apply (Permutation_cons_app [7; 3] []);
      apply (Permutation_cons_app [7] []);
      reflexivity
    | assert (Hs : S) by (repeat constructor; lia) ]
  end.
  split; [exact Hw|]. split; [exact Hp|]. split; [exact Hs|].
  destruct (computeQuartiles_floor_indexed _ _ Hw Hp Hs) as [_ H].
  destruct (H ltac:(discriminate)) as (q1 & q2 & q3 & E1 & E2 & E3 & E).
  simpl in E1, E2, E3. inversion E1. inversion E2. inversion E3. subst. exact E.
Defined.

Lemma leb_undef_down (c1 c2 : Z) (q : option Z) :
  c1 <= c2 -> JS.leb_undef c2 q = true -> JS.leb_undef c1 q = true.
Proof.
  destruct q as [q|]; simpl; [|discriminate].
  rewrite !Z.leb_le. lia.
Qed.

Lemma getHeatmapLevel_range (count : Z) (quartiles : list (option Z)) :
  (getHeatmapLevel count quartiles <= 4)%nat
  /\ (getHeatmapLevel count quartiles = 0%nat <-> count = 0).
Proof.
  unfold getHeatmapLevel.
  destruct (Z.eqb_spec count 0) as [->|Hne].
  - split; [lia|tauto].
  - repeat match goal with
           | |- context [if ?b then _ else _] => destruct b
           end; (split; [lia|split; [discriminate|contradiction]]).
Qed.

Lemma getHeatmapLevel_mono (c1 c2 : Z) (quartiles : list (option Z)) :
  0 <= c1 -> c1 <= c2 ->
  (getHeatmapLevel c1 quartiles <= getHeatmapLevel c2 quartiles)%nat.
Proof.
  intros H0 Hle. unfold getHeatmapLevel.
  destruct (Z.eqb_spec c1 0) as [->|Hne1]; [lia|].
  destruct (Z.eqb_spec c2 0) as [->|Hne2]; [lia|].
  pose proof (leb_undef_down c1 c2 (JS.get quartiles 0) Hle) as D0.
  pose proof (leb_undef_down c1 c2 (JS.get quartiles 1) Hle) as D1.
  pose proof (leb_undef_down c1 c2 (JS.get quartiles 2) Hle) as D2.
  destruct (JS.leb_undef c2 (JS.get quartiles 0)); [rewrite D0 by reflexivity; lia|].
  destruct (JS.leb_undef c2 (JS.get quartiles 1));
    [rewrite D1 by reflexivity; destruct (JS.leb_undef c1 _); lia|].
  destruct (JS.leb_undef c2 (JS.get quartiles 2));
    [rewrite D2 by reflexivity;
     destruct (JS.leb_undef c1 (JS.get quartiles 0));
     destruct (JS.leb_undef c1 (JS.get quartiles 1)); lia|].
  destruct (JS.leb_undef c1 (JS.get quartiles 0));
    destruct (JS.leb_undef c1 (JS.get quartiles 1));
    destruct (JS.leb_undef c1 (JS.get quartiles 2)); lia.
Qed.

(** C4: against the quartiles of any list of days, the heatmap level does
    not decrease when the count, a number that is not negative, grows; the
    level is 0 exactly for the count 0 and lies between 1 and 4 for every
    other count. *)
Theorem heatmap_level_monotone :
  forall (days : list ContributionDay) (c1 c2 : Z),
    0 <= c1 -> c1 <= c2 ->
    let quartiles := computeQuartiles days in
    (getHeatmapLevel c1 quartiles <= getHeatmapLevel c2 quartiles)%nat
    /\ (forall c,
          (getHeatmapLevel c quartiles = 0%nat <-> c = 0)
          /\ (c <> 0 -> (1 <= getHeatmapLevel c quartiles <= 4)%nat)).
Proof.
  intros days c1 c2 H0 Hle quartiles. split.
  - now apply getHeatmapLevel_mono.
  - intros c. destruct (getHeatmapLevel_range c quartiles) as [Hmax Hzero].
    split; [exact Hzero|]. intros Hc.
    destruct (getHeatmapLevel c quartiles) eqn:E; [|lia].
    exfalso. apply Hc. now apply Hzero.
Qed.

Lemma heatmap_level_monotone_witness :
  let days := [{| date := "2024-02-28"; contributionCount := 1 |};
               {| date := "2024-02-29"; contributionCount := 4 |};
               {| date := "2024-03-01"; contributionCount := 9 |}] in
  0 <= 2 /\ 2 <= 9
  /\ (getHeatmapLevel 2 (computeQuartiles days)
      <= getHeatmapLevel 9 (computeQuartiles days))%nat.
Proof.
  cbv zeta.
  assert (H0 : 0 <= 2) by lia. assert (Hle : 2 <= 9) by lia.
  split; [exact H0|]. split; [exact Hle|].
  exact (proj1 (heatmap_level_monotone _ 2 9 H0 Hle)).
Defined.

(** ** Bar chart *)

Lemma slice_from_neg {A} (k : nat) (l : list A) :
  (0 < k)%nat -> JS.slice_from (- Z.of_nat k) l = skipn (length l - k) l.
Proof.
  intros Hk. unfold JS.slice_from.
  destruct (Z.ltb_spec (- Z.of_nat k) 0); [|lia].
  f_equal. lia.
Qed.

Lemma last14_suffix (days : list ContributionDay) :
  sortedOldestFirst days
  = firstn (length days - 14) (sortedOldestFirst days) ++ last14 days.
Proof.
  unfold last14. rewrite (slice_from_neg 14) by lia.
  unfold sortedOldestFirst at 3. rewrite sort_length.
  now rewrite firstn_skipn.
Qed.

Lemma last14_length (days : list ContributionDay) :
  length (last14 days) = Nat.min 14 (length days).
Proof.
  unfold last14. rewrite (slice_from_neg 14) by lia.
  rewrite length_skipn. unfold sortedOldestFirst. rewrite sort_length. lia.
Qed.

Lemma maxCountOf_spec (l : list ContributionDay) :
  1 <= maxCountOf l
  /\ Forall (fun d => contributionCount d <= maxCountOf l) l
  /\ (maxCountOf l = 1 \/ Exists (fun d => contributionCount d = maxCountOf l) l).
Proof.
  unfold maxCountOf. induction l as [|d l (IH1 & IH2 & IH3)]; simpl.
  - repeat split; auto; lia.
  - split; [lia|]. split.
    + constructor; [lia|]. eapply Forall_impl; [|exact IH2]. cbv beta. intros; lia.
    + destruct (Z.max_spec (contributionCount d)
                  (fold_right Z.max 1 (map contributionCount l))) as [[Hlt ->]|[Hge ->]].
      * destruct IH3 as [IH3|IH3]; [now left|right; now apply Exists_cons_tl].
      * right. now apply Exists_cons_hd.
Qed.

(** C6 (as amended): the chart has one row for each of the last (at most
    14) days in date order, and the bar length of a row is
    [Math.round((count / max) * maxWidth)] in binary64, where [count] is
    the count of the row's day, [max] the larger of 1 and the highest count
    among the days shown, and [maxWidth] the larger of 20 and the width
    minus 18. *)
Theorem bar_length_proportional :
  forall (days : list ContributionDay) (width : Z),
    exists (older : list ContributionDay) (max : Z),
      (Permutation (older ++ last14 days) days
       /\ StronglySorted (fun a b => dateLe (date a) (date b)) (older ++ last14 days)
       /\ length (last14 days) = Nat.min 14 (length days))
      /\ (1 <= max
          /\ Forall (fun d => contributionCount d <= max) (last14 days)
          /\ (max = 1 \/ Exists (fun d => contributionCount d = max) (last14 days)))
      /\ map barDay (renderBarChart days width) = last14 days
      /\ Forall (fun row =>
                   barLen row
                   = Num.Math_round
                       (Num.mul
                          (Num.div (Num.ofZ (contributionCount (barDay row)))
                                   (Num.ofZ max))
                          (Num.ofZ (Z.max 20 (width - 18)))))
                (renderBarChart days width).
Proof.
  intros days width.
  exists (firstn (length days - 14) (sortedOldestFirst days)), (maxCountOf (last14 days)).
  rewrite <- last14_suffix. split; [|split; [|split]].
  - split; [apply sortedOldestFirst_perm|].
    split; [apply sortedOldestFirst_sorted|apply last14_length].
  - apply maxCountOf_spec.
  - unfold renderBarChart. rewrite map_map. simpl. apply map_id.
  - unfold renderBarChart. apply Forall_map. apply Forall_forall.
    intros d _. simpl. unfold barLenOf, barMaxWidthOf, labelWidth, countWidth.
    do 3 f_equal. lia.
Qed.

(** C6 as stated fails when none of the last 14 days has a contribution:
    the highest count among them is 0, [0 / 0] is NaN and so is its
    rounding, while the code divides by 1 and draws a bar of length 0. *)
Lemma bar_length_counterexample :
  let days := [{| date := "2024-03-01"; contributionCount := 0 |}] in
  let width := 80 in
  let max := 0 in
  last14 days = days
  /\ Forall (fun d => contributionCount d <= max) (last14 days)
  /\ Exists (fun d => contributionCount d = max) (last14 days)
  /\ map barLen (renderBarChart days width) = [S754_zero false]
  /\ map (fun d => Num.Math_round
                     (Num.mul (Num.div (Num.ofZ (contributionCount d)) (Num.ofZ max))
                              (Num.ofZ (barMaxWidthOf width))))
         (last14 days) = [S754_nan]
  /\ map barLen (renderBarChart days width)
     <> map (fun d => Num.Math_round
                        (Num.mul (Num.div (Num.ofZ (contributionCount d)) (Num.ofZ max))
                                 (Num.ofZ (barMaxWidthOf width))))
            (last14 days).
Proof.
  cbv zeta. split; [reflexivity|]. split; [|split; [|split; [|split]]].
  - repeat constructor. simpl. lia.
  - now constructor.
  - vm_compute. reflexivity.
  - vm_compute. reflexivity.
  - vm_compute. discriminate.
Qed.

(** ** Data fetching *)

Lemma getProp_cases (v : Value) (name : string) :
  (exists v', HasField v name v' /\ getProp v name = ret v')
  \/ ((v = None \/ v = Some JNull) /\ getProp v name = throw TypeError).
Proof.
  destruct v as [[| b | x | s | items | fields]|]; simpl;
    try (right; split; [auto|reflexivity]);
    left; eexists; (split; [constructor|reflexivity]).
Qed.

Lemma getProp_HasField (v : Value) (name : string) (v' : Value) :
  HasField v name v' -> getProp v name = ret v'.
Proof. destruct 1; reflexivity. Qed.

Lemma HasField_defined (v : Value) (name : string) (v' : Value) :
  HasField v name v' -> v <> None /\ v <> Some JNull.
Proof. destruct 1; split; discriminate. Qed.

Lemma HasField_functional (v : Value) (name : string) (v1 v2 : Value) :
  HasField v name v1 -> HasField v name v2 -> v1 = v2.
Proof. destruct 1; inversion 1; reflexivity. Qed.

Lemma bind_ret {A B} (a : A) (k : A -> M B) (p : Process) :
  bind (ret a) k p = k a p.
Proof. reflexivity. Qed.

Lemma bind_throw {A B} (e : Thrown) (k : A -> M B) (p : Process) :
  bind (throw e) k p = (Throw e, p).
Proof. reflexivity. Qed.

Lemma bind_exec_returns {B} (rt : Runtime) (out : string) (k : string -> M B)
    (p : Process) :
  execSync rt ghCommand fetchTimeout = ExecReturns out ->
  bind (runExecSync rt ghCommand fetchTimeout) k p = k out (afterRun p).
Proof. intros H. unfold bind, runExecSync. now rewrite H. Qed.

Lemma bind_exec_throws {B} (rt : Runtime) (why : ExecFailure) (k : string -> M B)
    (p : Process) :
  execSync rt ghCommand fetchTimeout = ExecThrows why ->
  bind (runExecSync rt ghCommand fetchTimeout) k p
  = (Throw (ExecError why), afterRun p).
Proof. intros H. unfold bind, runExecSync. now rewrite H. Qed.

Lemma bind_parse_ok {B} (rt : Runtime) (out : string) (json : Json)
    (k : Json -> M B) (p : Process) :
  JSON_parse rt out = Some json -> bind (runJsonParse rt out) k p = k json p.
Proof. intros H. unfold runJsonParse. now rewrite H. Qed.

Lemma bind_parse_fails {B} (rt : Runtime) (out : string) (k : Json -> M B)
    (p : Process) :
  JSON_parse rt out = None ->
  bind (runJsonParse rt out) k p = (Throw SyntaxError, p).
Proof. intros H. unfold runJsonParse. now rewrite H. Qed.

Lemma bind_getProp {B} (v : Value) (name : string) (v' : Value)
    (k : Value -> M B) (p : Process) :
  HasField v name v' -> bind (getProp v name) k p = k v' p.
Proof. intros H. now rewrite (getProp_HasField _ _ _ H). Qed.

Lemma bind_getProp_throws {B} (v : Value) (name : string)
    (k : Value -> M B) (p : Process) :
  v = None \/ v = Some JNull ->
  bind (getProp v name) k p = (Throw TypeError, p).
Proof. intros [-> | ->]; reflexivity. Qed.

(** The catch block: two lines on standard error, then exit code 1. *)
Lemma catch_block (p : Process) : fetchCatch (afterRun p) = (Exit 1, afterFailure p).
Proof.
  unfold fetchCatch, bind, console_error, process_exit, afterRun, afterFailure,
    failureLines.
  cbn [stderrLines executed]. now rewrite <- app_assoc.
Qed.

Lemma tryCatch_throw {A} (body handler : M A) (p p' : Process) (e : Thrown) :
  body p = (Throw e, p') -> tryCatch body handler p = handler p'.
Proof. intros H. unfold tryCatch. now rewrite H. Qed.

Lemma tryCatch_normal {A} (body handler : M A) (p p' : Process) (a : A) :
  body p = (Normal a, p') -> tryCatch body handler p = (Normal a, p').
Proof. intros H. unfold tryCatch. now rewrite H. Qed.

Lemma fetch_exec_throws (rt : Runtime) (p : Process) (why : ExecFailure) :
  execSync rt ghCommand fetchTimeout = ExecThrows why ->
  fetchContributions rt p = (Exit 1, afterFailure p).
Proof.
  intros H. unfold fetchContributions.
  rewrite (tryCatch_throw _ _ p (afterRun p) (ExecError why)).
  - apply catch_block.
  - unfold fetchTry. now apply bind_exec_throws.
Qed.

Lemma fetch_parse_fails (rt : Runtime) (p : Process) (out : string) :
  execSync rt ghCommand fetchTimeout = ExecReturns out ->
  JSON_parse rt out = None ->
  fetchContributions rt p = (Exit 1, afterFailure p).
Proof.
  intros H1 H2. unfold fetchContributions.
  rewrite (tryCatch_throw _ _ p (afterRun p) SyntaxError).
  - apply catch_block.
  - unfold fetchTry. rewrite (bind_exec_returns _ _ _ _ H1).
    now apply bind_parse_fails.
Qed.

Lemma fetch_succeeds (rt : Runtime) (p : Process) (d : GitHubData) :
  FetchedFrom rt d -> fetchContributions rt p = (Normal d, afterRun p).
Proof.
  intros (out & json & data & viewer & collection & H1 & H2 & F1 & F2 & F3 & F4 & F5).
  unfold fetchContributions. apply tryCatch_normal. unfold fetchTry.
  rewrite (bind_exec_returns _ _ _ _ H1), (bind_parse_ok _ _ _ _ _ H2).
  rewrite (bind_getProp _ _ _ _ _ F1), (bind_getProp _ _ _ _ _ F2).
  rewrite (bind_getProp _ _ _ _ _ F3), (bind_getProp _ _ _ _ _ F4).
  rewrite (bind_getProp _ _ _ _ _ F5).
  destruct d. reflexivity.
Qed.

(** A document with a hole on the way to the calendar: the read throws a
    TypeError and the catch block runs. *)
Lemma fetch_path_broken (rt : Runtime) (p : Process) (out : string) (json : Json) :
  execSync rt ghCommand fetchTimeout = ExecReturns out ->
  JSON_parse rt out = Some json ->
  ~ (exists d, FetchedFrom rt d) ->
  fetchContributions rt p = (Exit 1, afterFailure p).
Proof.
  intros H1 H2 Hno. unfold fetchContributions.
  rewrite (tryCatch_throw _ _ p (afterRun p) TypeError); [apply catch_block|].
  unfold fetchTry.
  rewrite (bind_exec_returns _ _ _ _ H1), (bind_parse_ok _ _ _ _ _ H2).
  destruct (getProp_cases (Some json) "data") as [(data & F1 & _)|[N1 _]];
    [rewrite (bind_getProp _ _ _ _ _ F1)|now apply bind_getProp_throws].
  destruct (getProp_cases data "viewer") as [(viewer & F2 & _)|[N2 _]];
    [rewrite (bind_getProp _ _ _ _ _ F2)|now apply bind_getProp_throws].
  destruct (getProp_cases viewer "login") as [(lg & F3 & _)|[N3 _]];
    [rewrite (bind_getProp _ _ _ _ _ F3)|now apply bind_getProp_throws].
  destruct (getProp_cases viewer "contributionsCollection")
    as [(collection & F4 & _)|[N4 _]];
    [rewrite (bind_getProp _ _ _ _ _ F4)|now apply bind_getProp_throws].
  destruct (getProp_cases collection "contributionCalendar")
    as [(cal & F5 & _)|[N5 _]]; [|now apply bind_getProp_throws].
  exfalso. apply Hno. exists {| login := lg; calendar := cal |}.
  exists out, json, data, viewer, collection. cbn [login calendar].
  repeat (split; [assumption|]). assumption.
Qed.

Lemma fetch_path_broken_witness :
  let rt := {| execSync := fun _ _ => ExecReturns "{}";
               JSON_parse := fun _ => Some (JObject []) |} in
  let p := {| stderrLines := []; executed := [] |} in
  fetchContributions rt p = (Exit 1, afterFailure p).
Proof.
  cbv zeta. apply (fetch_path_broken _ _ "{}" (JObject [])); [reflexivity|reflexivity|].
  intros (d & out & json & data & viewer & collection & H1 & H2 & F1 & F2 & _).
  cbn in H2. inversion H2; subst json.
  inversion F1; subst. cbn in F2. inversion F2.
Defined.

Lemma lookupField_present (name : string) (fields : list (string * Json)) (v : Json) :
  NoDup (map fst fields) -> In (name, v) fields -> lookupField name fields = Some v.
Proof.
  induction fields as [|[k x] fields IH]; intros Hnd Hin; [destruct Hin|].
  simpl in *. inversion Hnd as [|? ? Hk Hrest]; subst.
  destruct (String.eqb_spec k name) as [->|Hne].
  - destruct Hin as [Heq|Hin]; [now inversion Heq|].
    exfalso. apply Hk. apply in_map_iff. now exists (name, v).
  - destruct Hin as [Heq|Hin]; [inversion Heq; congruence|]. now apply IH.
Qed.

Lemma lookupField_absent (name : string) (fields : list (string * Json)) :
  ~ In name (map fst fields) -> lookupField name fields = None.
Proof.
  induction fields as [|[k x] fields IH]; intros Hno; [reflexivity|].
  simpl in *. destruct (String.eqb_spec k name) as [->|Hne]; [tauto|].
  apply IH. tauto.
Qed.

Lemma HasField_OwnProperty (fields : list (string * Json)) (name : string) (v : Json) :
  OwnProperty fields name v -> HasField (Some (JObject fields)) name (Some v).
Proof.
  intros [Hnd Hin]. rewrite <- (lookupField_present name fields v Hnd Hin).
  constructor.
Qed.

(** C7: [fetchContributions] runs the command once, with the ten second
    timeout.  When the command fails (binary missing, non-zero exit status
    such as an authentication failure, timeout) or its output is not JSON,
    it prints the two diagnostic lines on standard error and exits with
    code 1, and so it does in every case in which it does not return;
    when the login and the calendar can be read from the document it
    prints nothing and returns them: for a document that has a login and
    a calendar at [data.viewer.login] and
    [data.viewer.contributionsCollection.contributionCalendar], these two
    values; and a document without [data] is a failure like the others. *)
Theorem fetchContributions_outcomes :
  forall (rt : Runtime) (p : Process),
    (forall why,
        execSync rt ghCommand fetchTimeout = ExecThrows why ->
        fetchContributions rt p = (Exit 1, afterFailure p))
    /\ (forall out,
          execSync rt ghCommand fetchTimeout = ExecReturns out ->
          JSON_parse rt out = None ->
          fetchContributions rt p = (Exit 1, afterFailure p))
    /\ (forall d,
          FetchedFrom rt d -> fetchContributions rt p = (Normal d, afterRun p))
    /\ (forall out top data viewer collection lg cal,
          execSync rt ghCommand fetchTimeout = ExecReturns out ->
          JSON_parse rt out = Some (JObject top) ->
          OwnProperty top "data" (JObject data) ->
          OwnProperty data "viewer" (JObject viewer) ->
          OwnProperty viewer "login" lg ->
          OwnProperty viewer "contributionsCollection" (JObject collection) ->
          OwnProperty collection "contributionCalendar" cal ->
          fetchContributions rt p
          = (Normal {| login := Some lg; calendar := Some cal |}, afterRun p))
    /\ (forall out top,
          execSync rt ghCommand fetchTimeout = ExecReturns out ->
          JSON_parse rt out = Some (JObject top) ->
          ~ In "data"%string (map fst top) ->
          fetchContributions rt p = (Exit 1, afterFailure p))
    /\ ((exists d, FetchedFrom rt d)
        \/ fetchContributions rt p = (Exit 1, afterFailure p))
    /\ (length failureLines = 2%nat
        /\ stderrLines (afterFailure p) = stderrLines p ++ failureLines
        /\ stderrLines (afterRun p) = stderrLines p
        /\ executed (snd (fetchContributions rt p))
           = executed p ++ [(ghCommand, fetchTimeout)]).
Proof.
  intros rt p.
  assert (Hor : (exists d, FetchedFrom rt d)
                \/ fetchContributions rt p = (Exit 1, afterFailure p)).
  { destruct (execSync rt ghCommand fetchTimeout) as [why|out] eqn:H1;
      [right; now apply (fetch_exec_throws rt p why)|].
    destruct (JSON_parse rt out) as [json|] eqn:H2;
      [|right; now apply (fetch_parse_fails rt p out)].
    destruct (getProp_cases (Some json) "data") as [(data & F1 & _)|[N1 _]].
    2:{ right. unfold fetchContributions.
        rewrite (tryCatch_throw _ _ p (afterRun p) TypeError); [apply catch_block|].
        unfold fetchTry.
        rewrite (bind_exec_returns _ _ _ _ H1), (bind_parse_ok _ _ _ _ _ H2).
        now apply bind_getProp_throws. }
    destruct (getProp_cases data "viewer") as [(viewer & F2 & _)|[N2 _]].
    2:{ right. unfold fetchContributions.
        rewrite (tryCatch_throw _ _ p (afterRun p) TypeError); [apply catch_block|].
        unfold fetchTry.
        rewrite (bind_exec_returns _ _ _ _ H1), (bind_parse_ok _ _ _ _ _ H2).
        rewrite (bind_getProp _ _ _ _ _ F1).
        now apply bind_getProp_throws. }
    destruct (getProp_cases viewer "login") as [(lg & F3 & _)|[N3 _]].
    2:{ right. unfold fetchContributions.
        rewrite (tryCatch_throw _ _ p (afterRun p) TypeError); [apply catch_block|].
        unfold fetchTry.
        rewrite (bind_exec_returns _ _ _ _ H1), (bind_parse_ok _ _ _ _ _ H2).
        rewrite (bind_getProp _ _ _ _ _ F1), (bind_getProp _ _ _ _ _ F2).
        now apply bind_getProp_throws. }
    destruct (getProp_cases viewer "contributionsCollection")
      as [(collection & F4 & _)|[N4 _]].
    2:{ exfalso. apply HasField_defined in F3. destruct N4; tauto. }
    destruct (getProp_cases collection "contributionCalendar")
      as [(cal & F5 & _)|[N5 _]].
    - left. exists {| login := lg; calendar := cal |}.
      exists out, json, data, viewer, collection. cbn [login calendar].
  repeat (split; [assumption|]). assumption.
    - right. unfold fetchContributions.
      rewrite (tryCatch_throw _ _ p (afterRun p) TypeError); [apply catch_block|].
      unfold fetchTry.
      rewrite (bind_exec_returns _ _ _ _ H1), (bind_parse_ok _ _ _ _ _ H2).
      rewrite (bind_getProp _ _ _ _ _ F1), (bind_getProp _ _ _ _ _ F2).
      rewrite (bind_getProp _ _ _ _ _ F3), (bind_getProp _ _ _ _ _ F4).
      now apply bind_getProp_throws. }
  split; [intros why; apply fetch_exec_throws|].
  split; [intros out; apply fetch_parse_fails|].
  split; [intros d; apply fetch_succeeds|].
  split.
  { intros out top data viewer collection lg cal H1 H2 P1 P2 P3 P4 P5.
    apply fetch_succeeds.
    exists out, (JObject top), (Some (JObject data)), (Some (JObject viewer)),
      (Some (JObject collection)). cbn [login calendar].
    split; [exact H1|]. split; [exact H2|].
    split; [now apply HasField_OwnProperty|].
    split; [now apply HasField_OwnProperty|].
    split; [now apply HasField_OwnProperty|].
    split; now apply HasField_OwnProperty. }
  split.
  { intros out top H1 H2 Hno. unfold fetchContributions.
    rewrite (tryCatch_throw _ _ p (afterRun p) TypeError); [apply catch_block|].
    unfold fetchTry.
    rewrite (bind_exec_returns _ _ _ _ H1), (bind_parse_ok _ _ _ _ _ H2).
    rewrite (bind_getProp _ _ None).
    - apply bind_getProp_throws. now left.
    - rewrite <- (lookupField_absent "data" top Hno). constructor. }
  split; [exact Hor|].
  split; [reflexivity|]. split; [reflexivity|]. split; [reflexivity|].
  destruct Hor as [(d & Hd)|Hf].
  - now rewrite (fetch_succeeds rt p d Hd).
  - now rewrite Hf.
Qed.

Lemma fetchContributions_outcomes_witness :
  let calendarDoc :=
    JObject [("totalContributions"%string, JNumber (S754_zero false));
             ("weeks"%string, JArray [])] in
  let collection := [("contributionCalendar"%string, calendarDoc)] in
  let viewer := [("login"%string, JString "octocat");
                 ("contributionsCollection"%string, JObject collection)] in
  let data := [("viewer"%string, JObject viewer)] in
  let top := [("data"%string, JObject data)] in
  let rt := {| execSync := fun _ _ => ExecReturns "document";
               JSON_parse := fun _ => Some (JObject top) |} in
  let p := {| stderrLines := []; executed := [] |} in
  fetchContributions rt p
  = (Normal {| login := Some (JString "octocat"); calendar := Some calendarDoc |},
     {| stderrLines := []; executed := [(ghCommand, fetchTimeout)] |}).
Proof.
  cbv zeta.
  match goal with
  | |- fetchContributions ?rt ?p = _ =>
      destruct (fetchContributions_outcomes rt p) as (_ & _ & _ & Hdoc & _)
  end.
  refine (Hdoc "document"%string _ _ _ _ _ _ eq_refl eq_refl _ _ _ _ _);
    (split; [repeat constructor; simpl; intuition discriminate
            |simpl; auto]).
Defined.

(** ** Heatmap layout *)

Lemma cellWidthOf_cases (calendar : CalendarData) (width : Z) :
  (Z.of_nat (length (weeks calendar)) * 2 <= availableOf width
   /\ cellWidthOf calendar width = 2%nat
   /\ rowIndicesOf calendar width = [0; 1; 2; 3; 4; 5; 6]%nat)
  \/ (availableOf width < Z.of_nat (length (weeks calendar)) * 2
      /\ cellWidthOf calendar width = 1%nat
      /\ rowIndicesOf calendar width = [1; 3; 5]%nat).
Proof.
  unfold cellWidthOf, rowIndicesOf.
  destruct (Z.leb_spec (Z.of_nat (length (weeks calendar)) * 2) (availableOf width));
    [left|right]; auto.
Qed.

Lemma displayWeeks_suffix (calendar : CalendarData) (width : Z) :
  exists dropped, weeks calendar = dropped ++ displayWeeksOf calendar width.
Proof.
  unfold displayWeeksOf, JS.slice_from.
  eexists. symmetry. apply firstn_skipn.
Qed.

Lemma displayWeeks_length (calendar : CalendarData) (width : Z) :
  0 <= availableOf width ->
  Z.of_nat (length (displayWeeksOf calendar width))
  = Z.min (Z.of_nat (length (weeks calendar)))
          (availableOf width / Z.of_nat (cellWidthOf calendar width)).
Proof.
  intros Ha. unfold displayWeeksOf, JS.slice_from, maxWeeksOf.
  set (n := Z.of_nat (length (weeks calendar))).
  set (q := availableOf width / Z.of_nat (cellWidthOf calendar width)).
  assert (0 <= q).
  { apply Z.div_pos; [exact Ha|].
    destruct (cellWidthOf_cases calendar width) as [(_ & -> & _)|(_ & -> & _)]; lia. }
  assert (0 <= n) by lia.
  destruct (Z.ltb_spec (n - Z.min n q) 0); [lia|].
  rewrite length_skipn. fold n. lia.
Qed.

Lemma displayWeeks_fit (calendar : CalendarData) (width : Z) :
  0 <= availableOf width ->
  Z.of_nat (length (displayWeeksOf calendar width) * cellWidthOf calendar width)
  <= availableOf width.
Proof.
  intros Ha. rewrite Nat2Z.inj_mul, (displayWeeks_length _ _ Ha).
  set (cw := Z.of_nat (cellWidthOf calendar width)).
  assert (0 < cw).
  { subst cw.
    destruct (cellWidthOf_cases calendar width) as [(_ & -> & _)|(_ & -> & _)]; lia. }
  pose proof (Z.mul_div_le (availableOf width) cw ltac:(lia)).
  nia.
Qed.

(** C8 (as amended): the cell width is 2 when the available width (width
    minus indent and day label) is at least twice the number of weeks and
    1 otherwise; all seven day rows are shown exactly when the cell width
    is 2, otherwise Mon, Wed and Fri; the weeks shown are the most recent
    ones; and when the available width is not negative, they are as many
    as fit and their columns do not exceed it. *)
Theorem heatmap_layout_fits :
  forall (calendar : CalendarData) (width : Z),
    let heatmap := renderHeatmap calendar width in
    let available := width - 2 - 6 in
    let n := Z.of_nat (length (weeks calendar)) in
    ((2 * n <= available /\ cellWidth heatmap = 2%nat)
     \/ (available < 2 * n /\ cellWidth heatmap = 1%nat))
    /\ ((cellWidth heatmap = 2%nat /\ rowIndices heatmap = [0; 1; 2; 3; 4; 5; 6]%nat)
        \/ (cellWidth heatmap = 1%nat /\ rowIndices heatmap = [1; 3; 5]%nat))
    /\ (exists dropped, weeks calendar = dropped ++ displayWeeks heatmap)
    /\ (0 <= available ->
        Z.of_nat (length (displayWeeks heatmap))
        = Z.min n (available / Z.of_nat (cellWidth heatmap))
        /\ Z.of_nat (length (displayWeeks heatmap) * cellWidth heatmap) <= available).
Proof.
  intros calendar width heatmap available n. subst heatmap.
  cbn [renderHeatmap cellWidth displayWeeks rowIndices].
  assert (Hav : available = availableOf width) by reflexivity.
  split; [|split; [|split]].
  - destruct (cellWidthOf_cases calendar width) as [(H & E & _)|(H & E & _)];
      [left|right]; (split; [fold n in H; lia|exact E]).
  - destruct (cellWidthOf_cases calendar width) as [(_ & E & R)|(_ & E & R)];
      [left|right]; now split.
  - apply displayWeeks_suffix.
  - intros Ha. rewrite Hav in *. split.
    + now apply displayWeeks_length.
    + now apply displayWeeks_fit.
Qed.

Lemma heatmap_layout_fits_witness :
  let calendar :=
    {| totalContributions := 3;
       weeks := [ {| contributionDays := [{| date := "2024-02-25"; contributionCount := 1 |}] |};
                  {| contributionDays := [{| date := "2024-03-03"; contributionCount := 2 |}] |};
                  {| contributionDays := [{| date := "2024-03-10"; contributionCount := 0 |}] |} ] |} in
  let width := 10 in
  0 <= width - 2 - 6
  /\ cellWidth (renderHeatmap calendar width) = 1%nat
  /\ Z.of_nat (length (displayWeeks (renderHeatmap calendar width))
               * cellWidth (renderHeatmap calendar width))
     <= width - 2 - 6.
Proof.
  cbv zeta. assert (H : 0 <= 10 - 2 - 6) by lia.
  split; [exact H|]. split; [reflexivity|].
  exact (proj2 (proj2 (proj2 (proj2 (heatmap_layout_fits _ 10))) H)).
Defined.

(** C8 as stated fails on a terminal narrower than the indent and the day
    labels: at width 5 the available width is -3, no week is shown, and 0
    columns still exceed it. *)
Lemma heatmap_layout_counterexample :
  let calendar :=
    {| totalContributions := 1;
       weeks := [ {| contributionDays := [{| date := "2024-03-03"; contributionCount := 1 |}] |} ] |} in
  let width := 5 in
  let heatmap := renderHeatmap calendar width in
  width - 2 - 6 = -3
  /\ displayWeeks heatmap = []
  /\ width - 2 - 6 < Z.of_nat (length (displayWeeks heatmap) * cellWidth heatmap).
Proof.
  cbv zeta. split; [reflexivity|]. split; [reflexivity|].
  vm_compute. reflexivity.
Qed.

(** *** Writing labels into the month row *)

Lemma arraySet_length (chars : list (option ascii)) (i : nat) (c : ascii) :
  (i < length chars)%nat -> length (arraySet chars i c) = length chars.
Proof.
  revert i. induction chars as [|x chars IH]; intros [|i] H; simpl in *; try lia.
  rewrite IH; lia.
Qed.

Lemma arraySet_same (chars : list (option ascii)) (i : nat) (c : ascii) :
  (i < length chars)%nat -> nth_error (arraySet chars i c) i = Some (Some c).
Proof.
  revert i. induction chars as [|x chars IH]; intros [|i] H; simpl in *; try lia.
  - reflexivity.
  - apply IH. lia.
Qed.

Lemma arraySet_other (chars : list (option ascii)) (i p : nat) (c : ascii) :
  (i < length chars)%nat -> p <> i ->
  nth_error (arraySet chars i c) p = nth_error chars p.
Proof.
  revert i p. induction chars as [|x chars IH]; intros [|i] [|p] H Hne;
    simpl in *; try lia; try reflexivity.
  apply IH; lia.
Qed.

Lemma writeLabel_length (label : string) (chars : list (option ascii)) (col i : nat) :
  (col + i + String.length label <= length chars)%nat ->
  length (writeLabel chars col i label) = length chars.
Proof.
  revert chars i. induction label as [|c label IH]; intros chars i H; simpl in *.
  - reflexivity.
  - rewrite IH; rewrite arraySet_length; lia.
Qed.

Lemma writeLabel_outside (label : string) (chars : list (option ascii)) (col i p : nat) :
  (col + i + String.length label <= length chars)%nat ->
  (p < col + i \/ col + i + String.length label <= p)%nat ->
  nth_error (writeLabel chars col i label) p = nth_error chars p.
Proof.
  revert chars i. induction label as [|c label IH]; intros chars i H Hp; simpl in *.
  - reflexivity.
  - rewrite IH; [|rewrite arraySet_length; lia|lia].
    apply arraySet_other; lia.
Qed.

Lemma writeLabel_inside (label : string) (chars : list (option ascii))
    (col i j : nat) (c : ascii) :
  (col + i + String.length label <= length chars)%nat ->
  String.get j label = Some c ->
  nth_error (writeLabel chars col i label) (col + i + j) = Some (Some c).
Proof.
  revert chars i j. induction label as [|x label IH]; intros chars i j H Hj;
    simpl in *; [discriminate|].
  destruct j as [|j].
  - inversion Hj; subst x.
    rewrite writeLabel_outside; [|rewrite arraySet_length; lia|lia].
    rewrite Nat.add_0_r. apply arraySet_same. lia.
  - replace (col + i + S j)%nat with (col + S i + j)%nat by lia.
    apply IH; [rewrite arraySet_length; lia|exact Hj].
Qed.

Lemma writeAll_length (placed : list (nat * string)) (chars : list (option ascii)) :
  Forall (fun p => (labelEnd p <= length chars)%nat) placed ->
  length (writeAll placed chars) = length chars.
Proof.
  unfold writeAll. revert chars.
  induction placed as [|p placed IH]; intros chars H; simpl; [reflexivity|].
  inversion H as [|? ? Hp Hrest]; subst.
  assert (L : length (writeLabel chars (fst p) 0 (snd p)) = length chars)
    by (apply writeLabel_length; unfold labelEnd in Hp; lia).
  rewrite IH; [exact L|]. now rewrite L.
Qed.

Lemma writeAll_uncovered (placed : list (nat * string)) (chars : list (option ascii))
    (pos : nat) :
  Forall (fun p => (labelEnd p <= length chars)%nat) placed ->
  ~ Covered placed pos ->
  nth_error (writeAll placed chars) pos = nth_error chars pos.
Proof.
  unfold writeAll. revert chars.
  induction placed as [|p placed IH]; intros chars H Hc; simpl; [reflexivity|].
  inversion H as [|? ? Hp Hrest]; subst. unfold labelEnd in Hp.
  assert (L : length (writeLabel chars (fst p) 0 (snd p)) = length chars)
    by (apply writeLabel_length; lia).
  rewrite IH.
  - apply writeLabel_outside; [lia|].
    destruct (Nat.lt_ge_cases pos (fst p)) as [|Hge]; [lia|].
    destruct (Nat.lt_ge_cases pos (labelEnd p)) as [Hlt|]; [|unfold labelEnd in *; lia].
    exfalso. apply Hc. exists p. split; [now left|lia].
  - now rewrite L.
  - intros (q & Hq & Hpos). apply Hc. exists q. split; [now right|exact Hpos].
Qed.

Lemma get_Some_lt (s : string) (i : nat) (c : ascii) :
  String.get i s = Some c -> (i < String.length s)%nat.
Proof.
  revert i. induction s as [|x s IH]; intros i H; simpl in *; [discriminate|].
  destruct i as [|i]; [lia|]. apply IH in H. lia.
Qed.

Lemma writeAll_shows (placed : list (nat * string)) (chars : list (option ascii))
    (p : nat * string) :
  Forall (fun p => (labelEnd p <= length chars)%nat) placed ->
  StronglySorted (fun p q => (labelEnd p < fst q)%nat) placed ->
  In p placed -> ShowsLabel (writeAll placed chars) p.
Proof.
  revert chars. induction placed as [|q placed IH]; intros chars H Hs Hin;
    [contradiction|].
  inversion H as [|? ? Hq Hrest]; subst. unfold labelEnd in Hq.
  inversion Hs as [|? ? Hs' Hsep]; subst.
  assert (L : length (writeLabel chars (fst q) 0 (snd q)) = length chars)
    by (apply writeLabel_length; lia).
  change (writeAll (q :: placed) chars)
    with (writeAll placed (writeLabel chars (fst q) 0 (snd q))).
  destruct Hin as [->|Hin].
  - intros i c Hi. pose proof (get_Some_lt _ _ _ Hi) as Hlt.
    rewrite writeAll_uncovered.
    + replace (fst p + i)%nat with (fst p + 0 + i)%nat by lia.
      apply writeLabel_inside; [lia|exact Hi].
    + now rewrite L.
    + intros (r & Hr & Hpos). rewrite Forall_forall in Hsep.
      specialize (Hsep r Hr). unfold labelEnd in *. lia.
  - apply IH; [now rewrite L|exact Hs'|exact Hin].
Qed.

(** *** Which labels are placed *)

Lemma placedLabels_In (candidates : list (nat * string)) (n : nat) (lastEnd : Z)
    (p : nat * string) :
  In p (placedLabels candidates n lastEnd) ->
  In p candidates /\ lastEnd < Z.of_nat (fst p) /\ (labelEnd p <= n)%nat.
Proof.
  revert lastEnd. induction candidates as [|q rest IH]; intros lastEnd H;
    simpl in *; [contradiction|].
  destruct (Z.ltb_spec lastEnd (Z.of_nat (fst q))) as [Hlt|Hge]; simpl in H.
  - destruct (Nat.leb_spec (labelEnd q) n) as [Hfit|Hnofit].
    + destruct H as [->|H]; [auto|].
      apply IH in H. destruct H as (H1 & H2 & H3).
      unfold labelEnd in *. repeat split; auto; lia.
    + apply IH in H. tauto.
  - apply IH in H. tauto.
Qed.

Lemma placedLabels_separated (candidates : list (nat * string)) (n : nat) (lastEnd : Z) :
  StronglySorted (fun p q => (labelEnd p < fst q)%nat)
    (placedLabels candidates n lastEnd).
Proof.
  revert lastEnd. induction candidates as [|q rest IH]; intros lastEnd; simpl;
    [constructor|].
  destruct ((lastEnd <? Z.of_nat (fst q)) && (labelEnd q <=? n)%nat); [|apply IH].
  constructor; [apply IH|].
  apply Forall_forall. intros r Hr. apply placedLabels_In in Hr. lia.
Qed.

Lemma placedLabels_skipped (candidates : list (nat * string)) (n : nat) (lastEnd : Z)
    (x : nat * string) :
  StronglySorted (fun p q => (fst p < fst q)%nat) candidates ->
  In x candidates -> ~ In x (placedLabels candidates n lastEnd) ->
  (n < labelEnd x)%nat
  \/ Z.of_nat (fst x) <= lastEnd
  \/ exists q, In q (placedLabels candidates n lastEnd)
               /\ (fst q < fst x <= labelEnd q)%nat.
Proof.
  intros Hs. revert lastEnd.
  induction Hs as [|y rest Hs IH Hy]; intros lastEnd Hin Hnot; [contradiction|].
  simpl in Hnot |- *.
  destruct (Z.ltb_spec lastEnd (Z.of_nat (fst y))) as [Hlt|Hge];
    destruct (Nat.leb_spec (labelEnd y) n) as [Hfit|Hnofit]; simpl in *.
  - destruct Hin as [->|Hin]; [exfalso; apply Hnot; now left|].
    destruct (IH (Z.of_nat (labelEnd y)) Hin) as [H|[H|(q & Hq & H)]].
    + intros C. apply Hnot. now right.
    + now left.
    + right. right. exists y. split; [now left|].
      rewrite Forall_forall in Hy. specialize (Hy x Hin). lia.
    + right. right. exists q. split; [now right|exact H].
  - destruct Hin as [->|Hin]; [now left|]. now apply IH.
  - destruct Hin as [->|Hin]; [right; left; lia|]. now apply IH.
  - destruct Hin as [->|Hin]; [now left|]. now apply IH.
Qed.

Lemma separated_pairs (placed : list (nat * string)) (p q : nat * string) :
  StronglySorted (fun p q => (labelEnd p < fst q)%nat) placed ->
  In p placed -> In q placed -> (fst p < fst q)%nat -> (labelEnd p < fst q)%nat.
Proof.
  induction 1 as [|r placed Hs IH Hr]; intros Hp Hq Hlt; [contradiction|].
  rewrite Forall_forall in Hr.
  destruct Hp as [->|Hp]; destruct Hq as [->|Hq].
  - lia.
  - now apply Hr.
  - specialize (Hr p Hp). unfold labelEnd in *. lia.
  - now apply IH.
Qed.

Lemma monthRowLoop_placed (candidates : list (nat * string))
    (chars : list (option ascii)) (lastEnd : Z) :
  monthRowLoop (map (fun p => (fst p, Some (snd p))) candidates) chars lastEnd
  = Some (writeAll (placedLabels candidates (length chars) lastEnd) chars).
Proof.
  revert chars lastEnd.
  induction candidates as [|[col label] rest IH]; intros chars lastEnd; simpl;
    [reflexivity|].
  unfold labelEnd at 1. simpl.
  destruct (Z.ltb_spec lastEnd (Z.of_nat col)); simpl; [|apply IH].
  destruct (Nat.leb_spec (col + String.length label) (length chars)) as [Hfit|];
    [|apply IH].
  rewrite IH. rewrite writeLabel_length by lia. reflexivity.
Qed.

(** *** Where the month changes *)

Lemma parseIsoDate_month (s : string) (y m d : Z) :
  JS.parseIsoDate s = Some (y, m, d) -> 1 <= m <= 12.
Proof.
  unfold JS.parseIsoDate.
  destruct (list_ascii_of_string s)
    as [|y1 [|y2 [|y3 [|y4 [|h1 [|m1 [|m2 [|h2 [|d1 [|d2 [|? ?]]]]]]]]]]];
    try discriminate.
  destruct (_ && _ && _); [|discriminate].
  match goal with
  | |- (if ?c then _ else _) = _ -> _ => destruct c eqn:E; [|discriminate]
  end.
  intros H. inversion H; subst.
  rewrite !andb_true_iff, !Z.leb_le in E. lia.
Qed.

Lemma ValidWeek_month (week : ContributionWeek) :
  ValidWeek week -> exists m, monthOfWeek week = Some m /\ 0 <= m <= 11.
Proof.
  intros (fd & y & m & d & Hfd & Hp). unfold monthOfWeek. rewrite Hfd.
  unfold getMonth, JS.getMonthOfLocalMidnight. rewrite Hp. simpl.
  apply parseIsoDate_month in Hp.
  exists (Z.of_nat (Z.to_nat (m - 1))). split; [reflexivity|lia].
Qed.

Lemma monthLabel_defined (m : Z) :
  0 <= m <= 11 ->
  exists label, monthLabel (Some m) = Some label /\ String.length label = 3%nat.
Proof.
  intros H.
  assert (m = 0 \/ m = 1 \/ m = 2 \/ m = 3 \/ m = 4 \/ m = 5 \/ m = 6
          \/ m = 7 \/ m = 8 \/ m = 9 \/ m = 10 \/ m = 11) as Hm by lia.
  repeat (destruct Hm as [->|Hm]); try subst m;
    (eexists; split; [reflexivity|reflexivity]).
Qed.

Lemma numNeq_true (m : Z) (last : option Z) :
  numNeq (Some m) last = true <-> Some m <> last.
Proof.
  destruct last as [l|]; simpl.
  - rewrite negb_true_iff, Z.eqb_neq. split; congruence.
  - split; [discriminate|reflexivity].
Qed.

Lemma monthPositionsLoop_cons (cellWidth : nat) (week : ContributionWeek)
    (rest : list ContributionWeek) (w : nat) (lastMonth : option Z) :
  ValidWeek week ->
  monthPositionsLoop cellWidth (week :: rest) w lastMonth
  = (if numNeq (monthOfWeek week) lastMonth
     then [((w * cellWidth)%nat, monthLabel (monthOfWeek week))] else [])
    ++ monthPositionsLoop cellWidth rest (S w) (monthOfWeek week).
Proof.
  intros Hv. destruct (ValidWeek_month _ Hv) as (m & Hm & _).
  unfold monthOfWeek in *. cbn [monthPositionsLoop].
  destruct (nth_error (contributionDays week) 0) as [fd|]; [|discriminate].
  rewrite Hm. destruct (numNeq (Some m) lastMonth) eqn:E; [reflexivity|].
  cbn [app]. f_equal.
  destruct lastMonth as [l|]; simpl in E; [|discriminate].
  apply negb_false_iff, Z.eqb_eq in E. now subst.
Qed.

Lemma monthPositionsLoop_In (cellWidth : nat) (shown : list ContributionWeek)
    (w0 : nat) (lastMonth : option Z) (x : nat * option string) :
  Forall ValidWeek shown ->
  In x (monthPositionsLoop cellWidth shown w0 lastMonth) <->
  exists i week,
    nth_error shown i = Some week
    /\ x = (((w0 + i) * cellWidth)%nat, monthLabel (monthOfWeek week))
    /\ match i with
       | O => monthOfWeek week <> lastMonth
       | S i' => exists prev, nth_error shown i' = Some prev
                              /\ monthOfWeek prev <> monthOfWeek week
       end.
Proof.
  intros Hv. revert w0 lastMonth.
  induction Hv as [|week rest Hweek Hrest IH]; intros w0 lastMonth.
  - simpl. split; [contradiction|]. intros ([|i] & week & H & _); discriminate.
  - rewrite (monthPositionsLoop_cons _ _ _ _ _ Hweek), in_app_iff, IH.
    destruct (ValidWeek_month _ Hweek) as (m & Hm & _). rewrite Hm.
    split.
    + intros [H|(i & wk' & Hn & Hx & Hc)].
      * destruct (numNeq (Some m) lastMonth) eqn:E; [|contradiction].
        destruct H as [<-|[]]. exists 0%nat, week.
        rewrite Nat.add_0_r, Hm. repeat split. now apply numNeq_true.
      * exists (S i), wk'. split; [exact Hn|]. split.
        { rewrite Hx. do 2 f_equal. lia. }
        destruct i as [|i]; simpl.
        { exists week. split; [reflexivity|]. rewrite Hm. congruence. }
        exact Hc.
    + intros ([|i] & wk' & Hn & Hx & Hc); simpl in Hn.
      * inversion Hn; subst wk'. rewrite Hm in Hc, Hx. left.
        apply numNeq_true in Hc. rewrite Hc. left.
        rewrite Hx. now rewrite Nat.add_0_r.
      * right. exists i, wk'. split; [exact Hn|]. split.
        { rewrite Hx. do 2 f_equal. lia. }
        destruct i as [|i]; simpl in *.
        { destruct Hc as (prev & Hp & Hne). inversion Hp; subst prev.
          rewrite Hm in Hne. congruence. }
        exact Hc.
Qed.

Lemma monthPositionsLoop_sorted (cellWidth : nat) (shown : list ContributionWeek)
    (w0 : nat) (lastMonth : option Z) :
  (0 < cellWidth)%nat -> Forall ValidWeek shown ->
  StronglySorted (fun p q => (fst p < fst q)%nat)
    (monthPositionsLoop cellWidth shown w0 lastMonth).
Proof.
  intros Hcw Hv. revert w0 lastMonth.
  induction Hv as [|week rest Hweek Hrest IH]; intros w0 lastMonth;
    [constructor|].
  rewrite (monthPositionsLoop_cons _ _ _ _ _ Hweek).
  destruct (numNeq _ _); simpl; [|apply IH].
  constructor; [apply IH|].
  apply Forall_forall. intros x Hx.
  apply (monthPositionsLoop_In _ _ _ _ _ Hrest) in Hx.
  destruct Hx as (i & wk' & _ & -> & _). simpl. nia.
Qed.

Lemma monthPositionsLoop_defined (cellWidth : nat) (shown : list ContributionWeek)
    (w0 : nat) (lastMonth : option Z) :
  Forall ValidWeek shown ->
  Forall (fun x => exists label, snd x = Some label /\ String.length label = 3%nat)
    (monthPositionsLoop cellWidth shown w0 lastMonth).
Proof.
  intros Hv. apply Forall_forall. intros x Hx.
  apply (monthPositionsLoop_In _ _ _ _ _ Hv) in Hx.
  destruct Hx as (i & wk' & Hn & -> & _). simpl.
  apply nth_error_In in Hn. rewrite Forall_forall in Hv.
  destruct (ValidWeek_month _ (Hv _ Hn)) as (m & -> & Hm).
  now apply monthLabel_defined.
Qed.

Lemma definedLabels_In (positions : list (nat * option string)) (col : nat)
    (label : string) :
  In (col, label) (definedLabels positions) <-> In (col, Some label) positions.
Proof.
  unfold definedLabels. rewrite in_flat_map. split.
  - intros ([c [l|]] & Hin & H); simpl in H; [|contradiction].
    destruct H as [H|[]]. inversion H; subst. exact Hin.
  - intros H. exists (col, Some label). split; [exact H|now left].
Qed.

Lemma definedLabels_all (positions : list (nat * option string)) :
  Forall (fun x => exists label, snd x = Some label /\ String.length label = 3%nat)
    positions ->
  positions = map (fun p => (fst p, Some (snd p))) (definedLabels positions).
Proof.
  induction 1 as [|[c l] rest (label & Hl & _) _ IH]; [reflexivity|].
  simpl in Hl. subst l. unfold definedLabels in *. simpl. now rewrite <- IH.
Qed.

Lemma definedLabels_sorted (positions : list (nat * option string)) :
  StronglySorted (fun p q => (fst p < fst q)%nat) positions ->
  StronglySorted (fun p q => (fst p < fst q)%nat) (definedLabels positions).
Proof.
  induction 1 as [|[c l] rest Hs IH Hall]; [constructor|].
  unfold definedLabels in *. simpl. destruct l as [label|]; simpl; [|exact IH].
  constructor; [exact IH|].
  apply Forall_forall. intros [c' l'] Hin.
  apply (definedLabels_In rest) in Hin.
  rewrite Forall_forall in Hall. exact (Hall _ Hin).
Qed.

Lemma monthPositionsOf_In (cellWidth : nat) (shown : list ContributionWeek)
    (col : nat) (label : string) :
  Forall ValidWeek shown ->
  In (col, Some label) (monthPositionsOf cellWidth shown) <->
  exists w week,
    nth_error shown w = Some week
    /\ col = (w * cellWidth)%nat
    /\ monthLabel (monthOfWeek week) = Some label
    /\ (w = 0%nat
        \/ exists prev, nth_error shown (w - 1) = Some prev
                        /\ monthOfWeek prev <> monthOfWeek week).
Proof.
  intros Hv. unfold monthPositionsOf.
  rewrite (monthPositionsLoop_In _ _ _ _ _ Hv). split.
  - intros (i & week & Hn & Hx & Hc). inversion Hx; subst.
    exists i, week. repeat split; auto.
    destruct i as [|i]; [now left|right].
    now rewrite Nat.sub_succ, Nat.sub_0_r.
  - intros (w & week & Hn & -> & Hl & Hc). exists w, week.
    split; [exact Hn|]. split; [now rewrite Hl|].
    destruct w as [|w].
    + pose proof (nth_error_In _ _ Hn) as Hin. rewrite Forall_forall in Hv.
      destruct (ValidWeek_month _ (Hv _ Hin)) as (m & -> & Hm).
      intros C. inversion C. lia.
    + destruct Hc as [Hc|Hc]; [discriminate|].
      now rewrite Nat.sub_succ, Nat.sub_0_r in Hc.
Qed.

Lemma isDigit_cases (c : ascii) :
  JS.isDigit c = true ->
  In c ["0"; "1"; "2"; "3"; "4"; "5"; "6"; "7"; "8"; "9"]%char.
Proof.
  destruct c as [[] [] [] [] [] [] [] []]; intros H;
    try (vm_compute in H; discriminate H);
    simpl; repeat (first [left; reflexivity | right]).
Qed.

Lemma parseIsoDate_chars (s : string) (y m d : Z) :
  JS.parseIsoDate s = Some (y, m, d) ->
  exists m1 m2,
    String.substring 5 2 s = String m1 (String m2 EmptyString)
    /\ JS.isDigit m1 = true /\ JS.isDigit m2 = true
    /\ m = JS.digitVal m1 * 10 + JS.digitVal m2
    /\ 1 <= m <= 12.
Proof.
  intros H. pose proof (parseIsoDate_month _ _ _ _ H) as Hm. revert H.
  generalize (string_of_list_ascii_of_string s).
  unfold JS.parseIsoDate.
  destruct (list_ascii_of_string s)
    as [|y1 [|y2 [|y3 [|y4 [|h1 [|m1 [|m2 [|h2 [|d1 [|d2 [|? ?]]]]]]]]]]];
    intros Hs; try discriminate.
  destruct (forallb JS.isDigit [y1; y2; y3; y4; m1; m2; d1; d2]) eqn:Hd;
    [|discriminate].
  destruct (_ && _ && _); [|discriminate].
  match goal with
  | |- (if ?c then _ else _) = _ -> _ => destruct c; [|discriminate]
  end.
  intros H. inversion H; subst. exists m1, m2.
  simpl in Hd. rewrite !andb_true_iff in Hd.
  split; [reflexivity|]. repeat split; tauto || lia.
Qed.

(** The month a valid date parses to is the month its characters write,
    and [months] holds its label. *)
Lemma parseIsoDate_written (s : string) (y m d : Z) :
  JS.parseIsoDate s = Some (y, m, d) ->
  exists label,
    1 <= m <= 12
    /\ MonthOfDate s (m - 1) label
    /\ nth_error months (Z.to_nat (m - 1)) = Some label.
Proof.
  intros H. destruct (parseIsoDate_chars _ _ _ _ H)
    as (m1 & m2 & Hsub & D1 & D2 & -> & Hm).
  unfold MonthOfDate. rewrite Hsub.
  apply isDigit_cases in D1. apply isDigit_cases in D2.
  simpl in D1, D2.
  repeat (destruct D1 as [<-|D1]; [|]); try contradiction;
    repeat (destruct D2 as [<-|D2]; [|]); try contradiction;
    pose proof Hm as Hrange; vm_compute in Hm;
    try (exfalso; destruct Hm as [Ha Hb]; first [now apply Ha | now apply Hb]);
    (eexists; split; [exact Hrange|]; split;
     [simpl; repeat (first [left; reflexivity | right])|reflexivity]).
Qed.

(** C9: when every week shown starts with a day that has an ISO calendar
    date, the month row is rendered; a month label is a candidate exactly
    at the column of the first week shown and of every week whose first
    day's month differs from that of the week before; the labels written
    are candidates, lie entirely within the row, are readable in it and
    are separated from each other; a candidate that would start inside a
    label written before it is not written; a candidate that is not
    written either does not fit in the row or starts at most one column
    after a label written before it; the rest of the row is blank; and the
    month of a week is the month its first day's date writes, its label
    that month's three letters. *)
Theorem month_labels_layout :
  forall (calendar : CalendarData) (width : Z),
    let heatmap := renderHeatmap calendar width in
    let shown := displayWeeks heatmap in
    let positions := monthPositionsOf (cellWidth heatmap) shown in
    Forall ValidWeek shown ->
    exists row placed,
      chars heatmap = Some row
      /\ length row = (length shown * cellWidth heatmap)%nat
      /\ (forall col label,
            In (col, Some label) positions <->
            exists w week,
              nth_error shown w = Some week
              /\ col = (w * cellWidth heatmap)%nat
              /\ monthLabel (monthOfWeek week) = Some label
              /\ (w = 0%nat
                  \/ exists prev, nth_error shown (w - 1) = Some prev
                                  /\ monthOfWeek prev <> monthOfWeek week))
      /\ (forall p, In p placed ->
            In (fst p, Some (snd p)) positions
            /\ (labelEnd p <= length row)%nat
            /\ ShowsLabel row p)
      /\ (forall p q, In p placed -> In q placed ->
            (fst p < fst q)%nat -> (labelEnd p < fst q)%nat)
      /\ (forall col label q,
            In (col, Some label) positions -> In q placed ->
            (fst q < col < labelEnd q)%nat -> ~ In (col, label) placed)
      /\ (forall col label,
            In (col, Some label) positions -> ~ In (col, label) placed ->
            (length row < col + String.length label)%nat
            \/ exists q, In q placed /\ (fst q < col <= labelEnd q)%nat)
      /\ (forall pos, (pos < length row)%nat -> ~ Covered placed pos ->
            nth_error row pos = Some (Some " "%char))
      /\ (forall week firstDay,
            In week shown ->
            nth_error (contributionDays week) 0 = Some firstDay ->
            exists y m d label,
              JS.parseIsoDate (date firstDay) = Some (y, m, d)
              /\ MonthOfDate (date firstDay) (m - 1) label
              /\ monthOfWeek week = Some (m - 1)
              /\ monthLabel (monthOfWeek week) = Some label).
Proof.
  intros calendar width heatmap shown positions Hvalid.
  subst heatmap. cbn [renderHeatmap cellWidth displayWeeks chars] in *.
  set (cw := cellWidthOf calendar width) in *.
  assert (Hcw : (0 < cw)%nat).
  { subst cw.
    destruct (cellWidthOf_cases calendar width) as [(_ & -> & _)|(_ & -> & _)]; lia. }
  set (n := (length shown * cw)%nat).
  set (candidates := definedLabels positions).
  set (placed := placedLabels candidates n (-1)).
  assert (Hmap : positions = map (fun p => (fst p, Some (snd p))) candidates)
    by (apply definedLabels_all, monthPositionsLoop_defined, Hvalid).
  assert (Hsorted : StronglySorted (fun p q => (fst p < fst q)%nat) candidates)
    by (apply definedLabels_sorted, monthPositionsLoop_sorted; assumption).
  assert (Hblank : length (blankChars n) = n) by apply repeat_length.
  assert (Hfit : Forall (fun p => (labelEnd p <= length (blankChars n))%nat) placed).
  { apply Forall_forall. intros p Hp. apply placedLabels_In in Hp. lia. }
  assert (Hsep : StronglySorted (fun p q => (labelEnd p < fst q)%nat) placed)
    by apply placedLabels_separated.
  assert (Hlen : length (writeAll placed (blankChars n)) = n)
    by (rewrite writeAll_length; assumption).
  exists (writeAll placed (blankChars n)), placed.
  split; [|split; [|split; [|split; [|split; [|split; [|split; [|split]]]]]]].
  - unfold monthChars. fold cw shown positions n.
    rewrite Hmap, monthRowLoop_placed. now rewrite Hblank.
  - exact Hlen.
  - intros col label. now apply monthPositionsOf_In.
  - intros p Hp. split; [|split].
    + apply placedLabels_In in Hp. destruct Hp as (Hp & _).
      destruct p as [c l]. now apply (definedLabels_In positions).
    + rewrite Hlen. apply placedLabels_In in Hp. lia.
    + now apply writeAll_shows.
  - intros p q. now apply separated_pairs.
  - intros col label q Hc Hq Hover Hin.
    pose proof (separated_pairs placed q (col, label) Hsep Hq Hin) as H.
    simpl in H. lia.
  - intros col label Hc Hnot. rewrite Hlen.
    apply (definedLabels_In positions) in Hc.
    destruct (placedLabels_skipped candidates n (-1) (col, label) Hsorted Hc Hnot)
      as [H|[H|H]]; simpl in *.
    + left. exact H.
    + lia.
    + right. exact H.
  - intros pos Hpos Hcov. rewrite writeAll_uncovered by assumption.
    unfold blankChars. apply nth_error_repeat. lia.
  - intros week firstDay Hin Hfirst.
    rewrite Forall_forall in Hvalid.
    destruct (Hvalid week Hin) as (fd & y & m & d & Hfd & Hp).
    rewrite Hfirst in Hfd. inversion Hfd; subst fd.
    destruct (parseIsoDate_written _ _ _ _ Hp) as (label & Hm & Hmonth & Hlabel).
    exists y, m, d, label. split; [exact Hp|]. split; [exact Hmonth|].
    assert (Hweek : monthOfWeek week = Some (m - 1)).
    { unfold monthOfWeek. rewrite Hfirst.
      unfold getMonth, JS.getMonthOfLocalMidnight. rewrite Hp. simpl.
      f_equal. lia. }
    split; [exact Hweek|]. rewrite Hweek. unfold monthLabel.
    destruct (Z.leb_spec 0 (m - 1)); [exact Hlabel|lia].
Qed.

Lemma month_labels_layout_witness :
  let calendar :=
    {| totalContributions := 6;
       weeks := [ {| contributionDays := [{| date := "2024-01-28"; contributionCount := 1 |}] |};
                  {| contributionDays := [{| date := "2024-02-04"; contributionCount := 2 |}] |};
                  {| contributionDays := [{| date := "2024-02-11"; contributionCount := 0 |}] |};
                  {| contributionDays := [{| date := "2024-02-18"; contributionCount := 0 |}] |};
                  {| contributionDays := [{| date := "2024-02-25"; contributionCount := 3 |}] |};
                  {| contributionDays := [{| date := "2024-03-03"; contributionCount := 0 |}] |};
                  {| contributionDays := [{| date := "2024-03-10"; contributionCount := 0 |}] |};
                  {| contributionDays := [{| date := "2024-03-17"; contributionCount := 0 |}] |} ] |} in
  let width := 16 in
  Forall ValidWeek (displayWeeks (renderHeatmap calendar width))
  /\ exists row,
       chars (renderHeatmap calendar width) = Some row
       /\ length row = (length (displayWeeks (renderHeatmap calendar width))
                        * cellWidth (renderHeatmap calendar width))%nat
       /\ joinChars row = "Jan  Mar"%string
       /\ map monthOfWeek (displayWeeks (renderHeatmap calendar width))
          = [Some 0; Some 1; Some 1; Some 1; Some 1; Some 2; Some 2; Some 2].
Proof.
  cbv zeta.
  match goal with |- ?V /\ _ =>
    assert (Hv : V) by
      (repeat constructor;
       eexists; eexists; eexists; eexists; (split; [reflexivity|reflexivity]))
  end.
  split; [exact Hv|].
  destruct (month_labels_layout _ 16 Hv) as (row & placed & E & L & _).
  exists row. split; [exact E|]. split; [exact L|].
  vm_compute in E. inversion E; subst row. split; reflexivity.
Defined.

(** Eight weeks in eight columns: Jan at column 0, Feb left out for lack
    of room, Mar at column 5. *)
Example month_row_of_eight_weeks :
  monthRow (renderHeatmap
    {| totalContributions := 6;
       weeks := [ {| contributionDays := [{| date := "2024-01-28"; contributionCount := 1 |}] |};
                  {| contributionDays := [{| date := "2024-02-04"; contributionCount := 2 |}] |};
                  {| contributionDays := [{| date := "2024-02-11"; contributionCount := 0 |}] |};
                  {| contributionDays := [{| date := "2024-02-18"; contributionCount := 0 |}] |};
                  {| contributionDays := [{| date := "2024-02-25"; contributionCount := 3 |}] |};
                  {| contributionDays := [{| date := "2024-03-03"; contributionCount := 0 |}] |};
                  {| contributionDays := [{| date := "2024-03-10"; contributionCount := 0 |}] |};
                  {| contributionDays := [{| date := "2024-03-17"; contributionCount := 0 |}] |} ] |}
    16)
  = Some "        Jan  Mar"%string.
Proof. vm_compute. reflexivity. Qed.

(** ** The model on concrete inputs *)

(** The index arithmetic of [computeQuartiles] in binary64 agrees with the
    integer quotients on every array length up to 4096. *)
Lemma quartileIndex_binary64 (n k : nat) :
  (n <= 4096)%nat -> (1 <= k <= 3)%nat ->
  Num.floorZ (Num.mul (Num.ofZ (Z.of_nat n))
                      (Num.div (Num.ofZ (Z.of_nat k)) (Num.ofZ 4)))
  = Some (Z.of_nat (quartileIndex n k)).
Proof.
  intros Hn Hk.
  assert (H : forallb (fun n =>
                forallb (fun k =>
                  match Num.floorZ (Num.mul (Num.ofZ (Z.of_nat n))
                                      (Num.div (Num.ofZ (Z.of_nat k)) (Num.ofZ 4))) with
                  | Some i => i =? Z.of_nat (quartileIndex n k)
                  | None => false
                  end) [1; 2; 3]%nat) (seq 0 4097) = true)
    by (vm_compute; reflexivity).
  rewrite forallb_forall in H. specialize (H n).
  rewrite in_seq in H. specialize (H ltac:(lia)).
  rewrite forallb_forall in H. specialize (H k).
  assert (In k [1; 2; 3]%nat) as Hin by (simpl; lia).
  specialize (H Hin).
  destruct (Num.floorZ _) as [i|]; [|discriminate].
  apply Z.eqb_eq in H. now subst.
Qed.

Lemma quartileIndex_binary64_witness :
  (366 <= 4096)%nat /\ (1 <= 3 <= 3)%nat
  /\ Num.floorZ (Num.mul (Num.ofZ 366) (Num.div (Num.ofZ 3) (Num.ofZ 4))) = Some 274.
Proof.
  assert (H1 : (366 <= 4096)%nat) by lia.
  assert (H2 : (1 <= 3 <= 3)%nat) by lia.
  split; [exact H1|]. split; [exact H2|].
  exact (quartileIndex_binary64 366 3 H1 H2).
Defined.

Example toISOString_epoch : JS.toISOString 0 = "1970-01-01T00:00:00.000Z"%string.
Proof. reflexivity. Qed.

Example toISOString_before_epoch :
  JS.toISOString (-1) = "1969-12-31T23:59:59.999Z"%string.
Proof. vm_compute. reflexivity. Qed.

Example toISOString_leap_day :
  JS.toISOString 1709210096789 = "2024-02-29T12:34:56.789Z"%string.
Proof. vm_compute. reflexivity. Qed.

Example toISOString_latest :
  JS.toISOString 8640000000000000 = "+275760-09-13T00:00:00.000Z"%string.
Proof. vm_compute. reflexivity. Qed.

Example Math_round_ties_go_up :
  Num.Math_round (Num.div (Num.ofZ 5) (Num.ofZ 2)) = Num.ofZ 3
  /\ Num.Math_round (Num.div (Num.ofZ (-5)) (Num.ofZ 2)) = Num.ofZ (-2)
  /\ Num.Math_round (Num.div (Num.ofZ (-1)) (Num.ofZ 5)) = S754_zero true
  /\ Num.Math_round (Num.div (Num.ofZ 0) (Num.ofZ 0)) = S754_nan.
Proof. repeat split; vm_compute; reflexivity. Qed.

(** Today without a contribution yet, the two days before with some: the
    streak leaves today out and counts back from yesterday. *)
Example streak_counts_back_from_yesterday :
  calculateStreak {| now_ms := 1709330400000; tz_offset_min := 0 |}
    [{| date := "2024-02-27"; contributionCount := 0 |};
     {| date := "2024-02-28"; contributionCount := 3 |};
     {| date := "2024-02-29"; contributionCount := 5 |};
     {| date := "2024-03-01"; contributionCount := 0 |}]
  = 2%nat.
Proof. vm_compute. reflexivity. Qed.

Example bars_of_four_days :
  map barLen
    (renderBarChart
       [{| date := "2024-01-01"; contributionCount := 1 |};
        {| date := "2024-01-02"; contributionCount := 6 |};
        {| date := "2024-01-03"; contributionCount := 3 |};
        {| date := "2024-01-04"; contributionCount := 0 |}] 39)
  = [Num.ofZ 4; Num.ofZ 21; Num.ofZ 11; Num.ofZ 0].
Proof. vm_compute. reflexivity. Qed.

(** ** Printed text *)

Lemma pad_length (str : ustring) (len : Z) :
  Z.of_nat (length (pad str len)) = Z.max (Z.of_nat (length str)) len.
Proof. unfold pad. rewrite length_app, repeat_length. lia. Qed.

Lemma padStart_length (str : ustring) (len : Z) :
  Z.of_nat (length (padStart str len)) = Z.max (Z.of_nat (length str)) len.
Proof. unfold padStart. rewrite length_app, repeat_length. lia. Qed.

Lemma units_length (s : string) : length (units s) = String.length s.
Proof.
  unfold units. rewrite length_map.
  induction s as [|c s IH]; simpl; [reflexivity|now rewrite IH].
Qed.

Lemma decimalDigits_length (fuel : nat) (n : Z) (k : nat) :
  0 <= n < 10 ^ Z.of_nat k -> (1 <= k)%nat ->
  (length (decimalDigits fuel n) <= k)%nat.
Proof.
  revert n k. induction fuel as [|fuel IH]; intros n k Hn Hk; simpl; [lia|].
  rewrite length_app. simpl.
  destruct (Z.ltb_spec n 10) as [|Hge]; simpl; [lia|].
  destruct k as [|[|k]]; [lia| |].
  - change (10 ^ Z.of_nat 1) with 10 in Hn. lia.
  - assert (length (decimalDigits fuel (n / 10)) <= S k)%nat; [|lia].
    apply IH; [|lia]. split; [apply Z.div_pos; lia|].
    apply Z.div_lt_upper_bound; [lia|].
    replace (Z.of_nat (S (S k))) with (Z.succ (Z.of_nat (S k))) in Hn by lia.
    rewrite Z.pow_succ_r in Hn by lia. lia.
Qed.

Lemma numberToString_length (n : Z) (k : nat) :
  0 <= n < 10 ^ Z.of_nat k -> (1 <= k)%nat ->
  (1 <= length (numberToString n) <= k)%nat.
Proof.
  intros Hn Hk. unfold numberToString.
  destruct (Z.ltb_spec n 0); [lia|]. split.
  - simpl. rewrite length_app. simpl. lia.
  - now apply decimalDigits_length.
Qed.

Example numberToString_samples :
  numberToString 0 = units "0" /\ numberToString 7 = units "7"
  /\ numberToString 31 = units "31" /\ numberToString 1024 = units "1024"
  /\ numberToString 999999 = units "999999" /\ numberToString (-12) = units "-12".
Proof. repeat split; vm_compute; reflexivity. Qed.

Lemma parseIsoDate_day (s : string) (y m d : Z) :
  JS.parseIsoDate s = Some (y, m, d) -> 1 <= m <= 12 /\ 1 <= d <= 31.
Proof.
  unfold JS.parseIsoDate.
  destruct (list_ascii_of_string s)
    as [|y1 [|y2 [|y3 [|y4 [|h1 [|m1 [|m2 [|h2 [|d1 [|d2 [|? ?]]]]]]]]]]];
    try discriminate.
  destruct (_ && _ && _); [|discriminate].
  match goal with
  | |- (if ?c then _ else _) = _ -> _ => destruct c eqn:E; [|discriminate]
  end.
  intros H. inversion H; subst.
  rewrite !andb_true_iff, !Z.leb_le in E.
  assert (JS.daysInMonth
            (((JS.digitVal y1 * 10 + JS.digitVal y2) * 10 + JS.digitVal y3) * 10
             + JS.digitVal y4)
            (JS.digitVal m1 * 10 + JS.digitVal m2) <= 31).
  { unfold JS.daysInMonth. repeat match goal with
      | |- context [if ?b then _ else _] => destruct b end; lia. }
  lia.
Qed.

Lemma month_name_length (m : Z) :
  1 <= m <= 12 ->
  exists name, nth_error months (Z.to_nat (m - 1)) = Some name
               /\ String.length name = 3%nat.
Proof.
  intros H.
  assert (m = 1 \/ m = 2 \/ m = 3 \/ m = 4 \/ m = 5 \/ m = 6 \/ m = 7
          \/ m = 8 \/ m = 9 \/ m = 10 \/ m = 11 \/ m = 12) as Hm by lia.
  repeat (destruct Hm as [->|Hm]); try subst m;
    (eexists; split; [reflexivity|reflexivity]).
Qed.

(** On an ISO calendar date [formatDate] gives the day without leading
    zero, a space and the three letters of the month. *)
Lemma formatDate_valid (s : string) (y m d : Z) :
  JS.parseIsoDate s = Some (y, m, d) ->
  exists name,
    nth_error months (Z.to_nat (m - 1)) = Some name
    /\ formatDate s = Some (numberToString d ++ space :: units name)
    /\ (5 <= length (numberToString d ++ space :: units name) <= 6)%nat.
Proof.
  intros Hp. destruct (parseIsoDate_day _ _ _ _ Hp) as [Hm Hd].
  destruct (month_name_length m Hm) as (name & Hn & Hl).
  exists name. split; [exact Hn|]. unfold formatDate. rewrite Hp, Hn.
  split; [reflexivity|].
  rewrite length_app. simpl. rewrite units_length, Hl.
  pose proof (numberToString_length d 2 ltac:(simpl; lia) ltac:(lia)). lia.
Qed.

(** ** Binary64: the Number of a positive integer *)

Lemma digits2_pos_bounds (p : positive) :
  2 ^ (Zpos (digits2_pos p) - 1) <= Zpos p < 2 ^ Zpos (digits2_pos p).
Proof.
  induction p as [p IH|p IH|]; simpl digits2_pos.
  - rewrite Pos2Z.inj_succ.
    replace (Z.succ (Zpos (digits2_pos p)) - 1) with (Z.succ (Zpos (digits2_pos p) - 1)) by lia.
    rewrite !Z.pow_succ_r by lia. lia.
  - rewrite Pos2Z.inj_succ.
    replace (Z.succ (Zpos (digits2_pos p)) - 1) with (Z.succ (Zpos (digits2_pos p) - 1)) by lia.
    rewrite !Z.pow_succ_r by lia. lia.
  - simpl. lia.
Qed.

Lemma shr_1_halves (mrs : shr_record) :
  0 <= shr_m mrs -> shr_m (shr_1 mrs) = shr_m mrs / 2.
Proof.
  destruct mrs as [m r s]. simpl. intros H.
  destruct m as [|[p|p|]|p]; cbn [shr_m].
  - reflexivity.
  - apply Z.div_unique with (r := 1); lia.
  - apply Z.div_unique with (r := 0); lia.
  - reflexivity.
  - lia.
Qed.

Lemma iter_shr_1_divides (n : positive) (mrs : shr_record) :
  0 <= shr_m mrs -> shr_m (iter_pos shr_1 n mrs) = shr_m mrs / 2 ^ Zpos n.
Proof.
  revert mrs. induction n as [n IH|n IH|]; intros mrs H; simpl iter_pos.
  - assert (H1 : 0 <= shr_m (shr_1 mrs))
      by (rewrite shr_1_halves by exact H; apply Z.div_pos; lia).
    assert (H2 : 0 <= shr_m (iter_pos shr_1 n (shr_1 mrs)))
      by (rewrite IH by exact H1; apply Z.div_pos; lia).
    rewrite IH by exact H2. rewrite IH by exact H1. rewrite shr_1_halves by exact H.
    rewrite !Z.div_div by lia. f_equal.
    replace (Zpos n~1) with (1 + Zpos n + Zpos n) by lia.
    rewrite !Z.pow_add_r by lia. change (2 ^ 1) with 2. lia.
  - assert (H1 : 0 <= shr_m (iter_pos shr_1 n mrs))
      by (rewrite IH by exact H; apply Z.div_pos; lia).
    rewrite IH by exact H1. rewrite IH by exact H.
    rewrite Z.div_div by lia. f_equal.
    replace (Zpos n~0) with (Zpos n + Zpos n) by lia.
    rewrite Z.pow_add_r by lia. lia.
  - rewrite shr_1_halves by exact H. reflexivity.
Qed.

Lemma shr_record_of_loc_m (m : Z) (l : location) : shr_m (shr_record_of_loc m l) = m.
Proof. destruct l as [|[| |]]; reflexivity. Qed.

(** Shifting a positive mantissa to its format exponent keeps it positive. *)
Lemma shr_fexp_positive (m e : Z) (l : location) :
  0 < m -> emin Num.prec Num.emax <= e ->
  0 < shr_m (fst (shr_fexp Num.prec Num.emax m e l))
  /\ e <= snd (shr_fexp Num.prec Num.emax m e l).
Proof.
  intros Hm He. unfold shr_fexp, shr.
  destruct m as [|p|p]; try lia. simpl Zdigits2.
  pose proof (digits2_pos_bounds p) as [Hlo _].
  set (d := Zpos (digits2_pos p)) in *.
  unfold fexp, Num.prec, Num.emax, emin in *.
  destruct (Z.max (d + e - 53) (3 - 1024 - 53) - e) as [|n|n] eqn:En; simpl;
    rewrite ?shr_record_of_loc_m; try lia.
  rewrite iter_shr_1_divides by (rewrite shr_record_of_loc_m; lia).
  rewrite shr_record_of_loc_m. split; [|lia].
  assert (Zpos n <= d - 1) by lia.
  apply Z.div_str_pos. split; [apply Z.pow_pos_nonneg; lia|].
  eapply Z.le_trans; [|exact Hlo]. apply Z.pow_le_mono_r; lia.
Qed.

Lemma round_nearest_even_ge (m : Z) (l : location) : m <= round_nearest_even m l.
Proof.
  destruct l as [|[| |]]; simpl; try lia. destruct (Z.even m); lia.
Qed.

Lemma binary_round_aux_positive (s : bool) (m e : Z) (l : location) :
  0 < m -> emin Num.prec Num.emax <= e ->
  (exists m' e', binary_round_aux Num.prec Num.emax s m e l = S754_finite s m' e')
  \/ binary_round_aux Num.prec Num.emax s m e l = S754_infinity s.
Proof.
  intros Hm He. unfold binary_round_aux.
  pose proof (shr_fexp_positive m e l Hm He) as [H1 H1e].
  destruct (shr_fexp Num.prec Num.emax m e l) as [mrs1 e1]. simpl in H1, H1e.
  pose proof (round_nearest_even_ge (shr_m mrs1) (loc_of_shr_record mrs1)) as Hr.
  pose proof (shr_fexp_positive
                (round_nearest_even (shr_m mrs1) (loc_of_shr_record mrs1)) e1 loc_Exact
                ltac:(lia) ltac:(lia)) as [H2 _].
  destruct (shr_fexp Num.prec Num.emax _ e1 loc_Exact) as [mrs2 e2]. simpl in H2.
  destruct (shr_m mrs2) as [|p|p]; try lia.
  destruct (e2 <=? Num.emax - Num.prec); [left; eauto|now right].
Qed.

(** The Number of a positive integer is a positive finite Number or
    +Infinity: neither a zero nor NaN. *)
Lemma ofZ_positive (z : Z) :
  0 < z ->
  (exists m e, Num.ofZ z = S754_finite false m e) \/ Num.ofZ z = S754_infinity false.
Proof.
  intros Hz. destruct z as [|p|p]; try lia.
  unfold Num.ofZ, binary_normalize, binary_round, shl_align.
  set (ex := fexp Num.prec Num.emax (Zpos (digits2_pos p) + 0)).
  assert (emin Num.prec Num.emax <= ex) by (subst ex; unfold fexp; lia).
  assert (emin Num.prec Num.emax <= 0) by (unfold emin, Num.prec, Num.emax; lia).
  destruct (ex - 0) as [|d|d] eqn:E;
    apply binary_round_aux_positive; lia.
Qed.

(** ** Lines of the bar chart *)

Lemma toInteger_round_zero_or_nan (x : spec_float) :
  x = S754_zero false \/ x = S754_nan -> toInteger (Num.Math_round x) = Some 0.
Proof. intros [-> | ->]; reflexivity. Qed.

Lemma barLen_of_zero_count (maxCount barMaxWidth : Z) (day : ContributionDay) :
  1 <= maxCount -> 1 <= barMaxWidth -> contributionCount day = 0 ->
  toInteger (barLenOf maxCount barMaxWidth day) = Some 0.
Proof.
  intros Hm Hw Hc. unfold barLenOf. rewrite Hc.
  apply toInteger_round_zero_or_nan.
  change (Num.ofZ 0) with (S754_zero false).
  destruct (ofZ_positive maxCount ltac:(lia)) as [(m & e & ->)| ->];
    destruct (ofZ_positive barMaxWidth ltac:(lia)) as [(m' & e' & ->)| ->];
    simpl; auto.
Qed.

(** A day without contributions gets an empty bar: its bar length is +0
    (or NaN, should the width be beyond the range of Numbers), which
    [repeat] takes as 0. *)
Theorem empty_bar_for_zero_count :
  forall (host : Host) (days : list ContributionDay) (width : Z) (row : BarRow),
    0 <= kMaxLength host ->
    In row (renderBarChart days width) ->
    contributionCount (barDay row) = 0 ->
    repeatCharNum host blockChar (barLen row) = inr [].
Proof.
  intros host days width row Hk Hin Hc. unfold renderBarChart in Hin.
  apply in_map_iff in Hin. destruct Hin as (day & <- & _). simpl in *.
  unfold repeatCharNum. rewrite barLen_of_zero_count; trivial.
  - unfold repeatChar. simpl.
    destruct (Z.ltb_spec (kMaxLength host) 0); [lia|reflexivity].
  - apply maxCountOf_spec.
  - unfold barMaxWidthOf. lia.
Qed.

Lemma empty_bar_for_zero_count_witness :
  let host := {| kMaxLength := 536870888; toLocaleString := numberToString |} in
  let days := [{| date := "2024-03-01"; contributionCount := 4 |};
               {| date := "2024-03-02"; contributionCount := 0 |}] in
  let row := {| barDay := {| date := "2024-03-02"; contributionCount := 0 |};
                barLen := S754_zero false |} in
  0 <= kMaxLength host
  /\ In row (renderBarChart days 80)
  /\ repeatCharNum host blockChar (barLen row) = inr [].
Proof.
  cbv zeta.
  match goal with |- ?K /\ ?I /\ _ =>
    assert (Hk : K) by (simpl; lia);
    assert (Hi : I) by (right; left; vm_compute; reflexivity)
  end.
  split; [exact Hk|]. split; [exact Hi|].
  exact (empty_bar_for_zero_count _ _ 80 _ Hk Hi eq_refl).
Defined.

(** A line of the chart whose day has an ISO calendar date: the label
    takes exactly ten characters, so every bar starts in the same column,
    and the count field after the bar takes five as long as the count has
    at most four digits.  The only way the line is not printed is a
    RangeError for the length of the bar. *)
Theorem bar_line_layout :
  forall (host : Host) (row : BarRow) (out : list Line) (y m d : Z),
    JS.parseIsoDate (date (barDay row)) = Some (y, m, d) ->
    (exists label bar count,
        barLine host row out
        = Ok tt (out ++ [[(dimmed, label); (BAR_COLOUR, bar); (white, count)]])
        /\ length label = 10%nat
        /\ repeatCharNum host blockChar (barLen row) = inr bar
        /\ (5 <= length count)%nat
        /\ (0 <= contributionCount (barDay row) <= 9999 -> length count = 5%nat))
    \/ (barLine host row out = Failed RangeError out
        /\ repeatCharNum host blockChar (barLen row) = inl RangeError).
Proof.
  intros host row out y m d Hp.
  destruct (formatDate_valid _ _ _ _ Hp) as (name & _ & Hf & Hl).
  unfold barLine, pbind, inModel. rewrite Hf. unfold pret at 1.
  destruct (repeatCharNum host blockChar (barLen row)) as [e|bar] eqn:Hb.
  - right. assert (e = RangeError) as ->.
    { unfold repeatCharNum, repeatChar in Hb.
      destruct (toInteger (barLen row)) as [n|]; [|congruence].
      destruct (n <? 0); [congruence|].
      destruct (kMaxLength host <? n); congruence. }
    now split.
  - left. eexists _, bar, _. split; [reflexivity|].
    split; [|split; [reflexivity|]].
    + rewrite length_app, units_length. simpl String.length.
      pose proof (pad_length (numberToString d ++ space :: units name) labelWidth) as P.
      unfold labelWidth in *. lia.
    + pose proof (padStart_length
                    (numberToString (contributionCount (barDay row))) 4) as P.
      simpl length. split; [lia|]. intros Hc.
      pose proof (numberToString_length (contributionCount (barDay row)) 4
                    ltac:(simpl; lia) ltac:(lia)). lia.
Qed.

Lemma bar_line_layout_witness :
  let host := {| kMaxLength := 536870888; toLocaleString := numberToString |} in
  let row := {| barDay := {| date := "2024-03-05"; contributionCount := 12 |};
                barLen := Num.ofZ 7 |} in
  JS.parseIsoDate (date (barDay row)) = Some (2024, 3, 5)
  /\ barLine host row []
     = Ok tt [[(dimmed, units "  5 Mar   "); (BAR_COLOUR, repeat blockChar 7);
               (white, units "   12")]].
Proof.
  cbv zeta.
  match goal with |- ?V /\ _ => assert (Hv : V) by (vm_compute; reflexivity) end.
  split; [exact Hv|].
  destruct (bar_line_layout
              {| kMaxLength := 536870888; toLocaleString := numberToString |}
              {| barDay := {| date := "2024-03-05"; contributionCount := 12 |};
                 barLen := Num.ofZ 7 |} [] _ _ _ Hv)
    as [(label & bar & count & E & _)|[E _]];
    vm_compute in E |- *; [reflexivity|discriminate E].
Defined.

(** ** Days in date order *)

Lemma StronglySorted_weaken {A} (R R' : A -> A -> Prop) (l : list A) :
  (forall a b, R a b -> R' a b) -> StronglySorted R l -> StronglySorted R' l.
Proof.
  intros HR. induction 1 as [|x l Hs IH Hx]; constructor; [exact IH|].
  eapply Forall_impl; [|exact Hx]. intros b. apply HR.
Qed.

Lemma sort_of_sorted {A} (cmp : A -> A -> Z) (l : list A) :
  StronglySorted (fun x y => cmp x y <= 0) l -> JS.sort cmp l = l.
Proof.
  induction 1 as [|x l Hs IH Hx]; [reflexivity|].
  unfold JS.sort in *. simpl. rewrite IH.
  destruct l as [|y l]; [reflexivity|]. simpl.
  inversion Hx as [|? ? Hy _]; subst.
  destruct (Z.ltb_spec 0 (cmp x y)); [lia|reflexivity].
Qed.

(** On days that are already in ascending date order (equal dates
    allowed) the sort of [renderStats] and [renderBarChart] changes
    nothing, and the chart shows the last 14 of them, or all when there
    are fewer, in the order given. *)
Theorem sort_keeps_ascending_days :
  forall days : list ContributionDay,
    StronglySorted (fun a b => dateLe (date a) (date b)) days ->
    sortedOldestFirst days = days
    /\ last14 days = skipn (length days - 14) days
    /\ exists older, days = older ++ last14 days
                     /\ length (last14 days) = Nat.min 14 (length days).
Proof.
  intros days Hs.
  assert (E : sortedOldestFirst days = days).
  { apply sort_of_sorted. eapply StronglySorted_weaken; [|exact Hs].
    intros a b H. now apply localeCompare_not_pos. }
  split; [exact E|]. split.
  - unfold last14. rewrite E. apply (slice_from_neg 14). lia.
  - exists (firstn (length days - 14) days). split; [|apply last14_length].
    unfold last14. rewrite E, (slice_from_neg 14) by lia.
    now rewrite firstn_skipn.
Qed.

Lemma sort_keeps_ascending_days_witness :
  let days := [{| date := "2024-02-28"; contributionCount := 1 |};
               {| date := "2024-02-29"; contributionCount := 0 |};
               {| date := "2024-03-01"; contributionCount := 2 |}] in
  StronglySorted (fun a b => dateLe (date a) (date b)) days
  /\ sortedOldestFirst days = days.
Proof.
  cbv zeta.
  match goal with |- ?S /\ _ =>
    assert (Hs : S) by (repeat constructor; discriminate)
  end.
  split; [exact Hs|].
  exact (proj1 (sort_keeps_ascending_days _ Hs)).
Defined.

(** ** The numbers of the stats grid *)

Lemma streak_le_longest_of_ascending (clock : Clock) (days : list ContributionDay) :
  StronglySorted (fun a b => dateLt (date a) (date b)) days ->
  (calculateStreak clock days <= calculateLongestStreak days)%nat.
Proof.
  intros Hstrict.
  pose proof (sortedRecentFirst_of_ascending days Hstrict) as Hrev.
  rewrite calculateStreak_spec. unfold streakSpec.
  pose proof (leadingRun_Run (countedDays (todayString clock) days)) as Hr.
  set (r := leadingRun _) in *.
  assert (exists i, Run (rev days) i r) as (i & Hrun).
  { rewrite <- Hrev. unfold countedDays in Hr.
    destruct (skipsToday _ _).
    - exists 1%nat. now apply Run_tl.
    - now exists 0%nat. }
  apply Run_rev in Hrun. eapply longest_bounds_runs; eauto.
Qed.

(** The two streaks [renderStats] prints are computed on the days sorted
    by date; whatever the order the days come in, as long as no two carry
    the same date the current streak is at most the longest one. *)
Theorem stats_current_streak_at_most_longest :
  forall (clock : Clock) (days : list ContributionDay),
    NoDup (map date days) ->
    let allDays := sortedOldestFirst days in
    (calculateStreak clock allDays <= calculateLongestStreak allDays)%nat.
Proof.
  intros clock days Hn allDays.
  apply streak_le_longest_of_ascending, ascending_distinct_strict.
  - apply sortedOldestFirst_sorted.
  - eapply Permutation_NoDup; [|exact Hn].
    apply Permutation_map. symmetry. apply sortedOldestFirst_perm.
Qed.

Lemma stats_current_streak_at_most_longest_witness :
  let clock := {| now_ms := 1709330400000; tz_offset_min := 0 |} in
  let days := [{| date := "2024-03-01"; contributionCount := 3 |};
               {| date := "2024-02-28"; contributionCount := 0 |};
               {| date := "2024-02-29"; contributionCount := 4 |}] in
  NoDup (map date days)
  /\ (calculateStreak clock (sortedOldestFirst days)
      <= calculateLongestStreak (sortedOldestFirst days))%nat.
Proof.
  cbv zeta.
  match goal with |- ?N /\ _ =>
    assert (Hn : N) by (repeat constructor; simpl; intuition discriminate)
  end.
  split; [exact Hn|].
  exact (stats_current_streak_at_most_longest _ _ Hn).
Defined.

(** With two days of the same date the order can be the other way round:
    the stable sorts keep both days in their order, the walk back from
    the most recent day meets the day with contributions first. *)
Example stats_streaks_with_a_repeated_date :
  let clock := {| now_ms := 1709330400000; tz_offset_min := 0 |} in
  let allDays := sortedOldestFirst
                   [{| date := "2024-02-27"; contributionCount := 1 |};
                    {| date := "2024-02-27"; contributionCount := 0 |};
                    {| date := "2024-02-28"; contributionCount := 1 |}] in
  calculateStreak clock allDays = 2%nat /\ calculateLongestStreak allDays = 1%nat.
Proof. split; vm_compute; reflexivity. Qed.

Lemma best_fold (l : list ContributionDay) (a : ContributionDay) :
  let r := fold_left (fun max d =>
                        if contributionCount max <? contributionCount d then d else max)
                     l a in
  contributionCount a <= contributionCount r
  /\ Forall (fun d => contributionCount d <= contributionCount r) l
  /\ (r = a
      \/ exists before after,
           l = before ++ r :: after
           /\ Forall (fun d => contributionCount d < contributionCount r) before
           /\ contributionCount a < contributionCount r).
Proof.
  revert a. induction l as [|d l IH]; intros a; cbn [fold_left].
  - cbv zeta. split; [lia|]. split; [constructor|now left].
  - destruct (Z.ltb_spec (contributionCount a) (contributionCount d)) as [Hlt|Hge].
    + specialize (IH d). cbv zeta in IH |- *.
      set (r := fold_left _ l d) in *. destruct IH as (H1 & H2 & H3).
      split; [lia|]. split; [now constructor|]. right.
      destruct H3 as [E | (before & after & E & Hb & Hd)].
      * exists [], l. split; [simpl; now rewrite E|].
        split; [constructor|rewrite E; exact Hlt].
      * exists (d :: before), after. split; [simpl; f_equal; exact E|].
        split; [constructor; [lia|exact Hb]|lia].
    + specialize (IH a). cbv zeta in IH |- *.
      set (r := fold_left _ l a) in *. destruct IH as (H1 & H2 & H3).
      split; [exact H1|]. split; [constructor; [lia|exact H2]|].
      destruct H3 as [E | (before & after & E & Hb & Ha)]; [now left|right].
      exists (d :: before), after. split; [simpl; f_equal; exact E|].
      split; [constructor; [lia|exact Hb]|exact Ha].
Qed.

(** The best day of the stats grid: on an empty array there is none; on
    any other it is a day with the highest count, and the first such day
    in the array, which [renderStats] has sorted by date. *)
Theorem best_day_is_first_maximum :
  forall allDays : list ContributionDay,
    (allDays = [] /\ bestOf allDays = None)
    \/ exists before best after,
         allDays = before ++ best :: after
         /\ bestOf allDays = Some best
         /\ Forall (fun d => contributionCount d < contributionCount best) before
         /\ Forall (fun d => contributionCount d <= contributionCount best) after.
Proof.
  intros [|first rest]; [now left|right].
  unfold bestOf. cbn [fold_left]. rewrite Z.ltb_irrefl.
  pose proof (best_fold rest first) as H. cbv zeta in H.
  set (r := fold_left _ rest first) in *. destruct H as (H1 & H2 & H3).
  destruct H3 as [E | (before & after & E & Hb & Hf)].
  - exists [], r, rest. split; [simpl; now rewrite E|]. split; [reflexivity|].
    split; [constructor|exact H2].
  - exists (first :: before), r, after. split; [simpl; f_equal; exact E|].
    split; [reflexivity|]. split; [constructor; [exact Hf|exact Hb]|].
    assert (H2' : Forall (fun d => contributionCount d <= contributionCount r)
                    (before ++ r :: after)) by (rewrite <- E; exact H2).
    apply Forall_app in H2'. destruct H2' as [_ H2'].
    now inversion H2'.
Qed.

Lemma sum_counts_from (l : list ContributionDay) (acc : Z) :
  fold_left (fun sum d => sum + contributionCount d) l acc
  = acc + fold_left (fun sum d => sum + contributionCount d) l 0.
Proof.
  revert acc. induction l as [|d l IH]; intros acc; simpl; [lia|].
  rewrite IH, (IH (contributionCount d)). lia.
Qed.

Lemma sum_counts_bounds (l : list ContributionDay) (d : ContributionDay) :
  Forall (fun d => 0 <= contributionCount d) l ->
  0 <= fold_left (fun sum d => sum + contributionCount d) l 0
  /\ (In d l -> contributionCount d
                <= fold_left (fun sum d => sum + contributionCount d) l 0).
Proof.
  induction 1 as [|x l Hx Hl IH]; simpl; [split; [lia|contradiction]|].
  rewrite sum_counts_from. destruct IH as [IH1 IH2]. split; [lia|].
  intros [->|Hin]; [lia|]. specialize (IH2 Hin). lia.
Qed.

Lemma Forall_skipn {A} (Q : A -> Prop) (n : nat) (l : list A) :
  Forall Q l -> Forall Q (skipn n l).
Proof.
  intros H. rewrite <- (firstn_skipn n l) in H. now apply Forall_app in H.
Qed.

(** "Today" is at most "This week": with counts that are not negative,
    when every day dated today is among the last seven days in date
    order, and also when no day is dated today, which counts as 0. *)
Theorem today_count_within_week :
  forall (clock : Clock) (days : list ContributionDay),
    let allDays := sortedOldestFirst days in
    let today := todayString clock in
    Forall (fun d => 0 <= contributionCount d) days ->
    (forall d, In d allDays -> date d = today -> In d (JS.slice_from (-7) allDays)) ->
    0 <= todayCountOf today allDays <= weekCountOf allDays
    /\ ((forall d, In d days -> date d <> today) -> todayCountOf today allDays = 0).
Proof.
  intros clock days allDays today Hwf Hrecent.
  assert (Hall : Forall (fun d => 0 <= contributionCount d) allDays).
  { eapply Permutation_Forall; [|exact Hwf]. symmetry. apply sortedOldestFirst_perm. }
  assert (Hlast : Forall (fun d => 0 <= contributionCount d)
                    (JS.slice_from (-7) allDays))
    by (unfold JS.slice_from; now apply Forall_skipn).
  unfold todayCountOf, weekCountOf. split.
  - destruct (find _ allDays) as [d|] eqn:E.
    + apply find_some in E. destruct E as [Hin Hd]. apply String.eqb_eq in Hd.
      rewrite Forall_forall in Hall. split; [now apply Hall|].
      apply sum_counts_bounds; [exact Hlast|]. now apply Hrecent.
    + split; [lia|].
      exact (proj1 (sum_counts_bounds _ {| date := ""; contributionCount := 0 |} Hlast)).
  - intros Hnone. destruct (find _ allDays) as [d|] eqn:E; [|reflexivity].
    apply find_some in E. destruct E as [Hin Hd]. apply String.eqb_eq in Hd.
    exfalso. apply (Hnone d); [|exact Hd].
    eapply Permutation_in; [apply sortedOldestFirst_perm|exact Hin].
Qed.

Lemma today_count_within_week_witness :
  let clock := {| now_ms := 1709330400000; tz_offset_min := 0 |} in
  let days := [{| date := "2024-02-29"; contributionCount := 2 |};
               {| date := "2024-03-01"; contributionCount := 3 |}] in
  Forall (fun d => 0 <= contributionCount d) days
  /\ 0 <= todayCountOf (todayString clock) (sortedOldestFirst days)
     <= weekCountOf (sortedOldestFirst days).
Proof.
  cbv zeta.
  match goal with |- ?W /\ _ =>
    assert (Hw : W) by (repeat constructor; simpl; lia)
  end.
  split; [exact Hw|].
  refine (proj1 (today_count_within_week
                   {| now_ms := 1709330400000; tz_offset_min := 0 |} _ Hw _)).
  intros d Hin _. exact Hin.
Defined.

(** ** Printing *)

Lemma pbind_ok {A B} (m : Printing A) (k : A -> Printing B) (out out' : list Line) (a : A) :
  m out = Ok a out' -> pbind m k out = k a out'.
Proof. intros H. unfold pbind. now rewrite H. Qed.

Lemma pbind_failed {A B} (m : Printing A) (k : A -> Printing B) (out out' : list Line)
    (e : Raised) :
  m out = Failed e out' -> pbind m k out = Failed e out'.
Proof. intros H. unfold pbind. now rewrite H. Qed.

Lemma repeatChar_ok (host : Host) (c : N) (count : Z) :
  0 <= count <= kMaxLength host ->
  repeatChar host c count = inr (repeat c (Z.to_nat count)).
Proof.
  intros H. unfold repeatChar.
  destruct (Z.ltb_spec count 0); [lia|].
  destruct (Z.ltb_spec (kMaxLength host) count); [lia|reflexivity].
Qed.

Lemma repeatChar_negative (host : Host) (c : N) (count : Z) :
  count < 0 -> repeatChar host c count = inl RangeError.
Proof.
  intros H. unfold repeatChar. destruct (Z.ltb_spec count 0); [reflexivity|lia].
Qed.

Lemma rule_printed (host : Host) (width : Z) (out : list Line) :
  2 <= width <= kMaxLength host ->
  pbind (orRaise (repeatChar host ruleChar (width - 2)))
        (fun rule => console_log [(dimmed, units "  " ++ rule)]) out
  = Ok tt (out ++ [[(dimmed, units "  " ++ repeat ruleChar (Z.to_nat (width - 2)))]]).
Proof.
  intros H. rewrite repeatChar_ok by lia. reflexivity.
Qed.

Lemma rule_raises (host : Host) (width : Z) (out : list Line) :
  width < 2 ->
  pbind (orRaise (repeatChar host ruleChar (width - 2)))
        (fun rule => console_log [(dimmed, units "  " ++ rule)]) out
  = Failed RangeError out.
Proof.
  intros H. rewrite repeatChar_negative by lia. reflexivity.
Qed.

Lemma rule_length (width : Z) :
  2 <= width ->
  Z.of_nat (length (lineText
                      [(dimmed, units "  " ++ repeat ruleChar (Z.to_nat (width - 2)))]))
  = width.
Proof.
  intros H. unfold lineText. cbn [flat_map snd]. rewrite app_nil_r, length_app.
  rewrite repeat_length, units_length. simpl String.length. lia.
Qed.

(** *** Header *)

(** The header on a width of at least 2 (and within what the engine can
    repeat): four lines; the title line is exactly as wide as the terminal
    with the login flush right when the login fits, and has a single space
    before the login otherwise; the rule is exactly as wide as the
    terminal.  On a width below 2 the title line is printed and the rule
    raises a RangeError. *)
Theorem renderHeader_outcomes :
  forall (host : Host) (login : ustring) (total width : Z) (out : list Line),
    1 <= kMaxLength host -> width <= kMaxLength host ->
    let gap := Z.max 1 (width - 22 - Z.of_nat (length login)) in
    let titleLine := [(boldWhite, title); (unstyled, repeat space (Z.to_nat gap));
                      (dimmed, login)] in
    Z.of_nat (length (lineText titleLine))
    = Z.max width (23 + Z.of_nat (length login))
    /\ (width < 2 ->
        renderHeader host login total width out = Failed RangeError (out ++ [titleLine]))
    /\ (2 <= width ->
        exists rule totalLine,
          renderHeader host login total width out
          = Ok tt (out ++ [titleLine; rule; totalLine; []])
          /\ Z.of_nat (length (lineText rule)) = width).
Proof.
  intros host login total width out Hk Hw gap titleLine.
  assert (Hgap : 1 <= gap <= kMaxLength host) by (subst gap; lia).
  assert (E : renderHeader host login total width out
              = pbind (orRaise (repeatChar host ruleChar (width - 2)))
                  (fun rule =>
                     pbind (console_log [(dimmed, units "  " ++ rule)])
                       (fun _ =>
                          pbind (console_log
                                   [(white, units "  " ++ formatNumber host total
                                            ++ units " contributions in the last year")])
                            (fun _ => console_log [])))
                  (out ++ [titleLine])).
  { unfold renderHeader.
    change (Z.of_nat (length title)) with 22. fold gap.
    rewrite (repeatChar_ok host space gap) by lia. reflexivity. }
  split; [|split].
  - unfold titleLine, lineText. cbn [flat_map snd]. rewrite app_nil_r.
    rewrite !length_app, repeat_length.
    change (length title) with 22%nat. lia.
  - intros Hlt. rewrite E. rewrite repeatChar_negative by lia. reflexivity.
  - intros Hge. rewrite E. rewrite repeatChar_ok by lia.
    eexists _, _. split.
    + unfold orRaise, pbind, pret, console_log. rewrite <- !app_assoc. reflexivity.
    + now apply rule_length.
Qed.

Lemma renderHeader_outcomes_witness :
  let host := {| kMaxLength := 536870888; toLocaleString := numberToString |} in
  1 <= kMaxLength host /\ 80 <= kMaxLength host
  /\ exists rule totalLine,
       renderHeader host (units "octocat") 1234 80 []
       = Ok tt [[(boldWhite, title); (unstyled, repeat space 51);
                 (dimmed, units "octocat")]; rule; totalLine; []]
       /\ Z.of_nat (length (lineText rule)) = 80.
Proof.
  cbv zeta.
  match goal with |- ?A /\ ?B /\ _ =>
    assert (Ha : A) by (simpl; lia); assert (Hb : B) by (simpl; lia)
  end.
  split; [exact Ha|]. split; [exact Hb|].
  exact (proj2 (proj2 (renderHeader_outcomes
                         {| kMaxLength := 536870888; toLocaleString := numberToString |}
                         (units "octocat") 1234 80 [] Ha Hb)) ltac:(lia)).
Defined.

(** *** Stats grid *)

Lemma statsRow_ok (host : Host) (width : Z) (left right : ustring * ustring)
    (out : list Line) :
  2 <= kMaxLength host -> width <= kMaxLength host ->
  statsRow host width left right out = Ok tt (out ++ [statsLine width left right]).
Proof.
  intros Hk Hw. unfold statsRow, statsLine, col1Width, col2Width.
  replace (width - 24 - 6 - 24 - 10 - 2) with (width - 66) by lia.
  rewrite repeatChar_ok by lia. reflexivity.
Qed.

Lemma statsLine_length (width : Z) (l1 l2 r1 r2 : ustring) :
  r1 <> [] ->
  Z.of_nat (length (lineText (statsLine width (l1, l2) (r1, r2))))
  = Z.of_nat (length l1) + Z.of_nat (length l2) + Z.max 2 (width - 66)
    + Z.of_nat (length r1) + Z.of_nat (length r2).
Proof.
  intros Hr. unfold statsLine, lineText. cbn [fst snd].
  destruct r1 as [|c r1]; [congruence|].
  cbn [flat_map snd app]. rewrite app_nil_r. repeat rewrite length_app.
  rewrite repeat_length. cbn [length]. rewrite length_app. lia.
Qed.

(** The stats grid.  On an empty list of days nothing is printed and a
    TypeError is raised (there is no best day to read the count of).  On
    other days whose best day has an ISO calendar date, and a width within
    what the engine can repeat: below width 2, three rows are printed and
    the rule raises a RangeError; from width 2 on, three rows and a rule as
    wide as the terminal are printed, the first two rows are
    max(66, width - 2) characters long or longer, and exactly that long
    when "Today", "This week" and the two streaks fit their fields. *)
Theorem renderStats_outcomes :
  forall (host : Host) (clock : Clock) (days : list ContributionDay) (width : Z)
         (out : list Line),
    let allDays := sortedOldestFirst days in
    let today := todayCountOf (todayString clock) allDays in
    let week := weekCountOf allDays in
    let current := calculateStreak clock allDays in
    let longest := calculateLongestStreak allDays in
    (days = [] -> renderStats host clock days width out = Failed UncaughtTypeError out)
    /\ (forall best y m d,
          bestOf allDays = Some best ->
          JS.parseIsoDate (date best) = Some (y, m, d) ->
          2 <= kMaxLength host -> width <= kMaxLength host ->
          exists row1 row2 row3,
            (width < 2 ->
             renderStats host clock days width out
             = Failed RangeError (out ++ [row1; row2; row3]))
            /\ (2 <= width ->
                exists rule,
                  renderStats host clock days width out
                  = Ok tt (out ++ [row1; row2; row3; rule])
                  /\ Z.of_nat (length (lineText rule)) = width)
            /\ Z.max 66 (width - 2) <= Z.of_nat (length (lineText row1))
            /\ Z.max 66 (width - 2) <= Z.of_nat (length (lineText row2))
            /\ (0 <= today <= 999999 -> Z.of_nat current <= 99999 ->
                Z.of_nat (length (lineText row1)) = Z.max 66 (width - 2))
            /\ (0 <= week <= 999999 -> Z.of_nat longest <= 99999 ->
                Z.of_nat (length (lineText row2)) = Z.max 66 (width - 2))).
Proof.
  intros host clock days width out allDays today week current longest. split.
  - intros ->. reflexivity.
  - intros best y m d Hbest Hdate Hk Hw.
    destruct (formatDate_valid _ _ _ _ Hdate) as (name & _ & Hf & _).
    set (bestDate := numberToString d ++ space :: units name) in *.
    set (l1 := (pad (units "  Today") col1Width, padStart (numberToString today) 6)).
    set (l2 := (pad (units "  This week") col1Width, padStart (numberToString week) 6)).
    set (l3 := (pad (units "  Best day") col1Width,
                padStart (numberToString (contributionCount best)
                          ++ units " (" ++ bestDate ++ units ")") 16)).
    set (r1 := (pad (units "Current streak") col2Width,
                padStart (numberToString (Z.of_nat current) ++ units " days") 10)).
    set (r2 := (pad (units "Longest streak") col2Width,
                padStart (numberToString (Z.of_nat longest) ++ units " days") 10)).
    assert (E : renderStats host clock days width out
                = pbind (orRaise (repeatChar host ruleChar (width - 2)))
                    (fun rule => console_log [(dimmed, units "  " ++ rule)])
                    (out ++ [statsLine width l1 r1; statsLine width l2 r2;
                             statsLine width l3 ([], [])])).
    { unfold renderStats. fold allDays. rewrite Hbest.
      unfold pbind at 1, pret at 1. unfold pbind at 1, inModel. rewrite Hf.
      unfold pret at 1. fold today week current longest bestDate l1 l2 l3 r1 r2.
      cbn [combine forEach fst snd].
      unfold pbind at 1. unfold pbind at 1.
      rewrite statsRow_ok by assumption.
      unfold pbind at 1. rewrite statsRow_ok by assumption.
      unfold pbind at 1. rewrite statsRow_ok by assumption.
      unfold pret at 1. rewrite <- !app_assoc. reflexivity. }
    exists (statsLine width l1 r1), (statsLine width l2 r2), (statsLine width l3 ([], [])).
    assert (L1 : Z.of_nat (length (lineText (statsLine width l1 r1)))
                 = 24 + Z.max 6 (Z.of_nat (length (numberToString today)))
                   + Z.max 2 (width - 66) + 24
                   + Z.max 10 (Z.of_nat (length (numberToString (Z.of_nat current))) + 5)).
    { unfold l1, r1. rewrite statsLine_length by (vm_compute; discriminate).
      rewrite !pad_length, !padStart_length, length_app, !units_length.
      unfold col1Width, col2Width. simpl String.length. lia. }
    assert (L2 : Z.of_nat (length (lineText (statsLine width l2 r2)))
                 = 24 + Z.max 6 (Z.of_nat (length (numberToString week)))
                   + Z.max 2 (width - 66) + 24
                   + Z.max 10 (Z.of_nat (length (numberToString (Z.of_nat longest))) + 5)).
    { unfold l2, r2. rewrite statsLine_length by (vm_compute; discriminate).
      rewrite !pad_length, !padStart_length, length_app, !units_length.
      unfold col1Width, col2Width. simpl String.length. lia. }
    split; [|split; [|split; [|split; [|split]]]].
    + intros Hlt. rewrite E. now apply rule_raises.
    + intros Hge. eexists. split.
      * rewrite E, rule_printed by lia. rewrite <- app_assoc. reflexivity.
      * now apply rule_length.
    + lia.
    + lia.
    + intros Ht Hc.
      pose proof (numberToString_length today 6 ltac:(simpl; lia) ltac:(lia)).
      pose proof (numberToString_length (Z.of_nat current) 5 ltac:(simpl; lia) ltac:(lia)).
      lia.
    + intros Ht Hc.
      pose proof (numberToString_length week 6 ltac:(simpl; lia) ltac:(lia)).
      pose proof (numberToString_length (Z.of_nat longest) 5 ltac:(simpl; lia) ltac:(lia)).
      lia.
Qed.

Lemma renderStats_outcomes_witness :
  let host := {| kMaxLength := 536870888; toLocaleString := numberToString |} in
  let clock := {| now_ms := 1709330400000; tz_offset_min := 0 |} in
  renderStats host clock [] 80 [] = Failed UncaughtTypeError [].
Proof.
  cbv zeta.
  exact (proj1 (renderStats_outcomes
                  {| kMaxLength := 536870888; toLocaleString := numberToString |}
                  {| now_ms := 1709330400000; tz_offset_min := 0 |} [] 80 [])
               eq_refl).
Defined.

(** *** Heatmap *)

Lemma arraySet_filled (chars : list (option ascii)) (i : nat) (c : ascii) :
  (i < length chars)%nat -> Forall (fun x => x <> None) chars ->
  Forall (fun x => x <> None) (arraySet chars i c).
Proof.
  revert i. induction chars as [|x chars IH]; intros [|i] Hi H; simpl in *; try lia.
  - inversion H; subst. constructor; [discriminate|assumption].
  - inversion H; subst. constructor; [assumption|]. apply IH; [lia|assumption].
Qed.

Lemma writeLabel_filled (label : string) (chars : list (option ascii)) (col i : nat) :
  (col + i + String.length label <= length chars)%nat ->
  Forall (fun x => x <> None) chars ->
  Forall (fun x => x <> None) (writeLabel chars col i label).
Proof.
  revert chars i. induction label as [|c label IH]; intros chars i H Hf; simpl in *.
  - exact Hf.
  - apply IH; [rewrite arraySet_length; lia|].
    apply arraySet_filled; [lia|exact Hf].
Qed.

Lemma writeAll_filled (placed : list (nat * string)) (chars : list (option ascii)) :
  Forall (fun p => (labelEnd p <= length chars)%nat) placed ->
  Forall (fun x => x <> None) chars ->
  Forall (fun x => x <> None) (writeAll placed chars).
Proof.
  unfold writeAll. revert chars.
  induction placed as [|p placed IH]; intros chars H Hf; simpl; [exact Hf|].
  inversion H as [|? ? Hp Hrest]; subst. unfold labelEnd in Hp.
  apply IH.
  - rewrite writeLabel_length by lia. exact Hrest.
  - apply writeLabel_filled; [lia|exact Hf].
Qed.

Lemma joinChars_length (chars : list (option ascii)) :
  Forall (fun x => x <> None) chars ->
  String.length (joinChars chars) = length chars.
Proof.
  induction 1 as [|[c|] chars Hx _ IH]; simpl; [reflexivity|now rewrite IH|congruence].
Qed.

Lemma string_length_append (s t : string) :
  String.length (s ++ t) = (String.length s + String.length t)%nat.
Proof. induction s as [|c s IH]; simpl; [reflexivity|now rewrite IH]. Qed.

(** With valid first days the month row is written in full: as many
    characters as the grid has columns, none of them a hole. *)
Lemma monthChars_filled (calendar : CalendarData) (width : Z) :
  Forall ValidWeek (displayWeeksOf calendar width) ->
  exists row,
    monthChars calendar width = Some row
    /\ length row = (length (displayWeeksOf calendar width)
                     * cellWidthOf calendar width)%nat
    /\ Forall (fun x => x <> None) row.
Proof.
  intros Hvalid.
  set (cw := cellWidthOf calendar width).
  set (shown := displayWeeksOf calendar width) in *.
  set (n := (length shown * cw)%nat).
  set (positions := monthPositionsOf cw shown).
  set (placed := placedLabels (definedLabels positions) n (-1)).
  assert (Hmap : positions
                 = map (fun p => (fst p, Some (snd p))) (definedLabels positions))
    by (apply definedLabels_all, monthPositionsLoop_defined, Hvalid).
  assert (Hblank : length (blankChars n) = n) by apply repeat_length.
  assert (Hfit : Forall (fun p => (labelEnd p <= length (blankChars n))%nat) placed).
  { apply Forall_forall. intros p Hp. apply placedLabels_In in Hp. lia. }
  exists (writeAll placed (blankChars n)). split; [|split].
  - unfold monthChars. fold cw shown positions n.
    rewrite Hmap, monthRowLoop_placed. now rewrite Hblank.
  - rewrite writeAll_length; assumption.
  - apply writeAll_filled; [exact Hfit|].
    unfold blankChars. apply Forall_forall. intros x Hx.
    apply repeat_spec in Hx. subst. discriminate.
Qed.

Lemma heatmapCells_ok (cw : nat) (cells : list (option nat)) (out : list Line) :
  Forall (fun cell => forall level, cell = Some level -> (level <= 4)%nat) cells ->
  exists line,
    heatmapCells cw cells out = Ok line out
    /\ length (lineText line) = (length cells * cw)%nat.
Proof.
  induction 1 as [|cell cells Hc _ (line & E & L)]; simpl.
  - exists []. split; reflexivity.
  - assert (exists style, heatmapCell cw cell out = Ok (style, repeat space cw) out)
      as (style & Ec).
    { unfold heatmapCell. destruct cell as [level|]; [|eexists; reflexivity].
      specialize (Hc level eq_refl).
      destruct (nth_error HEATMAP_COLOURS level) as [colour|] eqn:En;
        [eexists; reflexivity|].
      apply nth_error_None in En. simpl in En. lia. }
    exists ((style, repeat space cw) :: line). split.
    + unfold pbind. rewrite Ec, E. reflexivity.
    + unfold lineText in *. simpl. rewrite length_app, repeat_length, L. lia.
Qed.

Lemma dayRow_levels (quartiles : list (option Z)) (shown : list ContributionWeek)
    (dayIdx : nat) :
  Forall (fun cell => forall level, cell = Some level -> (level <= 4)%nat)
    (dayRow quartiles shown dayIdx)
  /\ length (dayRow quartiles shown dayIdx) = length shown.
Proof.
  unfold dayRow. split; [|apply length_map].
  apply Forall_map, Forall_forall. intros week _ level H.
  destruct (nth_error (contributionDays week) dayIdx) as [day|]; [|discriminate].
  simpl in H. inversion H. apply getHeatmapLevel_range.
Qed.

Lemma dayRowLine_ok (heatmap : Heatmap) (quartiles : list (option Z)) (dayIdx : nat)
    (out : list Line) :
  (dayIdx < 7)%nat ->
  exists line,
    dayRowLine heatmap quartiles dayIdx out = Ok tt (out ++ [line])
    /\ length (lineText line)
       = (8 + length (displayWeeks heatmap) * cellWidth heatmap)%nat.
Proof.
  intros Hidx. unfold dayRowLine.
  assert (exists label, nth_error dayLabels dayIdx = Some label
                        /\ String.length label = 3%nat) as (label & -> & Hl).
  { do 7 (destruct dayIdx as [|dayIdx]; [eexists; split; reflexivity|]). lia. }
  destruct (dayRow_levels quartiles (displayWeeks heatmap) dayIdx) as [Hlev Hlen].
  destruct (heatmapCells_ok (cellWidth heatmap) _ out Hlev) as (cells & E & L).
  eexists. split.
  - unfold pbind at 1, pret at 1. unfold pbind. rewrite E. reflexivity.
  - unfold lineText in *. cbn [flat_map snd]. rewrite !length_app, L, Hlen.
    pose proof (pad_length (units label) dayLabelWidth) as P.
    rewrite units_length, Hl in P. unfold dayLabelWidth, indent in *.
    simpl length at 1. lia.
Qed.

Lemma forEach_ok {A} (Q : Line -> Prop) (xs : list A) (body : A -> Printing unit)
    (out : list Line) :
  (forall x out', In x xs ->
     exists line, body x out' = Ok tt (out' ++ [line]) /\ Q line) ->
  exists lines,
    forEach xs body out = Ok tt (out ++ lines)
    /\ length lines = length xs /\ Forall Q lines.
Proof.
  revert out. induction xs as [|x xs IH]; intros out H; simpl.
  - exists []. rewrite app_nil_r. repeat split. constructor.
  - destruct (H x out (or_introl eq_refl)) as (line & E & Hq).
    destruct (IH (out ++ [line]) (fun y o Hy => H y o (or_intror Hy)))
      as (lines & E' & Hl & Hf).
    exists (line :: lines). split; [|split].
    + unfold pbind. rewrite E, E', <- app_assoc. reflexivity.
    + simpl. now rewrite Hl.
    + now constructor.
Qed.

Lemma rowIndices_below_7 (calendar : CalendarData) (width : Z) (dayIdx : nat) :
  In dayIdx (rowIndicesOf calendar width) -> (dayIdx < 7)%nat.
Proof.
  destruct (cellWidthOf_cases calendar width) as [(_ & _ & ->)|(_ & _ & ->)];
    simpl; lia.
Qed.

(** The grid of the heatmap lines up: when every week shown starts with a
    day of ISO calendar date, [renderHeatmap] prints its title, a blank
    line, the month row, one row per day index, a blank line and the
    legend; the month row and every day row are exactly 8 characters plus
    the columns of the weeks shown long, which is within a width of 8 or
    more; and no cell misses its colour. *)
Theorem heatmap_lines_aligned :
  forall (calendar : CalendarData) (width : Z) (out : list Line),
    let heatmap := renderHeatmap calendar width in
    let columns := (8 + length (displayWeeks heatmap) * cellWidth heatmap)%nat in
    Forall ValidWeek (displayWeeks heatmap) ->
    exists monthLine dayLines,
      printHeatmap calendar width out
      = Ok tt (out ++ [[(boldWhite, units "  Contribution Graph")]; []; monthLine]
                   ++ dayLines ++ [[]; legendLine])
      /\ length dayLines = length (rowIndices heatmap)
      /\ Forall (fun line => length (lineText line) = columns) (monthLine :: dayLines)
      /\ (8 <= width -> Z.of_nat columns <= width).
Proof.
  intros calendar width out heatmap columns Hvalid.
  subst heatmap columns. cbn [renderHeatmap displayWeeks cellWidth rowIndices] in *.
  destruct (monthChars_filled calendar width Hvalid) as (row & Hrow & Hlen & Hfull).
  set (shown := displayWeeksOf calendar width) in *.
  set (cw := cellWidthOf calendar width) in *.
  set (text := (String.concat "" (repeat " " (Z.to_nat (indent + dayLabelWidth)))
                ++ joinChars row)%string).
  set (start := ((out ++ [[(boldWhite, units "  Contribution Graph")]]) ++ [[]])
                ++ [[(dimmed, units text)]]).
  destruct (forEach_ok
              (fun line => length (lineText line) = (8 + length shown * cw)%nat)
              (rowIndicesOf calendar width)
              (dayRowLine (renderHeatmap calendar width)
                          (computeQuartiles (getAllDays calendar)))
              start) as (dayLines & E & Hl & Hf).
  { intros dayIdx out' Hin.
    apply (dayRowLine_ok (renderHeatmap calendar width)).
    now apply (rowIndices_below_7 calendar width). }
  exists [(dimmed, units text)], dayLines. split; [|split; [|split]].
  - unfold printHeatmap. cbv zeta. cbn [renderHeatmap monthRow rowIndices].
    rewrite Hrow. cbn [option_map inModel]. fold text.
    unfold pbind, console_log, pret.
    match goal with
    | |- context [forEach ?xs ?body ?o] =>
        replace (forEach xs body o) with (Ok tt (start ++ dayLines))
          by (symmetry; exact E)
    end.
    unfold start. rewrite <- !app_assoc. reflexivity.
  - exact Hl.
  - constructor; [|exact Hf].
    unfold lineText. cbn [flat_map snd]. rewrite app_nil_r, units_length.
    unfold text. rewrite string_length_append, joinChars_length, Hlen by exact Hfull.
    reflexivity.
  - intros Hw.
    pose proof (displayWeeks_fit calendar width) as Hfit.
    unfold availableOf, indent, dayLabelWidth in Hfit. fold shown cw in Hfit. lia.
Qed.

Lemma heatmap_lines_aligned_witness :
  let calendar :=
    {| totalContributions := 6;
       weeks := [ {| contributionDays :=
                       [{| date := "2024-01-28"; contributionCount := 1 |};
                        {| date := "2024-01-29"; contributionCount := 0 |}] |};
                  {| contributionDays :=
                       [{| date := "2024-02-04"; contributionCount := 2 |};
                        {| date := "2024-02-05"; contributionCount := 3 |}] |} ] |} in
  Forall ValidWeek (displayWeeks (renderHeatmap calendar 40))
  /\ match printHeatmap calendar 40 [] with
     | Ok _ lines => length lines = 12%nat
     | _ => False
     end.
Proof.
  cbv zeta.
  match goal with |- ?V /\ _ =>
    assert (Hv : V) by
      (repeat constructor;
       eexists; eexists; eexists; eexists; (split; [reflexivity|reflexivity]))
  end.
  split; [exact Hv|].
  destruct (heatmap_lines_aligned _ 40 [] Hv) as (monthLine & dayLines & E & L & _).
  rewrite E. cbn [app length]. rewrite length_app, L. reflexivity.
Defined.

Lemma displayWeeks_none_below_8 (calendar : CalendarData) (width : Z) :
  availableOf width < 0 -> displayWeeksOf calendar width = [].
Proof.
  intros Hneg. unfold displayWeeksOf, maxWeeksOf, JS.slice_from. cbv zeta.
  set (n := Z.of_nat (length (weeks calendar))).
  assert (Hq : availableOf width / Z.of_nat (cellWidthOf calendar width) < 0).
  { destruct (cellWidthOf_cases calendar width) as [(_ & -> & _)|(_ & -> & _)].
    - apply Z.div_lt_upper_bound; lia.
    - apply Z.div_lt_upper_bound; lia. }
  destruct (Z.ltb_spec (n - Z.min n (availableOf width / Z.of_nat (cellWidthOf calendar width))) 0);
    [lia|].
  rewrite Z.min_r by lia. unfold n. rewrite Nat2Z.id. apply skipn_all.
Qed.

(** No week is dropped from the heatmap exactly when there are at most as
    many weeks as columns left of the width after the 8 columns of indent
    and day labels, or when there is no week at all. *)
Theorem heatmap_shows_all_weeks_iff :
  forall (calendar : CalendarData) (width : Z),
    displayWeeks (renderHeatmap calendar width) = weeks calendar
    <-> (Z.of_nat (length (weeks calendar)) <= width - 8 \/ weeks calendar = []).
Proof.
  intros calendar width. cbn [renderHeatmap displayWeeks].
  destruct (displayWeeks_suffix calendar width) as (dropped & Hsuffix).
  assert (Hlen : length (weeks calendar)
                 = (length dropped + length (displayWeeksOf calendar width))%nat)
    by (rewrite Hsuffix at 1; apply length_app).
  assert (Hav : availableOf width = width - 8)
    by (unfold availableOf, indent, dayLabelWidth; lia).
  split.
  - intros Hall.
    destruct (Nat.eq_dec (length (weeks calendar)) 0) as [Hz|Hnz];
      [right; now apply length_zero_iff_nil|left].
    destruct (Z_lt_le_dec (availableOf width) 0) as [Hneg|Hpos].
    + apply (displayWeeks_none_below_8 calendar) in Hneg.
      rewrite Hall in Hneg. now rewrite Hneg in Hnz.
    + pose proof (displayWeeks_fit calendar width Hpos) as Hfit.
      rewrite Hall in Hfit.
      destruct (cellWidthOf_cases calendar width) as [(_ & E & _)|(_ & E & _)];
        rewrite E in Hfit; lia.
  - intros [Hfits|Hnone].
    + assert (Hpos : 0 <= availableOf width) by lia.
      pose proof (displayWeeks_length calendar width Hpos) as Hshown.
      assert (Hq : Z.of_nat (length (weeks calendar))
                   <= availableOf width / Z.of_nat (cellWidthOf calendar width)).
      { destruct (cellWidthOf_cases calendar width) as [(H2 & -> & _)|(_ & -> & _)].
        - apply Z.div_le_lower_bound; lia.
        - change (Z.of_nat 1) with 1. rewrite Z.div_1_r. lia. }
      rewrite Z.min_l in Hshown by exact Hq.
      assert (Hd : dropped = []) by (apply length_zero_iff_nil; lia).
      rewrite Hd in Hsuffix. symmetry. exact Hsuffix.
    + unfold displayWeeksOf, JS.slice_from. rewrite Hnone. cbv zeta.
      now rewrite skipn_nil.
Qed.

(** Whatever the terminal reports, [main] hands the heatmap a width of at
    most 100, so a calendar of 47 weeks or more (a year has 53) is drawn
    with cells one column wide and the three rows Mon, Wed and Fri; on the
    80 columns taken when the terminal reports none, so is a calendar of
    37 weeks or more. *)
Theorem full_year_heatmap_is_compact :
  forall (calendar : CalendarData) (columns : option Z),
    let heatmap := renderHeatmap calendar (widthOf columns) in
    let n := length (weeks calendar) in
    ((47 <= n)%nat ->
     cellWidth heatmap = 1%nat /\ rowIndices heatmap = [1; 3; 5]%nat)
    /\ (columns = None ->
        ((37 <= n)%nat ->
         cellWidth heatmap = 1%nat /\ rowIndices heatmap = [1; 3; 5]%nat)
        /\ ((n <= 36)%nat ->
            cellWidth heatmap = 2%nat
            /\ rowIndices heatmap = [0; 1; 2; 3; 4; 5; 6]%nat
            /\ displayWeeks heatmap = weeks calendar)).
Proof.
  intros calendar columns heatmap n. subst heatmap n.
  cbn [renderHeatmap cellWidth rowIndices displayWeeks].
  assert (Hav : availableOf (widthOf columns) = widthOf columns - 8)
    by (unfold availableOf, indent, dayLabelWidth; lia).
  assert (Hcap : widthOf columns <= 100) by (unfold widthOf; lia).
  split; [|intros ->; split].
  - intros Hn.
    destruct (cellWidthOf_cases calendar (widthOf columns))
      as [(H & _)|(_ & -> & ->)]; [lia|now split].
  - intros Hn. change (widthOf None) with 80 in *.
    destruct (cellWidthOf_cases calendar 80) as [(H & _)|(_ & -> & ->)];
      [lia|now split].
  - intros Hn. change (widthOf None) with 80 in *.
    destruct (cellWidthOf_cases calendar 80) as [(H & E1 & E2)|(H & _)]; [|lia].
    rewrite E1, E2. split; [reflexivity|split; [reflexivity|]].
    destruct (displayWeeks_suffix calendar 80) as (dropped & Hsuffix).
    assert (Hlen : length (weeks calendar)
                   = (length dropped + length (displayWeeksOf calendar 80))%nat)
      by (rewrite Hsuffix at 1; apply length_app).
    assert (Hpos : 0 <= availableOf 80) by lia.
    pose proof (displayWeeks_length calendar 80 Hpos) as Hshown.
    rewrite E1, Z.min_l in Hshown
      by (apply Z.div_le_lower_bound; lia).
    assert (Hd : dropped = []) by (apply length_zero_iff_nil; lia).
    rewrite Hd in Hsuffix. symmetry. exact Hsuffix.
Qed.

(** *** Quartiles *)

Lemma StronglySorted_nth_le (l : list Z) (i j : nat) (a b : Z) :
  StronglySorted Z.le l -> (i <= j)%nat ->
  nth_error l i = Some a -> nth_error l j = Some b -> a <= b.
Proof.
  intros Hs. revert i j. induction Hs as [|x l Hs IH Hx]; intros i j Hij Ha Hb.
  - destruct i; discriminate.
  - destruct i as [|i], j as [|j]; simpl in *; try lia.
    + inversion Ha; inversion Hb; subst. lia.
    + inversion Ha; subst. apply nth_error_In in Hb.
      rewrite Forall_forall in Hx. now apply Hx.
    + apply (IH i j); [lia|assumption|assumption].
Qed.

Lemma nonZeroCounts_In (days : list ContributionDay) (c : Z) :
  In c (nonZeroCounts days) <-> In c (map contributionCount days) /\ 0 < c.
Proof.
  split.
  - intros H. apply (Permutation_in _ (nonZeroCounts_perm days)) in H.
    apply filter_In in H. destruct H as [H Hc]. split; [exact H|].
    now apply Z.ltb_lt.
  - intros [H Hc].
    apply (Permutation_in _ (Permutation_sym (nonZeroCounts_perm days))).
    apply filter_In. split; [exact H|now apply Z.ltb_lt].
Qed.

Lemma quartileIndex_mono (n j k : nat) :
  (j <= k)%nat -> (quartileIndex n j <= quartileIndex n k)%nat.
Proof.
  intros H. unfold quartileIndex. apply Nat.Div0.div_le_mono. nia.
Qed.

(** The thresholds of the heatmap: when no day has a positive count they
    are the fixed 1, 2, 3, 4; otherwise they are three positive counts that
    occur in the calendar, in ascending order, and a day with the smallest
    positive count of the calendar is drawn at level 1. *)
Theorem quartiles_are_ascending_counts :
  forall (days : list ContributionDay),
    (Forall (fun d => contributionCount d <= 0) days
     /\ computeQuartiles days = [Some 1; Some 2; Some 3; Some 4])
    \/ (exists q1 q2 q3,
          computeQuartiles days = [Some q1; Some q2; Some q3]
          /\ 0 < q1 /\ q1 <= q2 /\ q2 <= q3
          /\ In q1 (map contributionCount days)
          /\ In q2 (map contributionCount days)
          /\ In q3 (map contributionCount days)
          /\ (forall d,
                In d days -> 0 < contributionCount d ->
                (forall d', In d' days -> 0 < contributionCount d' ->
                            contributionCount d <= contributionCount d') ->
                getHeatmapLevel (contributionCount d) (computeQuartiles days)
                = 1%nat)).
Proof.
  intros days. unfold computeQuartiles. cbv zeta.
  pose proof (nonZeroCounts_sorted days) as Hsorted.
  pose proof (nonZeroCounts_In days) as Hin.
  destruct (nonZeroCounts days) as [|z l] eqn:Hnz.
  - left. split; [|reflexivity].
    apply Forall_forall. intros d Hd.
    destruct (Z_le_gt_dec (contributionCount d) 0) as [H|H]; [exact H|].
    exfalso. apply (proj2 (Hin (contributionCount d))).
    split; [now apply in_map|lia].
  - right. set (nz := z :: l) in *. set (n := length nz).
    assert (Hn : (0 < n)%nat) by (unfold n, nz; simpl; lia).
    assert (Hget : forall k, (k <= 3)%nat ->
                     exists q, nth_error nz (quartileIndex n k) = Some q).
    { intros k Hk. pose proof (quartileIndex_lt n k Hn Hk) as Hlt.
      destruct (nth_error nz (quartileIndex n k)) as [q|] eqn:E; [now exists q|].
      apply nth_error_None in E. unfold n in *. lia. }
    destruct (Hget 1%nat) as (q1 & E1); [lia|].
    destruct (Hget 2%nat) as (q2 & E2); [lia|].
    destruct (Hget 3%nat) as (q3 & E3); [lia|].
    exists q1, q2, q3. rewrite E1, E2, E3.
    pose proof (proj1 (Hin q1) (nth_error_In _ _ E1)) as [M1 P1].
    pose proof (proj1 (Hin q2) (nth_error_In _ _ E2)) as [M2 _].
    pose proof (proj1 (Hin q3) (nth_error_In _ _ E3)) as [M3 _].
    split; [reflexivity|]. split; [exact P1|].
    split; [apply (StronglySorted_nth_le nz _ _ _ _ Hsorted
                     (quartileIndex_mono n 1 2 ltac:(lia)) E1 E2)|].
    split; [apply (StronglySorted_nth_le nz _ _ _ _ Hsorted
                     (quartileIndex_mono n 2 3 ltac:(lia)) E2 E3)|].
    split; [exact M1|]. split; [exact M2|]. split; [exact M3|].
    intros d Hd Hpos Hmin.
    apply in_map_iff in M1. destruct M1 as (d1 & Hc1 & Hd1).
    assert (Hle : contributionCount d <= q1)
      by (rewrite <- Hc1; apply Hmin; [exact Hd1|lia]).
    unfold getHeatmapLevel, JS.get, JS.leb_undef. cbn [nth_error].
    destruct (Z.eqb_spec (contributionCount d) 0); [lia|].
    destruct (Z.leb_spec (contributionCount d) q1); [reflexivity|lia].
Qed.

(** *** Main *)

Lemma fetch_returns_or_exits (rt : Runtime) (p : Process) :
  (exists d, FetchedFrom rt d)
  \/ fetchContributions rt p = (Exit 1, afterFailure p).
Proof.
  destruct (execSync rt ghCommand fetchTimeout) as [why|out] eqn:H1;
    [right; now apply (fetch_exec_throws rt p why)|].
  destruct (JSON_parse rt out) as [json|] eqn:H2;
    [|right; now apply (fetch_parse_fails rt p out)].
  assert (Hthrow : fetchTry rt p = (Throw TypeError, afterRun p) ->
                   fetchContributions rt p = (Exit 1, afterFailure p)).
  { intros H. unfold fetchContributions.
    rewrite (tryCatch_throw _ _ p (afterRun p) TypeError); [apply catch_block|exact H]. }
  destruct (getProp_cases (Some json) "data") as [(data & F1 & _)|[N1 _]].
  2:{ right. apply Hthrow. unfold fetchTry.
      rewrite (bind_exec_returns _ _ _ _ H1), (bind_parse_ok _ _ _ _ _ H2).
      now apply bind_getProp_throws. }
  destruct (getProp_cases data "viewer") as [(viewer & F2 & _)|[N2 _]].
  2:{ right. apply Hthrow. unfold fetchTry.
      rewrite (bind_exec_returns _ _ _ _ H1), (bind_parse_ok _ _ _ _ _ H2).
      rewrite (bind_getProp _ _ _ _ _ F1).
      now apply bind_getProp_throws. }
  destruct (getProp_cases viewer "login") as [(lg & F3 & _)|[N3 _]].
  2:{ right. apply Hthrow. unfold fetchTry.
      rewrite (bind_exec_returns _ _ _ _ H1), (bind_parse_ok _ _ _ _ _ H2).
      rewrite (bind_getProp _ _ _ _ _ F1), (bind_getProp _ _ _ _ _ F2).
      now apply bind_getProp_throws. }
  destruct (getProp_cases viewer "contributionsCollection")
    as [(collection & F4 & _)|[N4 _]].
  2:{ exfalso. apply HasField_defined in F3. destruct N4; tauto. }
  destruct (getProp_cases collection "contributionCalendar")
    as [(cal & F5 & _)|[N5 _]].
  - left. exists {| login := lg; calendar := cal |}.
    exists out, json, data, viewer, collection. cbn [login calendar].
    repeat (split; [assumption|]). assumption.
  - right. apply Hthrow. unfold fetchTry.
    rewrite (bind_exec_returns _ _ _ _ H1), (bind_parse_ok _ _ _ _ _ H2).
    rewrite (bind_getProp _ _ _ _ _ F1), (bind_getProp _ _ _ _ _ F2).
    rewrite (bind_getProp _ _ _ _ _ F3), (bind_getProp _ _ _ _ _ F4).
    now apply bind_getProp_throws.
Qed.

(** [main] runs the command exactly once whatever happens next, and when
    the data cannot be fetched it writes nothing on standard output: the
    two diagnostic lines go to standard error and the process exits with
    code 1 before anything is drawn. *)
Theorem main_fetches_once_and_fails_silently :
  forall (host : Host) (rt : Runtime) (clock : Clock) (columns : option Z)
         (p : Process),
    let run := main host rt clock columns p in
    executed (process run) = executed p ++ [(ghCommand, fetchTimeout)]
    /\ ((exists d, FetchedFrom rt d)
        \/ (ending run = ExitedWith 1 /\ stdout run = []
            /\ stderrLines (process run) = stderrLines p ++ failureLines)).
Proof.
  intros host rt clock columns p run. subst run. unfold main. cbv zeta.
  destruct (fetch_returns_or_exits rt p) as [(d & Hd)|Hfail].
  - rewrite (fetch_succeeds rt p d Hd).
    assert (Hrest : forall r : MainRun,
               process r = afterRun p ->
               executed (process r) = executed p ++ [(ghCommand, fetchTimeout)]
               /\ ((exists d, FetchedFrom rt d)
                   \/ (ending r = ExitedWith 1 /\ stdout r = []
                       /\ stderrLines (process r) = stderrLines p ++ failureLines))).
    { intros r Hp. rewrite Hp. split; [reflexivity|left]. now exists d. }
    destruct (loginOf (login d)), (calendarOf (calendar d));
      try (apply Hrest; reflexivity).
    destruct (dashboard host clock u c (widthOf columns) []);
      apply Hrest; reflexivity.
  - rewrite Hfail. cbn [process ending stdout]. split; [reflexivity|right].
    repeat split.
Qed.

Lemma renderHeader_ok (host : Host) (login : ustring) (total width : Z)
    (out : list Line) :
  1 <= kMaxLength host -> 2 <= width <= kMaxLength host ->
  exists titleLine rule totalLine,
    renderHeader host login total width out
    = Ok tt (out ++ [titleLine; rule; totalLine; []]).
Proof.
  intros Hk Hw. unfold renderHeader. cbv zeta.
  rewrite (repeatChar_ok host space) by lia.
  rewrite (repeatChar_ok host ruleChar) by lia.
  eexists _, _, _.
  unfold orRaise, pbind, pret, console_log. rewrite <- !app_assoc. reflexivity.
Qed.

(** A calendar without a single day stops the dashboard: after the blank
    line and the four lines of the header, reading the best day's count
    raises a TypeError that nothing catches, so neither the statistics nor
    the charts are printed. *)
Theorem main_stops_on_a_calendar_without_days :
  forall (host : Host) (rt : Runtime) (clock : Clock) (columns : option Z)
         (p : Process) (d : GitHubData) (user : ustring) (cal : CalendarData),
    FetchedFrom rt d ->
    loginOf (login d) = Some user ->
    calendarOf (calendar d) = Some cal ->
    getAllDays cal = [] ->
    2 <= widthOf columns -> 100 <= kMaxLength host ->
    exists titleLine rule totalLine,
      main host rt clock columns p
      = {| ending := Uncaught UncaughtTypeError;
           stdout := [[]; titleLine; rule; totalLine; []];
           process := afterRun p |}.
Proof.
  intros host rt clock columns p d user cal Hd Hu Hc Hdays Hw Hk.
  assert (Hcap : widthOf columns <= 100) by (unfold widthOf; lia).
  destruct (renderHeader_ok host user (totalContributions cal) (widthOf columns) [[]])
    as (titleLine & rule & totalLine & E); [lia|lia|].
  exists titleLine, rule, totalLine.
  unfold main. cbv zeta. rewrite (fetch_succeeds rt p d Hd), Hu, Hc.
  unfold dashboard. cbv zeta. rewrite Hdays.
  rewrite (pbind_ok _ _ [] [[]] tt) by reflexivity.
  rewrite (pbind_ok _ _ _ _ tt E).
  rewrite (pbind_failed _ _ _ ([[]] ++ [titleLine; rule; totalLine; []])
             UncaughtTypeError) by reflexivity.
  reflexivity.
Qed.

Lemma main_stops_on_a_calendar_without_days_witness :
  let calendarDoc := JObject [("totalContributions"%string, JNumber (S754_zero false));
                              ("weeks"%string, JArray [])] in
  let doc :=
    JObject
      [("data"%string,
        JObject
          [("viewer"%string,
            JObject
              [("login"%string, JString "octocat");
               ("contributionsCollection"%string,
                JObject [("contributionCalendar"%string, calendarDoc)])])])] in
  let rt := {| execSync := fun _ _ => ExecReturns "document";
               JSON_parse := fun _ => Some doc |} in
  let host := {| kMaxLength := 536870888; toLocaleString := numberToString |} in
  let clock := {| now_ms := 1709330400000; tz_offset_min := 0 |} in
  let p := {| stderrLines := []; executed := [] |} in
  ending (main host rt clock None p) = Uncaught UncaughtTypeError
  /\ length (stdout (main host rt clock None p)) = 5%nat.
Proof.
  cbv zeta.
  match goal with
  | |- ending (main ?host ?rt ?clock ?columns ?p) = _ /\ _ =>
      destruct (main_stops_on_a_calendar_without_days host rt clock columns p
                  {| login := Some (JString "octocat");
                     calendar := Some (JObject [("totalContributions"%string,
                                                 JNumber (S754_zero false));
                                                ("weeks"%string, JArray [])]) |}
                  (units "octocat")
                  {| totalContributions := 0; weeks := [] |})
        as (titleLine & rule & totalLine & E)
  end.
  - eexists _, _, _, _, _. cbn [login calendar execSync JSON_parse].
    split; [reflexivity|]. split; [reflexivity|].
    split; [apply HasField_object|]. cbn [lookupField String.eqb Ascii.eqb Bool.eqb].
    split; [apply HasField_object|].
    split; [apply HasField_object|].
    split; [apply HasField_object|].
    apply HasField_object.
  - reflexivity.
  - reflexivity.
  - reflexivity.
  - unfold widthOf. lia.
  - cbn [kMaxLength]. lia.
  - rewrite E. split; reflexivity.
Defined.

(** *** The bar chart as printed *)

Lemma barLine_of_zero_count (host : Host) (days : list ContributionDay) (width : Z)
    (row : BarRow) (out : list Line) (y m d : Z) :
  0 <= kMaxLength host ->
  In row (renderBarChart days width) ->
  contributionCount (barDay row) = 0 ->
  JS.parseIsoDate (date (barDay row)) = Some (y, m, d) ->
  exists label,
    barLine host row out
    = Ok tt (out ++ [[(dimmed, label); (BAR_COLOUR, []); (white, units "    0")]])
    /\ length label = 10%nat.
Proof.
  intros Hk Hin Hc Hp.
  destruct (formatDate_valid _ _ _ _ Hp) as (name & _ & Hf & Hl).
  assert (Hbar : repeatCharNum host blockChar (barLen row) = inr []).
  { unfold renderBarChart in Hin.
    apply in_map_iff in Hin. destruct Hin as (day & <- & _). simpl in *.
    unfold repeatCharNum. rewrite barLen_of_zero_count; trivial.
    - unfold repeatChar. simpl.
      destruct (Z.ltb_spec (kMaxLength host) 0); [lia|reflexivity].
    - apply maxCountOf_spec.
    - unfold barMaxWidthOf. lia. }
  unfold barLine, pbind, inModel. rewrite Hf. unfold pret at 1.
  rewrite Hbar, Hc. eexists. split; [reflexivity|].
  rewrite length_app, units_length. simpl String.length.
  pose proof (pad_length (numberToString d ++ space :: units name) labelWidth) as P.
  unfold labelWidth in *. lia.
Qed.

(** The chart of a fortnight without contributions: when none of the days
    shown has a contribution (and each has an ISO calendar date), nothing
    fails for a division by zero; the title, a blank line, one line per
    day with a ten character label, an empty bar and the count 0, and the
    rule as wide as the terminal are printed. *)
Theorem bar_chart_without_contributions :
  forall (host : Host) (days : list ContributionDay) (width : Z) (out : list Line),
    2 <= width <= kMaxLength host ->
    Forall (fun day => contributionCount day = 0
                       /\ exists y m d, JS.parseIsoDate (date day) = Some (y, m, d))
           (last14 days) ->
    exists lines rule,
      printBarChart host days width out
      = Ok tt (out ++ [[(boldWhite, units "  Last 14 Days")]; []] ++ lines ++ [rule])
      /\ length lines = Nat.min 14 (length days)
      /\ Forall (fun line =>
                   exists label,
                     line = [(dimmed, label); (BAR_COLOUR, []);
                             (white, units "    0")]
                     /\ length label = 10%nat) lines
      /\ Z.of_nat (length (lineText rule)) = width.
Proof.
  intros host days width out Hw Hquiet.
  set (start := (out ++ [[(boldWhite, units "  Last 14 Days")]]) ++ [[]]).
  destruct (forEach_ok
              (fun line =>
                 exists label,
                   line = [(dimmed, label); (BAR_COLOUR, []); (white, units "    0")]
                   /\ length label = 10%nat)
              (renderBarChart days width) (barLine host) start)
    as (lines & E & Hl & Hf).
  { intros row out' Hin.
    assert (Hday : In (barDay row) (last14 days)).
    { unfold renderBarChart in Hin. apply in_map_iff in Hin.
      destruct Hin as (day & <- & Hday). exact Hday. }
    rewrite Forall_forall in Hquiet.
    destruct (Hquiet _ Hday) as (Hc & y & m & d & Hp).
    destruct (barLine_of_zero_count host days width row out' y m d
                ltac:(lia) Hin Hc Hp) as (label & Eline & Hlabel).
    eexists. split; [exact Eline|]. exists label. now split. }
  exists lines, [(dimmed, units "  " ++ repeat ruleChar (Z.to_nat (width - 2)))].
  split; [|split; [|split]].
  - unfold printBarChart.
    rewrite (pbind_ok _ _ out (out ++ [[(boldWhite, units "  Last 14 Days")]]) tt)
      by reflexivity.
    rewrite (pbind_ok _ _ _ start tt) by reflexivity.
    rewrite (pbind_ok _ _ _ _ tt E).
    rewrite rule_printed by lia.
    unfold start. rewrite <- !app_assoc. reflexivity.
  - etransitivity; [exact Hl|].
    unfold renderBarChart. rewrite length_map. apply last14_length.
  - exact Hf.
  - apply rule_length. lia.
Qed.

Lemma bar_chart_without_contributions_witness :
  let host := {| kMaxLength := 536870888; toLocaleString := numberToString |} in
  let days := [{| date := "2024-03-01"; contributionCount := 0 |};
               {| date := "2024-03-02"; contributionCount := 0 |}] in
  (2 <= 40 <= kMaxLength host)
  /\ match printBarChart host days 40 [] with
     | Ok _ lines => length lines = 5%nat
     | _ => False
     end.
Proof.
  cbv zeta.
  match goal with |- ?W /\ _ => assert (Hw : W) by (simpl; lia) end.
  split; [exact Hw|].
  destruct (bar_chart_without_contributions
              {| kMaxLength := 536870888; toLocaleString := numberToString |}
              [{| date := "2024-03-01"; contributionCount := 0 |};
               {| date := "2024-03-02"; contributionCount := 0 |}] 40 [] Hw)
    as (lines & rule & E & L & _).
  - repeat constructor; eexists _, _, _; reflexivity.
  - rewrite E. cbn [app length]. rewrite length_app, L. reflexivity.
Defined.
